(** * BadgerDB buffer manager ([src/buffer.cpp]): a shallow embedding

    The buffer manager owns [numBufs] page frames, a descriptor per frame,
    a hash table from [(file, pageNo)] to frames and a clock hand.  The C++
    methods mutate the manager, call into the [File] collaborator and throw
    exceptions; what was mutated before a [throw] stays mutated.  They are
    embedded as functions in a state-and-exception monad over a [World]
    made of the manager, the disk behind the [File] objects and two
    observation fields (the list of [File] calls made so far and the number
    of clock advances). *)

From Stdlib Require Import NArith Lia.
From stdpp Require Import base option list gmap.

Open Scope N_scope.

(** ** Data *)

(** [FrameId] and [PageId] are [std::uint32_t]; a [File*] is modelled by its
    address, [NULL] being address 0. *)
Abbreviation FrameId := N (only parsing).
Abbreviation PageId := N (only parsing).
Abbreviation File := N (only parsing).

Definition NULL : File := 0.
Definition UINT32 : N := 2 ^ 32.

(** Modelled from the spec: the [Page] class is not in [buffer.cpp]; the
    spec (6.2) makes it an opaque byte container carrying its own
    [page_number()].  A default-constructed page has the invalid number 0. *)
Record Page := mkPage { page_number : PageId; page_data : list N }.

Definition INVALID_NUMBER : PageId := 0.
Definition emptyPage : Page := mkPage INVALID_NUMBER [].

(** Modelled from the spec: [class BufDesc] is declared in [buffer.h], which
    is not part of the sources at hand.  The fields are those [buffer.cpp]
    reads and writes; [pinCnt] is the spec's non-negative integer. *)
Record BufDesc := mkBufDesc {
  file : File;
  pageNo : PageId;
  frameNo : FrameId;
  pinCnt : N;
  dirty : bool;
  valid : bool;
  refbit : bool
}.

(** Modelled from the spec: [BufDesc::Clear()] "resets to empty state"
    (4.1); a cleared frame is not valid, not dirty, has no reference bit, no
    pins, and its [file] is the null sentinel (9, open question on
    [flushFile]).  The frame number is kept. *)
Definition Clear (d : BufDesc) : BufDesc :=
  {| file := NULL; pageNo := INVALID_NUMBER; frameNo := frameNo d;
     pinCnt := 0; dirty := false; valid := false; refbit := false |}.

(** Modelled from the spec: [BufDesc::Set(file, pageNo)] "installs identity,
    pinCnt=1, other bits reset" (4.1); admission sets [valid] and leaves
    [dirty = false], [refbit = false] (3.3). *)
Definition Set_ (f : File) (p : PageId) (d : BufDesc) : BufDesc :=
  {| file := f; pageNo := p; frameNo := frameNo d;
     pinCnt := 1; dirty := false; valid := true; refbit := false |}.

Definition set_refbit (b : bool) (d : BufDesc) : BufDesc :=
  {| file := file d; pageNo := pageNo d; frameNo := frameNo d;
     pinCnt := pinCnt d; dirty := dirty d; valid := valid d; refbit := b |}.

Definition set_dirty (b : bool) (d : BufDesc) : BufDesc :=
  {| file := file d; pageNo := pageNo d; frameNo := frameNo d;
     pinCnt := pinCnt d; dirty := b; valid := valid d; refbit := refbit d |}.

Definition set_pinCnt (n : N) (d : BufDesc) : BufDesc :=
  {| file := file d; pageNo := pageNo d; frameNo := frameNo d;
     pinCnt := n; dirty := dirty d; valid := valid d; refbit := refbit d |}.

(** Modelled from the spec: [class BufMgr] is declared in [buffer.h] and
    [BufHashTbl] in files that are not among the sources.  The members are
    those [buffer.cpp] uses; the hash table is the spec's associative
    mapping keyed on [(file-identity, pageNo)] (4.2), here a [gmap]. *)
Record BufMgr := mkBufMgr {
  numBufs : N;
  bufDescTable : list BufDesc;
  bufPool : list Page;
  hashTable : gmap (N * N) N;
  clockHand : FrameId
}.

(** Exceptions.  Where the source passes [file->filename()] to an
    exception, the file itself stands for its name.  [FileException] stands
    for whatever the [File] collaborator throws; [UndefinedBehavior] marks
    what C++ leaves undefined (indexing an array out of range, [% 0]): the
    embedding stops there. *)
Inductive exn :=
| BufferExceededException
| PageNotPinnedException (f : File) (p : PageId) (fr : FrameId)
| PagePinnedException (f : File) (p : PageId) (fr : FrameId)
| BadBufferException (fr : FrameId) (dirtyIn validIn refbitIn : bool)
| HashNotFoundException
| HashAlreadyPresentException
| FileException (code : N)
| UndefinedBehavior.

Inductive result (A : Type) :=
| Ok (a : A)
| Throw (e : exn).
Arguments Ok {A} a.
Arguments Throw {A} e.

(** ** The [File] collaborator *)

(** The outcome of a call on a [File]: a value or an error code. *)
Inductive io_result (A : Type) :=
| IoOk (a : A)
| IoFail (code : N).
Arguments IoOk {A} a.
Arguments IoFail {A} code.

(** Modelled from the spec: [class File] is not among the sources; the spec
    (6.1) gives its interface.  A file system is any type of disks with the
    four operations; each either returns or fails, and may change the disk
    either way. *)
Class FileSystem (Disk : Type) := {
  fs_readPage : File → PageId → Disk → io_result Page * Disk;
  fs_writePage : File → Page → Disk → io_result unit * Disk;
  fs_allocatePage : File → Disk → io_result Page * Disk;
  fs_deletePage : File → PageId → Disk → io_result unit * Disk
}.

(** The calls made on [File] objects, in order. *)
Inductive FileCall :=
| CallReadPage (f : File) (p : PageId)
| CallWritePage (f : File) (pg : Page)
| CallAllocatePage (f : File)
| CallDeletePage (f : File) (p : PageId).

Record World (Disk : Type) := mkWorld {
  mgr : BufMgr;
  disk : Disk;
  fileCalls : list FileCall;
  clockAdvances : N
}.
Arguments mkWorld {Disk}.
Arguments mgr {Disk}.
Arguments disk {Disk}.
Arguments fileCalls {Disk}.
Arguments clockAdvances {Disk}.

(** ** Field updates *)

Definition with_descs (ds : list BufDesc) (m : BufMgr) : BufMgr :=
  mkBufMgr (numBufs m) ds (bufPool m) (hashTable m) (clockHand m).
Definition with_pool (ps : list Page) (m : BufMgr) : BufMgr :=
  mkBufMgr (numBufs m) (bufDescTable m) ps (hashTable m) (clockHand m).
Definition with_table (t : gmap (N * N) N) (m : BufMgr) : BufMgr :=
  mkBufMgr (numBufs m) (bufDescTable m) (bufPool m) t (clockHand m).
Definition with_hand (h : FrameId) (m : BufMgr) : BufMgr :=
  mkBufMgr (numBufs m) (bufDescTable m) (bufPool m) (hashTable m) h.

Definition with_mgr {Disk} (m : BufMgr) (w : World Disk) : World Disk :=
  mkWorld m (disk w) (fileCalls w) (clockAdvances w).

(** ** The monad *)

Definition M (Disk A : Type) : Type := World Disk → result A * World Disk.

Definition ret {Disk A} (a : A) : M Disk A := fun w => (Ok a, w).

Definition throw {Disk A} (e : exn) : M Disk A := fun w => (Throw e, w).

Definition bind {Disk A B} (c : M Disk A) (k : A → M Disk B) : M Disk B :=
  fun w =>
    match c w with
    | (Ok a, w') => k a w'
    | (Throw e, w') => (Throw e, w')
    end.

(** [try { body } catch (HashNotFoundException e) { handler }] *)
Definition catchHashNotFound {Disk A} (body handler : M Disk A) : M Disk A :=
  fun w =>
    match body w with
    | (Throw HashNotFoundException, w') => handler w'
    | r => r
    end.

Declare Scope bufmgr_scope.
Delimit Scope bufmgr_scope with bufmgr.
Notation "x <- c ;; k" := (bind c (fun x => k))
  (at level 100, c at next level, right associativity) : bufmgr_scope.
Notation "c ;; k" := (bind c (fun _ => k))
  (at level 100, right associativity) : bufmgr_scope.
Open Scope bufmgr_scope.

Section BufferManager.

Context {Disk : Type} `{FS : FileSystem Disk}.

#[local] Abbreviation M := (M Disk).

(** ** Reading and writing the members *)

Definition getNumBufs : M N := fun w => (Ok (numBufs (mgr w)), w).

Definition getHand : M FrameId := fun w => (Ok (clockHand (mgr w)), w).

(** [bufDescTable[i]], read. *)
Definition getDesc (i : FrameId) : M BufDesc :=
  fun w =>
    match bufDescTable (mgr w) !! N.to_nat i with
    | Some d => (Ok d, w)
    | None => (Throw UndefinedBehavior, w)
    end.

(** [bufDescTable[i]] updated in place by [g]. *)
Definition modifyDesc (i : FrameId) (g : BufDesc → BufDesc) : M unit :=
  fun w =>
    match bufDescTable (mgr w) !! N.to_nat i with
    | Some d =>
        (Ok tt, with_mgr (with_descs (<[N.to_nat i := g d]> (bufDescTable (mgr w))) (mgr w)) w)
    | None => (Throw UndefinedBehavior, w)
    end.

(** [bufPool[i]], read and assigned. *)
Definition getPage (i : FrameId) : M Page :=
  fun w =>
    match bufPool (mgr w) !! N.to_nat i with
    | Some pg => (Ok pg, w)
    | None => (Throw UndefinedBehavior, w)
    end.

Definition setPage (i : FrameId) (pg : Page) : M unit :=
  fun w =>
    match bufPool (mgr w) !! N.to_nat i with
    | Some _ =>
        (Ok tt, with_mgr (with_pool (<[N.to_nat i := pg]> (bufPool (mgr w))) (mgr w)) w)
    | None => (Throw UndefinedBehavior, w)
    end.

(** ** The hash table *)

(** Modelled from the spec: [BufHashTbl::insert] is not among the sources;
    it fails with a duplicate-key error if the key is present (4.2). *)
Definition hash_insert (f : File) (p : PageId) (fr : FrameId) : M unit :=
  fun w =>
    match hashTable (mgr w) !! (f, p) with
    | Some _ => (Throw HashAlreadyPresentException, w)
    | None => (Ok tt, with_mgr (with_table (<[(f, p) := fr]> (hashTable (mgr w))) (mgr w)) w)
    end.

(** Modelled from the spec: [BufHashTbl::lookup] is not among the sources;
    it fails with not-found when the key is absent (4.2). *)
Definition hash_lookup (f : File) (p : PageId) : M FrameId :=
  fun w =>
    match hashTable (mgr w) !! (f, p) with
    | Some fr => (Ok fr, w)
    | None => (Throw HashNotFoundException, w)
    end.

(** Modelled from the spec: [BufHashTbl::remove] is not among the sources;
    it fails with not-found when the key is absent (4.2). *)
Definition hash_remove (f : File) (p : PageId) : M unit :=
  fun w =>
    match hashTable (mgr w) !! (f, p) with
    | Some _ => (Ok tt, with_mgr (with_table (delete (f, p) (hashTable (mgr w))) (mgr w)) w)
    | None => (Throw HashNotFoundException, w)
    end.

(** ** Calls into [File] *)

Definition lift_io {A} (call : FileCall) (op : Disk → io_result A * Disk) : M A :=
  fun w =>
    let w' := mkWorld (mgr w) (snd (op (disk w))) (fileCalls w ++ [call]) (clockAdvances w) in
    match fst (op (disk w)) with
    | IoOk a => (Ok a, w')
    | IoFail c => (Throw (FileException c), w')
    end.

Definition file_readPage (f : File) (p : PageId) : M Page :=
  lift_io (CallReadPage f p) (fs_readPage f p).
Definition file_writePage (f : File) (pg : Page) : M unit :=
  lift_io (CallWritePage f pg) (fs_writePage f pg).
Definition file_allocatePage (f : File) : M Page :=
  lift_io (CallAllocatePage f) (fs_allocatePage f).
Definition file_deletePage (f : File) (p : PageId) : M unit :=
  lift_io (CallDeletePage f p) (fs_deletePage f p).

(** ** [BufMgr::BufMgr(bufs)] *)

(** Modelled from the spec: the constructor of [BufDesc] is not among the
    sources; a new descriptor is in the empty state (4.1).  [BufMgr::BufMgr]
    then gives it its frame number and [valid = false]. *)
Definition emptyDesc (i : FrameId) : BufDesc :=
  {| file := NULL; pageNo := INVALID_NUMBER; frameNo := i;
     pinCnt := 0; dirty := false; valid := false; refbit := false |}.

(** The constructor: [bufs] descriptors and pages, an empty hash table,
    the clock hand at [bufs - 1] (32-bit arithmetic). *)
Definition BufMgr_new (bufs : N) : BufMgr :=
  {| numBufs := bufs;
     bufDescTable := (fun i => emptyDesc (N.of_nat i)) <$> seq 0 (N.to_nat bufs);
     bufPool := replicate (N.to_nat bufs) emptyPage;
     hashTable := ∅;
     clockHand := (bufs + UINT32 - 1) mod UINT32 |}.

(** ** [BufMgr::advanceClock]: [clockHand++; clockHand %= numBufs;] *)
Definition advanceClock : M unit :=
  fun w =>
    let m := mgr w in
    if numBufs m =? 0 then (Throw UndefinedBehavior, w)
    else
      (Ok tt,
       mkWorld (with_hand (((clockHand m + 1) mod UINT32) mod numBufs m) m)
               (disk w) (fileCalls w) (clockAdvances w + 1)).

(** ** [BufMgr::allocBuf]

    [allocBuf_loop n i] is the [for] loop with [n] iterations left and the
    counter at [i]; it returns [found] and the value of [i] on exit.  The
    loop runs for [i = 0 .. numBufs], that is [numBufs + 1] iterations, as
    long as [numBufs < 2^32 - 1] (for [numBufs = 2^32 - 1] the 32-bit test
    [i <= numBufs] never fails; pools of that size are outside this
    development, see [wf]). *)
Fixpoint allocBuf_loop (n : nat) (i : N) : M (bool * N) :=
  match n with
  | O => ret (false, i)
  | S n' =>
      advanceClock ;;
      h <- getHand ;;
      d <- getDesc h ;;
      if negb (valid d) then ret (true, i)
      else if refbit d then
        modifyDesc h (set_refbit false) ;;
        allocBuf_loop n' ((i + 1) mod UINT32)
      else if negb (pinCnt d =? 0) then
        allocBuf_loop n' ((i + 1) mod UINT32)
      else
        hash_remove (file d) (pageNo d) ;;
        (if dirty d then
           modifyDesc h (set_dirty false) ;;
           pg <- getPage h ;;
           file_writePage (file d) pg
         else ret tt) ;;
        ret (true, i)
  end.

Definition allocBuf : M FrameId :=
  n <- getNumBufs ;;
  r <- allocBuf_loop (S (N.to_nat n)) 0 ;;
  if negb (fst r) && (n <=? snd r) then throw BufferExceededException
  else
    h <- getHand ;;
    modifyDesc h Clear ;;
    ret h.

(** ** [BufMgr::readPage]

    The handle [page = &bufPool[frameNum]] is represented by [frameNum]. *)
Definition readPage (f : File) (p : PageId) : M FrameId :=
  catchHashNotFound
    (fr <- hash_lookup f p ;;
     modifyDesc fr (set_refbit true) ;;
     modifyDesc fr (fun d => set_pinCnt (pinCnt d + 1) d) ;;
     ret fr)
    (fr <- allocBuf ;;
     pg <- file_readPage f p ;;
     setPage fr pg ;;
     hash_insert f p fr ;;
     modifyDesc fr (Set_ f p) ;;
     ret fr).

(** ** [BufMgr::unPinPage] *)
Definition unPinPage (f : File) (p : PageId) (isDirty : bool) : M unit :=
  catchHashNotFound
    (fr <- hash_lookup f p ;;
     d <- getDesc fr ;;
     if pinCnt d =? 0 then throw (PageNotPinnedException f p fr)
     else
       modifyDesc fr (fun d => set_pinCnt (pinCnt d - 1) d) ;;
       if isDirty then modifyDesc fr (set_dirty true) else ret tt)
    (ret tt).

(** ** [BufMgr::allocPage]: returns the new page number and the handle. *)
Definition allocPage (f : File) : M (PageId * FrameId) :=
  fr <- allocBuf ;;
  pg <- file_allocatePage f ;;
  setPage fr pg ;;
  hash_insert f (page_number pg) fr ;;
  modifyDesc fr (Set_ f (page_number pg)) ;;
  ret (page_number pg, fr).

(** ** [BufMgr::flushFile]

    [flushFile_loop f n i]: the [for] loop with [n] frames left, at frame
    [i]. *)
Definition flushFile_body (f : File) (i : N) : M unit :=
  d <- getDesc i ;;
  if (file d =? f) && negb (valid d) then
    throw (BadBufferException (frameNo d) (dirty d) (valid d) (refbit d))
  else if (file d =? f) && valid d then
    (if negb (pinCnt d =? 0) then throw (PagePinnedException f (pageNo d) (frameNo d))
     else ret tt) ;;
    (if dirty d then
       pg <- getPage (frameNo d) ;;
       file_writePage (file d) pg ;;
       modifyDesc i (set_dirty false)
     else ret tt) ;;
    hash_remove f (pageNo d) ;;
    modifyDesc i Clear
  else ret tt.

Fixpoint flushFile_loop (f : File) (n : nat) (i : N) : M unit :=
  match n with
  | O => ret tt
  | S n' => flushFile_body f i ;; flushFile_loop f n' (i + 1)
  end.

Definition flushFile (f : File) : M unit :=
  n <- getNumBufs ;;
  flushFile_loop f (N.to_nat n) 0.

(** ** [BufMgr::disposePage] *)
Definition disposePage (f : File) (p : PageId) : M unit :=
  catchHashNotFound
    (fr <- hash_lookup f p ;;
     d <- getDesc fr ;;
     (if dirty d then
        modifyDesc fr (set_dirty false) ;;
        pg <- getPage fr ;;
        file_writePage f pg
      else ret tt) ;;
     modifyDesc fr Clear ;;
     hash_remove f p ;;
     file_deletePage f p)
    (file_deletePage f p).

End BufferManager.

(** ** A concrete file system

    A small disk used to run the manager on concrete inputs: the allocated
    pages of every file, the next fresh page number, and a switch that
    makes every write fail (a disk that has become read-only). *)
Record SimDisk := mkSimDisk {
  sd_pages : gmap (N * N) (list N);
  sd_next : N;
  sd_readonly : bool
}.

Definition sim_readPage (f : File) (p : PageId) (d : SimDisk) : io_result Page * SimDisk :=
  match sd_pages d !! (f, p) with
  | Some bytes => (IoOk (mkPage p bytes), d)
  | None => (IoFail 1, d)
  end.

Definition sim_writePage (f : File) (pg : Page) (d : SimDisk) : io_result unit * SimDisk :=
  if sd_readonly d then (IoFail 2, d)
  else
    match sd_pages d !! (f, page_number pg) with
    | Some _ =>
        (IoOk tt, mkSimDisk (<[(f, page_number pg) := page_data pg]> (sd_pages d))
                            (sd_next d) (sd_readonly d))
    | None => (IoFail 1, d)
    end.

Definition sim_allocatePage (f : File) (d : SimDisk) : io_result Page * SimDisk :=
  (IoOk (mkPage (sd_next d) []),
   mkSimDisk (<[(f, sd_next d) := []]> (sd_pages d)) (sd_next d + 1) (sd_readonly d)).

Definition sim_deletePage (f : File) (p : PageId) (d : SimDisk) : io_result unit * SimDisk :=
  match sd_pages d !! (f, p) with
  | Some _ => (IoOk tt, mkSimDisk (delete (f, p) (sd_pages d)) (sd_next d) (sd_readonly d))
  | None => (IoFail 1, d)
  end.

#[export] Instance SimFS : FileSystem SimDisk := {
  fs_readPage := sim_readPage;
  fs_writePage := sim_writePage;
  fs_allocatePage := sim_allocatePage;
  fs_deletePage := sim_deletePage
}.

(** A disk on which file [f] has pages [1 .. n]. *)
Definition simDisk (f : File) (n : nat) (readonly : bool) : SimDisk :=
  mkSimDisk (list_to_map ((fun i => ((f, N.of_nat i), [])) <$> seq 1 n))
            (N.of_nat (S n)) readonly.

(** The world after [BufMgr::BufMgr(bufs)] over a given disk. *)
Definition newWorld {Disk} (bufs : N) (d : Disk) : World Disk :=
  mkWorld (BufMgr_new bufs) d [] 0.

(** ** Well-formedness and the residency invariant *)

(** The shape the constructor sets up and every method keeps: a pool of
    [0 < numBufs < 2^32 - 1] frames, one descriptor and one page per frame,
    descriptor [i] carrying frame number [i], the hand inside the pool. *)
Record wf (m : BufMgr) : Prop := mkWf {
  wf_numBufs : 0 < numBufs m < UINT32 - 1;
  wf_descs : length (bufDescTable m) = N.to_nat (numBufs m);
  wf_pool : length (bufPool m) = N.to_nat (numBufs m);
  wf_hand : clockHand m < numBufs m;
  wf_frameNo : ∀ fr d, bufDescTable m !! N.to_nat fr = Some d → frameNo d = fr
}.

(** The entries of the table that map to frame [fr] are exactly the one
    entry with key [k]. *)
Definition only_entry (t : gmap (N * N) N) (fr : FrameId) (k : N * N) : Prop :=
  ∀ k', t !! k' = Some fr ↔ k' = k.

(** No entry of the table maps to frame [fr]. *)
Definition no_entry (t : gmap (N * N) N) (fr : FrameId) : Prop :=
  ∀ k', t !! k' ≠ Some fr.

(** Frame [fr] with descriptor [d] agrees with the table. *)
Definition frame_ok (t : gmap (N * N) N) (fr : FrameId) (d : BufDesc) : Prop :=
  if valid d then only_entry t fr (file d, pageNo d) else no_entry t fr.

Definition table_in_range (m : BufMgr) : Prop :=
  ∀ k fr, hashTable m !! k = Some fr → fr < numBufs m.

Definition frames_ok (m : BufMgr) : Prop :=
  ∀ fr d, bufDescTable m !! N.to_nat fr = Some d → frame_ok (hashTable m) fr d.

Definition Inv (m : BufMgr) : Prop :=
  wf m ∧ table_in_range m ∧ frames_ok m.

(** The same with frame [h] set aside: nothing is said of its descriptor. *)
Definition Inv_but (h : FrameId) (m : BufMgr) : Prop :=
  wf m ∧ table_in_range m ∧
  ∀ fr d, fr ≠ h → bufDescTable m !! N.to_nat fr = Some d → frame_ok (hashTable m) fr d.

(** Frame [h] set aside and without an entry in the table (the state
    between the removal of a victim's entry and the clearing of its
    descriptor). *)
Definition Inv_except (h : FrameId) (m : BufMgr) : Prop :=
  Inv_but h m ∧ no_entry (hashTable m) h.

(** The public operations, as data, and running one. *)
Inductive Call :=
| CReadPage (f : File) (p : PageId)
| CAllocPage (f : File)
| CUnPinPage (f : File) (p : PageId) (isDirty : bool)
| CFlushFile (f : File)
| CDisposePage (f : File) (p : PageId).

Definition run_call {Disk} `{FileSystem Disk} (c : Call) : M Disk unit :=
  match c with
  | CReadPage f p => _ <- readPage f p ;; ret tt
  | CAllocPage f => _ <- allocPage f ;; ret tt
  | CUnPinPage f p b => unPinPage f p b
  | CFlushFile f => flushFile f
  | CDisposePage f p => disposePage f p
  end.

(** [e] was thrown by the [File] collaborator. *)
Definition is_FileException (e : exn) : Prop := ∃ c, e = FileException c.

(** A history of calls from a given state in which no call was aborted by
    a [File] error; calls may have thrown the manager's own exceptions. *)
Inductive history {Disk} `{FileSystem Disk} (w0 : World Disk) : World Disk → Prop :=
| history_nil : history w0 w0
| history_ok w c w' : history w0 w → run_call c w = (Ok tt, w') → history w0 w'
| history_throw w c e w' :
    history w0 w → run_call c w = (Throw e, w') → ¬ is_FileException e → history w0 w'.


(** ** Auxiliary notions for the proofs *)

(** Where [advanceClock] moves the hand. *)
Definition next_hand (m : BufMgr) : FrameId :=
  ((clockHand m + 1) mod UINT32) mod numBufs m.

(** The frame [j] steps ahead of the hand. *)
Definition ahead (m : BufMgr) (j : N) : FrameId := (clockHand m + j) mod numBufs m.

(** The write-back of a victim, as [allocBuf] and [disposePage] do it:
    the dirty bit is cleared first, then the page is written. *)
Definition writeBack {Disk} `{FileSystem Disk} (h : FrameId) (f : File) (isDirty : bool)
  : M Disk unit :=
  if isDirty then
    modifyDesc h (set_dirty false) ;;
    pg <- getPage h ;;
    file_writePage f pg
  else ret tt.

(** Two descriptors of the same resident page: only the reference and
    dirty bits may differ. *)
Definition same_identity (d d' : BufDesc) : Prop :=
  valid d' = valid d ∧ file d' = file d ∧ pageNo d' = pageNo d ∧
  pinCnt d' = pinCnt d ∧ frameNo d' = frameNo d.

(** What the scan of [allocBuf] may do to the manager: drop table entries
    and change reference and dirty bits. *)
Definition scan_rel (m m' : BufMgr) : Prop :=
  numBufs m' = numBufs m ∧ bufPool m' = bufPool m ∧
  (∀ k x, hashTable m' !! k = Some x → hashTable m !! k = Some x) ∧
  ∀ i : nat,
    match bufDescTable m !! i, bufDescTable m' !! i with
    | Some d, Some d' => same_identity d d'
    | None, None => True
    | _, _ => False
    end.

(** The call was not aborted by an error of the [File] collaborator. *)
Definition no_file_error {A} (r : result A) : Prop :=
  match r with
  | Throw (FileException _) => False
  | _ => True
  end.

(** The manager once frame [fr] (descriptor [d]) has been cleared and the
    entry of [(f, p)] removed. *)
Definition disposed (f : File) (p : PageId) (fr : FrameId) (d : BufDesc) (m : BufMgr) : BufMgr :=
  with_table (delete (f, p) (hashTable m))
    (with_descs (<[N.to_nat fr := Clear d]> (bufDescTable m)) m).

(** The residency invariant in the words of the specification: a frame is
    valid iff the table has exactly one entry mapping to it, the one keyed
    by the frame's [(file, pageNo)]; and no page is held by two frames. *)
Definition residency (m : BufMgr) : Prop :=
  (∀ fr d, bufDescTable m !! N.to_nat fr = Some d →
     (valid d = true ↔ only_entry (hashTable m) fr (file d, pageNo d))) ∧
  (∀ fr1 fr2 d1 d2,
     bufDescTable m !! N.to_nat fr1 = Some d1 →
     bufDescTable m !! N.to_nat fr2 = Some d2 →
     valid d1 = true → valid d2 = true →
     (file d1, pageNo d1) = (file d2, pageNo d2) → fr1 = fr2).

(** What [flushFile] may do to the manager while it works on the frames in
    [S]: drop table entries and change the descriptors of those frames. *)
Definition flush_rel (S : nat → Prop) (m m' : BufMgr) : Prop :=
  numBufs m' = numBufs m ∧
  (∀ k x, hashTable m' !! k = Some x → hashTable m !! k = Some x) ∧
  (∀ j, ¬ S j → bufDescTable m' !! j = bufDescTable m !! j).

(** ** Histories as lists of calls

    [run_calls cs w] is the state after the calls [cs], each run on the
    state the previous one left (whether it returned or threw);
    [calls_ok cs w] tells that none of them was aborted by a [File] error. *)
Fixpoint run_calls {Disk} `{FileSystem Disk} (cs : list Call) (w : World Disk) : World Disk :=
  match cs with
  | [] => w
  | c :: cs' => run_calls cs' (snd (run_call c w))
  end.

Fixpoint calls_ok {Disk} `{FileSystem Disk} (cs : list Call) (w : World Disk) : bool :=
  match cs with
  | [] => true
  | c :: cs' =>
      match fst (run_call c w) with
      | Throw (FileException _) => false
      | _ => calls_ok cs' (snd (run_call c w))
      end
  end.

(** The same state over another disk. *)
Definition with_disk {Disk} (d : Disk) (w : World Disk) : World Disk :=
  mkWorld (mgr w) d (fileCalls w) (clockAdvances w).

(** ** Concrete states, each reached by calls on a new manager

    File 7 has pages 1 to 4 on the disk. *)

(** Two frames; page 1 read twice and unpinned once, page 2 read twice and
    unpinned twice: frame 0 is pinned, frame 1 is not, both have their
    reference bit set. *)
Definition one_pinned_state : World SimDisk :=
  run_calls [CReadPage 7 1; CReadPage 7 1; CReadPage 7 2; CReadPage 7 2;
             CUnPinPage 7 2 false; CUnPinPage 7 2 false; CUnPinPage 7 1 false]
            (newWorld 2 (simDisk 7 4 false)).

(** One frame holding page 1, modified and unpinned; the disk has become
    read-only since. *)
Definition dirty_victim_state : World SimDisk :=
  with_disk (simDisk 7 4 true)
    (run_calls [CReadPage 7 1; CUnPinPage 7 1 true] (newWorld 1 (simDisk 7 4 false))).

(** Three frames holding pages 1, 2, 3 of file 7; only page 2 is still
    pinned; nothing is dirty. *)
Definition flush_state : World SimDisk :=
  run_calls [CReadPage 7 1; CReadPage 7 2; CReadPage 7 3;
             CUnPinPage 7 1 false; CUnPinPage 7 3 false]
            (newWorld 3 (simDisk 7 4 false)).

(** Two frames holding pages 1 and 2, both read twice and unpinned twice:
    all frames valid, unpinned, with their reference bit set. *)
Definition all_referenced_state : World SimDisk :=
  run_calls [CReadPage 7 1; CReadPage 7 1; CReadPage 7 2; CReadPage 7 2;
             CUnPinPage 7 1 false; CUnPinPage 7 1 false;
             CUnPinPage 7 2 false; CUnPinPage 7 2 true]
            (newWorld 2 (simDisk 7 4 false)).

(** One frame holding page 1, read twice (two pins) and marked dirty by an
    unpin: one pin is left. *)
Definition pinned_dirty_state : World SimDisk :=
  run_calls [CReadPage 7 1; CReadPage 7 1; CUnPinPage 7 1 true]
            (newWorld 1 (simDisk 7 4 false)).


(** The claim on [disposePage], as the specification words it:
    [disposePage(f, p)] invokes [file->deletePage(p)] unconditionally, and
    when the page is resident its entry is removed from the table and the
    descriptor of its frame cleared. *)
Definition disposePage_deletes_unconditionally {Disk} `{FileSystem Disk}
    (f : File) (p : PageId) (w : World Disk) : Prop :=
  ∀ r w', disposePage f p w = (r, w') →
    (∃ l, fileCalls w' = fileCalls w ++ l ∧ CallDeletePage f p ∈ l) ∧
    ∀ fr d,
      hashTable (mgr w) !! (f, p) = Some fr →
      bufDescTable (mgr w) !! N.to_nat fr = Some d →
      hashTable (mgr w') !! (f, p) = None ∧
      bufDescTable (mgr w') !! N.to_nat fr = Some (Clear d).

(** The descriptor of a resident page. *)
Definition resident (f : File) (p : PageId) (fr : FrameId) (pins : N) (isDirty ref : bool)
  : BufDesc :=
  mkBufDesc f p fr pins isDirty true ref.

(** ** [BufMgr::~BufMgr]

    The loop of the destructor: every frame whose dirty bit is set has its
    file flushed.  The two [delete []] that follow release the arrays and
    are not part of the embedding; an exception that leaves the body is
    reported as it is thrown. *)
Fixpoint destroy_loop {Disk} `{FileSystem Disk} (n : nat) (i : N) : M Disk unit :=
  match n with
  | O => ret tt
  | S n' =>
      d <- getDesc i ;;
      (if dirty d then flushFile (file d) else ret tt) ;;
      destroy_loop n' (i + 1)
  end.

Definition BufMgr_destroy {Disk} `{FileSystem Disk} : M Disk unit :=
  n <- getNumBufs ;;
  destroy_loop (N.to_nat n) 0.

(** ** [BufMgr::printSelf]

    What is written to [std::cout], in order.  [BufDesc::Print] is not among
    the sources: what it writes for a descriptor is represented by the
    descriptor.  [validFrames] is an [int]; incrementing it at [INT_MAX] is
    undefined. *)
Inductive Output :=
| OutFrameNo (i : N)
| OutDesc (d : BufDesc)
| OutTotal (validFrames : N).

Definition INT_MAX : N := 2 ^ 31 - 1.

Fixpoint printSelf_loop {Disk} (n : nat) (i : N) (validFrames : N) (out : list Output)
  : M Disk (N * list Output) :=
  match n with
  | O => ret (validFrames, out)
  | S n' =>
      fun w =>
        match bufDescTable (mgr w) !! N.to_nat i with
        | None => (Throw UndefinedBehavior, w)
        | Some tmpbuf =>
            let out' := out ++ [OutFrameNo i; OutDesc tmpbuf] in
            if valid tmpbuf then
              if validFrames =? INT_MAX then (Throw UndefinedBehavior, w)
              else printSelf_loop n' (i + 1) (validFrames + 1) out' w
            else printSelf_loop n' (i + 1) validFrames out' w
        end
  end.

Definition printSelf {Disk} : M Disk (list Output) :=
  fun w =>
    match printSelf_loop (N.to_nat (numBufs (mgr w))) 0 0 [] w with
    | (Ok (validFrames, out), w') => (Ok (out ++ [OutTotal validFrames]), w')
    | (Throw e, w') => (Throw e, w')
    end.

(** ** Compositions used in the statements *)

(** [advanceClock] called [n] times. *)
Fixpoint advance_n {Disk} (n : nat) : M Disk unit :=
  match n with
  | O => ret tt
  | S n' => advanceClock ;; advance_n n'
  end.

(** The number of valid descriptors. *)
Definition valid_count (m : BufMgr) : nat :=
  length (filter (fun d => valid d = true) (bufDescTable m)).

(** The calls in [l] are all [writePage]. *)
Definition only_writes (l : list FileCall) : Prop :=
  Forall (fun c => ∃ f pg, c = CallWritePage f pg) l.

(** What [flushFile] may do to a descriptor: leave it, or clear it. *)
Definition kept_or_cleared (d d' : BufDesc) : Prop :=
  d' = d ∨ d' = set_dirty false d ∨ d' = Clear d.

(** ** More concrete states *)

(** Two frames holding pages 1 and 2 of file 7, both pinned. *)
Definition all_pinned_state : World SimDisk :=
  run_calls [CReadPage 7 1; CReadPage 7 2] (newWorld 2 (simDisk 7 4 false)).

(** Two frames: page 1 of file 7 modified and unpinned in frame 0, page 1
    of file 8 pinned in frame 1.  Both files have pages 1 to 4. *)
Definition twoFilesDisk (readonly : bool) : SimDisk :=
  mkSimDisk (list_to_map ((fun i => ((7, N.of_nat i), [])) <$> seq 1 4) ∪
             list_to_map ((fun i => ((8, N.of_nat i), [])) <$> seq 1 4))
            5 readonly.

Definition two_files_state : World SimDisk :=
  run_calls [CReadPage 7 1; CUnPinPage 7 1 true; CReadPage 8 1]
            (newWorld 2 (twoFilesDisk false)).


(** Page 1 of file 7 pinned in frame 0 of two, and a disk whose next fresh
    page number is 1 again. *)
Definition stale_number_state : World SimDisk :=
  with_disk (mkSimDisk (sd_pages (simDisk 7 4 false)) 1 false)
    (run_calls [CReadPage 7 1] (newWorld 2 (simDisk 7 4 false))).

(** ** Notions for the statements on [File] calls *)

(** The disk and the list of [File] calls are the same. *)
Definition same_io {Disk} (w w' : World Disk) : Prop :=
  disk w' = disk w ∧ fileCalls w' = fileCalls w.

(** Between [w] and [w'] at most one call was made on a [File], a
    [writePage]. *)
Definition at_most_one_write {Disk} `{FileSystem Disk} (w w' : World Disk) : Prop :=
  same_io w w' ∨
  ∃ f pg, disk w' = snd (fs_writePage f pg (disk w)) ∧
          fileCalls w' = fileCalls w ++ [CallWritePage f pg].


(** What [flushFile(f)] may do, whatever its outcome: change descriptors of
    frames of [f] (clearing the dirty bit or the whole descriptor), remove
    table entries of pages of [f], and call [writePage]. *)
Definition flush_step {Disk} (f : File) (w w' : World Disk) : Prop :=
  numBufs (mgr w') = numBufs (mgr w) ∧
  bufPool (mgr w') = bufPool (mgr w) ∧
  clockHand (mgr w') = clockHand (mgr w) ∧
  clockAdvances w' = clockAdvances w ∧
  (∀ f' p, f' ≠ f → hashTable (mgr w') !! (f', p) = hashTable (mgr w) !! (f', p)) ∧
  (∀ k x, hashTable (mgr w') !! k = Some x → hashTable (mgr w) !! k = Some x) ∧
  (∀ j : nat,
     match bufDescTable (mgr w) !! j, bufDescTable (mgr w') !! j with
     | Some d, Some d' => kept_or_cleared d d' ∧ (file d ≠ f → d' = d)
     | None, None => True
     | _, _ => False
     end) ∧
  ∃ l, fileCalls w' = fileCalls w ++ l ∧ only_writes l.

(** What the scan of [allocBuf] respects: the pool, the descriptors of
    valid pinned frames (but for the reference bit), and every table entry
    except one whose frame ends unpinned (the victim). *)
Definition pins_respected (m m' : BufMgr) : Prop :=
  bufPool m' = bufPool m ∧
  (∀ (j : nat) d, bufDescTable m !! j = Some d → valid d = true → pinCnt d ≠ 0 →
     bufDescTable m' !! j = Some d ∨ bufDescTable m' !! j = Some (set_refbit false d)) ∧
  (∀ k x, hashTable m !! k = Some x →
     hashTable m' !! k = Some x ∨
     ∃ dv, bufDescTable m' !! N.to_nat x = Some dv ∧ pinCnt dv = 0).

(** The page held by frame [j] of [m] with descriptor [d] is still there in
    [m']: same frame, same descriptor but perhaps for the reference bit, same
    entry in the table, same content. *)
Definition pinned_page_kept (m : BufMgr) (j : FrameId) (d : BufDesc) (m' : BufMgr) : Prop :=
  (bufDescTable m' !! N.to_nat j = Some d ∨
   bufDescTable m' !! N.to_nat j = Some (set_refbit false d)) ∧
  hashTable m' !! (file d, pageNo d) = Some j ∧
  bufPool m' !! N.to_nat j = bufPool m !! N.to_nat j.

(** Every valid dirty page of [w] is either untouched in [w'] or has been
    passed to [writePage] in between; the pool is the same. *)
Definition wrote_back {Disk} (w w' : World Disk) : Prop :=
  bufPool (mgr w') = bufPool (mgr w) ∧
  ∃ l, fileCalls w' = fileCalls w ++ l ∧
    ∀ (j : nat) d, bufDescTable (mgr w) !! j = Some d → valid d = true → dirty d = true →
      bufDescTable (mgr w') !! j = Some d ∨
      ∃ pg, bufPool (mgr w) !! j = Some pg ∧ CallWritePage (file d) pg ∈ l.

(** What the destructor's calls of [flushFile] that return do: descriptors
    are left or cleared, those of pinned pages are left. *)
Definition destroy_rel {Disk} (w w' : World Disk) : Prop :=
  numBufs (mgr w') = numBufs (mgr w) ∧
  wrote_back w w' ∧
  ∀ j : nat,
    match bufDescTable (mgr w) !! j, bufDescTable (mgr w') !! j with
    | Some d, Some d' => kept_or_cleared d d' ∧ (valid d = true → pinCnt d ≠ 0 → d' = d)
    | None, None => True
    | _, _ => False
    end.

(** The table entries the valid descriptors call for. *)
Definition resident_entries (l : list BufDesc) : list ((N * N) * N) :=
  omap (fun d => if valid d then Some ((file d, pageNo d), frameNo d) else None) l.

(** What [printSelf] prints for the frames, in order. *)
Definition frame_lines (l : list BufDesc) : list Output :=
  flat_map (fun d => [OutFrameNo (frameNo d); OutDesc d]) l.

(** * Proofs *)

Section Proofs.

Context {Disk : Type} `{FS : FileSystem Disk}.

#[local] Abbreviation M := (M Disk).

(** ** Running the monad *)

Lemma bind_Ok {A B} (c : M A) (k : A → M B) w a w1 :
  c w = (Ok a, w1) → bind c k w = k a w1.
Proof. intros E. unfold bind. now rewrite E. Qed.

Lemma bind_Throw {A B} (c : M A) (k : A → M B) w e w1 :
  c w = (Throw e, w1) → bind c k w = (Throw e, w1).
Proof. intros E. unfold bind. now rewrite E. Qed.

Lemma bind_inv {A B} (c : M A) (k : A → M B) w r w' :
  bind c k w = (r, w') →
  (∃ a w1, c w = (Ok a, w1) ∧ k a w1 = (r, w')) ∨
  (∃ e, c w = (Throw e, w') ∧ r = Throw e).
Proof.
  unfold bind. destruct (c w) as [[a|e] w1]; intros E.
  - left. eauto.
  - right. exists e. now inversion E.
Qed.

Lemma getDesc_Ok i d (w : World Disk) :
  bufDescTable (mgr w) !! N.to_nat i = Some d → getDesc i w = (Ok d, w).
Proof. intros E. unfold getDesc. now rewrite E. Qed.

Lemma modifyDesc_Ok i g d (w : World Disk) :
  bufDescTable (mgr w) !! N.to_nat i = Some d →
  modifyDesc i g w =
  (Ok tt, with_mgr (with_descs (<[N.to_nat i := g d]> (bufDescTable (mgr w))) (mgr w)) w).
Proof. intros E. unfold modifyDesc. now rewrite E. Qed.

Lemma hash_lookup_Ok f p fr (w : World Disk) :
  hashTable (mgr w) !! (f, p) = Some fr → hash_lookup f p w = (Ok fr, w).
Proof. intros E. unfold hash_lookup. now rewrite E. Qed.

Lemma hash_lookup_None f p (w : World Disk) :
  hashTable (mgr w) !! (f, p) = None → hash_lookup f p w = (Throw HashNotFoundException, w).
Proof. intros E. unfold hash_lookup. now rewrite E. Qed.

(** ** [unPinPage] *)

(** The three cases of [unPinPage]. *)
Lemma unPinPage_run (w : World Disk) (f : File) (p : PageId) (isDirty : bool) :
  (hashTable (mgr w) !! (f, p) = None → unPinPage f p isDirty w = (Ok tt, w)) ∧
  (∀ fr d,
     hashTable (mgr w) !! (f, p) = Some fr →
     bufDescTable (mgr w) !! N.to_nat fr = Some d →
     (pinCnt d = 0 →
      unPinPage f p isDirty w = (Throw (PageNotPinnedException f p fr), w)) ∧
     (pinCnt d ≠ 0 →
      unPinPage f p isDirty w =
      (Ok tt,
       with_mgr
         (with_descs
            (<[N.to_nat fr :=
                 set_dirty (if isDirty then true else dirty d)
                           (set_pinCnt (pinCnt d - 1) d)]> (bufDescTable (mgr w)))
            (mgr w)) w))).
Proof.
  split.
  - intros Hk. unfold unPinPage, catchHashNotFound.
    rewrite (bind_Throw _ _ _ _ _ (hash_lookup_None _ _ _ Hk)). reflexivity.
  - intros fr d Hk Hd. unfold unPinPage, catchHashNotFound.
    rewrite (bind_Ok _ _ _ _ _ (hash_lookup_Ok _ _ _ _ Hk)).
    rewrite (bind_Ok _ _ _ _ _ (getDesc_Ok _ _ _ Hd)).
    split; intros Hpin.
    + rewrite Hpin. reflexivity.
    + apply N.eqb_neq in Hpin. rewrite Hpin.
      rewrite (bind_Ok _ _ _ _ _ (modifyDesc_Ok _ _ _ _ Hd)).
      destruct isDirty; [|reflexivity].
      pose proof (lookup_lt_Some _ _ _ Hd) as Hlt.
      erewrite modifyDesc_Ok by (simpl; apply list_lookup_insert_eq; exact Hlt).
      simpl. unfold with_mgr, with_descs. simpl.
      now rewrite list_insert_insert_eq.
Qed.

(** ** The invariant under field updates *)

Ltac simpl_proj :=
  cbn [mgr disk fileCalls clockAdvances with_mgr with_descs with_pool
       with_table with_hand numBufs bufDescTable bufPool hashTable clockHand] in *.

Lemma Inv_split h m :
  Inv m ↔
  Inv_but h m ∧ ∀ d, bufDescTable m !! N.to_nat h = Some d → frame_ok (hashTable m) h d.
Proof.
  unfold Inv, Inv_but, frames_ok. split.
  - intros (Hwf & Hr & Hf). split; [split; [|split]|]; eauto.
  - intros ((Hwf & Hr & Hf) & Hh). split; [|split]; eauto.
    intros fr d Hd. destruct (decide (fr = h)) as [->|Hne]; eauto.
Qed.

Lemma wf_insert_desc m fr d d' :
  wf m → bufDescTable m !! N.to_nat fr = Some d → frameNo d' = frameNo d →
  wf (with_descs (<[N.to_nat fr := d']> (bufDescTable m)) m).
Proof.
  intros [H1 H2 H3 H4 H5] Hd Hfn. constructor; simpl_proj; auto.
  - now rewrite length_insert.
  - intros fr0 d0. rewrite list_lookup_insert.
    case_decide as Hc.
    + destruct Hc as [Hc _]. apply N2Nat.inj in Hc. subst fr0.
      intros [= <-]. rewrite Hfn. eauto.
    + eauto.
Qed.

(** Any change to the descriptor of the frame set aside. *)
Lemma Inv_but_modify h m d d' :
  Inv_but h m → bufDescTable m !! N.to_nat h = Some d → frameNo d' = frameNo d →
  Inv_but h (with_descs (<[N.to_nat h := d']> (bufDescTable m)) m).
Proof.
  intros (Hwf & Hr & Hf) Hd Hfn. split; [|split].
  - eapply wf_insert_desc; eauto.
  - exact Hr.
  - simpl_proj. intros fr d0 Hne. rewrite list_lookup_insert_ne.
    + eauto.
    + intros Hc. apply N2Nat.inj in Hc. congruence.
Qed.

(** A change to the bits of a frame that keeps its identity. *)
Lemma Inv_modify_bits fr m d d' :
  Inv m → bufDescTable m !! N.to_nat fr = Some d →
  frameNo d' = frameNo d → valid d' = valid d → file d' = file d → pageNo d' = pageNo d →
  Inv (with_descs (<[N.to_nat fr := d']> (bufDescTable m)) m).
Proof.
  intros HI Hd Hfn Hv Hfl Hp.
  apply (Inv_split fr) in HI as [Hb Hh]. apply (Inv_split fr). split.
  - eapply Inv_but_modify; eauto.
  - simpl_proj. intros d0. rewrite list_lookup_insert_eq by (eapply lookup_lt_Some; eauto).
    intros [= <-]. specialize (Hh d Hd). unfold frame_ok in *.
    rewrite Hv. destruct (valid d); [rewrite Hfl, Hp|]; exact Hh.
Qed.

Lemma Inv_but_pool h m ps :
  Inv_but h m → length ps = length (bufPool m) → Inv_but h (with_pool ps m).
Proof.
  intros ([H1 H2 H3 H4 H5] & Hr & Hf) Hl. split; [|split]; auto.
  constructor; simpl_proj; auto. congruence.
Qed.

Lemma Inv_pool m ps : Inv m → length ps = length (bufPool m) → Inv (with_pool ps m).
Proof.
  intros HI Hl. apply (Inv_split 0) in HI as [Hb Hh]. apply (Inv_split 0).
  split; [now apply Inv_but_pool | exact Hh].
Qed.

Lemma Inv_hand m h : Inv m → h < numBufs m → Inv (with_hand h m).
Proof.
  intros ([H1 H2 H3 H4 H5] & Hr & Hf) Hl. split; [|split]; auto.
  constructor; simpl_proj; auto.
Qed.

(** Removing the entry of a valid frame sets the frame aside. *)
Lemma Inv_remove h m d :
  Inv m → bufDescTable m !! N.to_nat h = Some d → valid d = true →
  hashTable m !! (file d, pageNo d) = Some h ∧
  Inv_except h (with_table (delete (file d, pageNo d) (hashTable m)) m).
Proof.
  intros HI Hd Hv.
  apply (Inv_split h) in HI as [(Hwf & Hr & Hf) Hh].
  specialize (Hh d Hd). unfold frame_ok in Hh. rewrite Hv in Hh.
  assert (Hk : hashTable m !! (file d, pageNo d) = Some h) by now apply Hh.
  split; [exact Hk|].
  split; [split; [|split]|].
  - destruct Hwf. constructor; simpl_proj; auto.
  - intros k fr. simpl_proj. rewrite lookup_delete_Some. intros [_ E]. eauto.
  - simpl_proj. intros fr d0 Hne Hd0. specialize (Hf fr d0 Hne Hd0).
    unfold frame_ok in *. destruct (valid d0).
    + intros k'. rewrite lookup_delete_Some. rewrite <- (Hf k'). split.
      * tauto.
      * intros Hk'. split; [|exact Hk']. intros <-. congruence.
    + intros k'. rewrite lookup_delete_Some. intros [_ E]. now apply (Hf k').
  - simpl_proj. intros k'. rewrite lookup_delete_Some. intros [Hne E].
    apply Hh in E. congruence.
Qed.

(** An invalid frame has no entry: it can be set aside as it is. *)
Lemma Inv_invalid_except h m d :
  Inv m → bufDescTable m !! N.to_nat h = Some d → valid d = false → Inv_except h m.
Proof.
  intros HI Hd Hv. apply (Inv_split h) in HI as [Hb Hh]. split; [exact Hb|].
  specialize (Hh d Hd). unfold frame_ok in Hh. now rewrite Hv in Hh.
Qed.

(** Clearing the descriptor of a frame without entry restores the
    invariant. *)
Lemma Inv_except_clear h m d d' :
  Inv_except h m → bufDescTable m !! N.to_nat h = Some d →
  frameNo d' = frameNo d → valid d' = false →
  Inv (with_descs (<[N.to_nat h := d']> (bufDescTable m)) m).
Proof.
  intros [Hb Hno] Hd Hfn Hv. apply (Inv_split h). split.
  - eapply Inv_but_modify; eauto.
  - simpl_proj. intros d0. rewrite list_lookup_insert_eq by (eapply lookup_lt_Some; eauto).
    intros [= <-]. unfold frame_ok. now rewrite Hv.
Qed.

(** Admission: a new entry for a frame without entry, and the descriptor
    set to the entry's key. *)
Lemma Inv_except_admission h m d d' k :
  Inv_except h m → bufDescTable m !! N.to_nat h = Some d →
  hashTable m !! k = None →
  frameNo d' = frameNo d → valid d' = true → (file d', pageNo d') = k →
  Inv (with_descs (<[N.to_nat h := d']> (bufDescTable m))
         (with_table (<[k := h]> (hashTable m)) m)).
Proof.
  intros [(Hwf & Hr & Hf) Hno] Hd Hk Hfn Hv Hkey.
  assert (Hh : h < numBufs m).
  { apply lookup_lt_Some in Hd. destruct Hwf. lia. }
  apply (Inv_split h). split; [split; [|split]|].
  - apply (wf_insert_desc (with_table _ m) h d d'); auto.
    destruct Hwf. constructor; simpl_proj; auto.
  - intros k' fr. simpl_proj. rewrite lookup_insert_Some.
    intros [[_ <-]|[_ E]]; eauto.
  - simpl_proj. intros fr d0 Hne.
    rewrite list_lookup_insert_ne by (intros Hc; apply N2Nat.inj in Hc; congruence).
    intros Hd0. specialize (Hf fr d0 Hne Hd0). unfold frame_ok in *.
    destruct (valid d0).
    + intros k'. rewrite lookup_insert_Some. rewrite <- (Hf k'). split.
      * intros [[_ E]|[_ E]]; [congruence | exact E].
      * intros E. right. split; [|exact E]. intros <-. congruence.
    + intros k'. rewrite lookup_insert_Some. intros [[_ E]|[_ E]]; [congruence|].
      now apply (Hf k').
  - simpl_proj. intros d0. rewrite list_lookup_insert_eq by (eapply lookup_lt_Some; eauto).
    intros [= <-]. unfold frame_ok. rewrite Hv, Hkey.
    intros k'. rewrite lookup_insert_Some. split.
    + intros [[E _]|[_ E]]; [congruence|]. now apply Hno in E.
    + intros ->. now left.
Qed.

(** ** The clock *)

Lemma next_hand_lt m : wf m → next_hand m < numBufs m.
Proof. intros [H1 _ _ _ _]. apply N.mod_lt. lia. Qed.

Lemma next_hand_eq m : wf m → next_hand m = (clockHand m + 1) mod numBufs m.
Proof.
  intros [H1 _ _ H4 _]. unfold next_hand. f_equal. apply N.mod_small. lia.
Qed.

Lemma wf_lookup m fr : wf m → fr < numBufs m → ∃ d, bufDescTable m !! N.to_nat fr = Some d.
Proof.
  intros [_ H2 _ _ _] Hlt.
  destruct (lookup_lt_is_Some_2 (bufDescTable m) (N.to_nat fr)) as [d Hd]; [lia|eauto].
Qed.

Lemma wf_lookup_pool m fr : wf m → fr < numBufs m → ∃ pg, bufPool m !! N.to_nat fr = Some pg.
Proof.
  intros [_ _ H3 _ _] Hlt.
  destruct (lookup_lt_is_Some_2 (bufPool m) (N.to_nat fr)) as [d Hd]; [lia|eauto].
Qed.

Lemma wf_lookup_lt m fr d : wf m → bufDescTable m !! N.to_nat fr = Some d → fr < numBufs m.
Proof. intros [_ H2 _ _ _] Hd. apply lookup_lt_Some in Hd. lia. Qed.

Lemma advanceClock_Ok (w : World Disk) :
  numBufs (mgr w) ≠ 0 →
  advanceClock w =
  (Ok tt, mkWorld (with_hand (next_hand (mgr w)) (mgr w)) (disk w) (fileCalls w)
                  (clockAdvances w + 1)).
Proof.
  intros Hn. unfold advanceClock. apply N.eqb_neq in Hn. now rewrite Hn.
Qed.

Lemma getPage_Ok i pg (w : World Disk) :
  bufPool (mgr w) !! N.to_nat i = Some pg → getPage i w = (Ok pg, w).
Proof. intros E. unfold getPage. now rewrite E. Qed.

Lemma setPage_Ok i pg pg0 (w : World Disk) :
  bufPool (mgr w) !! N.to_nat i = Some pg0 →
  setPage i pg w =
  (Ok tt, with_mgr (with_pool (<[N.to_nat i := pg]> (bufPool (mgr w))) (mgr w)) w).
Proof. intros E. unfold setPage. now rewrite E. Qed.

Lemma hash_remove_Ok f p fr (w : World Disk) :
  hashTable (mgr w) !! (f, p) = Some fr →
  hash_remove f p w =
  (Ok tt, with_mgr (with_table (delete (f, p) (hashTable (mgr w))) (mgr w)) w).
Proof. intros E. unfold hash_remove. now rewrite E. Qed.

Lemma hash_insert_Ok f p fr (w : World Disk) :
  hashTable (mgr w) !! (f, p) = None →
  hash_insert f p fr w =
  (Ok tt, with_mgr (with_table (<[(f, p) := fr]> (hashTable (mgr w))) (mgr w)) w).
Proof. intros E. unfold hash_insert. now rewrite E. Qed.

(** A call into [File] either returns or throws a [FileException]; the
    manager is not touched, the call is recorded. *)
Lemma lift_io_inv {A} call (op : Disk → io_result A * Disk) (w : World Disk) r w' :
  lift_io call op w = (r, w') →
  w' = mkWorld (mgr w) (snd (op (disk w))) (fileCalls w ++ [call]) (clockAdvances w) ∧
  ((∃ a, fst (op (disk w)) = IoOk a ∧ r = Ok a) ∨
   (∃ c, fst (op (disk w)) = IoFail c ∧ r = Throw (FileException c))).
Proof.
  unfold lift_io. destruct (fst (op (disk w))) as [a|c]; intros [= <- <-]; split; eauto.
Qed.

(** Forward symbolic execution of a hypothesis [H : (c ;; k) w = _]. *)
Ltac run_in H lem := rewrite (bind_Ok _ _ _ _ _ lem) in H.
Ltac run lem := rewrite (bind_Ok _ _ _ _ _ lem).

Lemma writeBack_inv h f d (w : World Disk) r w' :
  wf (mgr w) → bufDescTable (mgr w) !! N.to_nat h = Some d →
  writeBack h f (dirty d) w = (r, w') →
  mgr w' =
    (if dirty d
     then with_descs (<[N.to_nat h := set_dirty false d]> (bufDescTable (mgr w))) (mgr w)
     else mgr w) ∧
  (r = Ok tt ∨ ∃ c, r = Throw (FileException c)).
Proof.
  intros Hwf Hd. unfold writeBack. destruct (dirty d).
  - run (modifyDesc_Ok _ (set_dirty false) _ _ Hd).
    destruct (wf_lookup_pool (mgr w) h Hwf (wf_lookup_lt _ _ _ Hwf Hd)) as [pg Hpg].
    erewrite bind_Ok by (apply getPage_Ok; simpl_proj; exact Hpg).
    intros Hio. apply lift_io_inv in Hio as [-> Hr]. split; [reflexivity|].
    destruct Hr as [([] & _ & ->)|(c & _ & ->)]; eauto.
  - intros [= <- <-]. auto.
Qed.

(** ** The loop of [allocBuf] keeps the invariant

    As long as it goes on, the loop only clears reference bits.  When it
    selects a frame, that frame is left without table entry; a [File]
    error is the only exception it can throw from a consistent state. *)
Lemma allocBuf_loop_post n : ∀ i (w : World Disk) r w',
  Inv (mgr w) → allocBuf_loop n i w = (r, w') →
  numBufs (mgr w') = numBufs (mgr w) ∧
  (∀ k x, hashTable (mgr w') !! k = Some x → hashTable (mgr w) !! k = Some x) ∧
  match r with
  | Ok (true, _) => Inv_except (clockHand (mgr w')) (mgr w')
  | Ok (false, _) => Inv (mgr w')
  | Throw e => is_FileException e
  end.
Proof.
  induction n as [|n IH]; intros i w r w' HI Hrun.
  - cbn in Hrun. injection Hrun as <- <-. auto.
  - cbn [allocBuf_loop] in Hrun.
    pose proof HI as (Hwf & Hrange & Hok).
    assert (Hn0 : numBufs (mgr w) ≠ 0) by (destruct Hwf; lia).
    run_in Hrun (advanceClock_Ok w Hn0).
    set (w1 := mkWorld _ _ _ _) in Hrun.
    assert (HI1 : Inv (mgr w1))
      by (apply Inv_hand; [exact HI | exact (next_hand_lt _ Hwf)]).
    unfold bind at 1 in Hrun. cbn [getHand] in Hrun.
    change (clockHand (mgr w1)) with (next_hand (mgr w)) in Hrun.
    destruct (wf_lookup (mgr w1) (next_hand (mgr w))) as [d Hd];
      [apply HI1 | exact (next_hand_lt _ Hwf) |].
    run_in Hrun (getDesc_Ok _ _ _ Hd).
    destruct (valid d) eqn:Hv; cbn [negb] in Hrun.
    + destruct (refbit d) eqn:Hr.
      * run_in Hrun (modifyDesc_Ok _ (set_refbit false) _ _ Hd).
        apply IH in Hrun; [exact Hrun|].
        simpl_proj. fold (mgr w1).
        apply (Inv_modify_bits _ (mgr w1) d); auto.
      * destruct (pinCnt d =? 0) eqn:Hp; cbn [negb] in Hrun.
        -- destruct (Inv_remove _ _ _ HI1 Hd Hv) as [Hk Hex].
           run_in Hrun (hash_remove_Ok _ _ _ _ Hk).
           set (w2 := with_mgr _ w1) in Hrun.
           fold (writeBack (next_hand (mgr w)) (file d) (dirty d)) in Hrun.
           apply bind_inv in Hrun as [(a & w3 & Hwb & Hret)|(e & Hwb & ->)].
           ++ cbn [ret] in Hret. injection Hret as <- <-.
              apply writeBack_inv in Hwb as [Hm _]; [|apply Hex|exact Hd].
              rewrite Hm. split; [now destruct (dirty d)|]. split.
              ** intros k x. destruct (dirty d); subst w2; simpl_proj;
                   rewrite lookup_delete_Some; tauto.
              ** destruct (dirty d); [|exact Hex].
                 destruct Hex as [Hb Hno]. split; [|exact Hno].
                 simpl_proj. apply (Inv_but_modify _ _ d); auto.
           ++ apply writeBack_inv in Hwb as [Hm Hr']; [|apply Hex|exact Hd].
              rewrite Hm. split; [now destruct (dirty d)|]. split.
              ** intros k x. destruct (dirty d); subst w2; simpl_proj;
                   rewrite lookup_delete_Some; tauto.
              ** destruct Hr' as [[=]|[c [= ->]]]. now exists c.
        -- apply IH in Hrun; auto.
    + cbn [ret] in Hrun. injection Hrun as <- <-.
      split; [reflexivity|]. split; [auto|].
      change (clockHand (mgr w1)) with (next_hand (mgr w)).
      eapply Inv_invalid_except; eauto.
Qed.

(** When the loop ends without a frame, the counter has gone through all
    its values. *)
Lemma allocBuf_loop_notfound n : ∀ i (w : World Disk) i' w',
  allocBuf_loop n i w = (Ok (false, i'), w') →
  i + N.of_nat n < UINT32 → i' = i + N.of_nat n.
Proof.
  induction n as [|n IH]; intros i w i' w' Hrun Hlt.
  - cbn in Hrun. injection Hrun as <- <-. lia.
  - cbn [allocBuf_loop] in Hrun.
    assert (Hi : (i + 1) mod UINT32 = i + 1) by (apply N.mod_small; lia).
    rewrite Hi in Hrun.
    apply bind_inv in Hrun as [(? & w1 & _ & Hrun)|(? & _ & [=])].
    apply bind_inv in Hrun as [(h & w2 & _ & Hrun)|(? & _ & [=])].
    apply bind_inv in Hrun as [(d & w3 & _ & Hrun)|(? & _ & [=])].
    destruct (negb (valid d)); [discriminate Hrun|].
    destruct (refbit d).
    + apply bind_inv in Hrun as [(? & w4 & _ & Hrun)|(? & _ & [=])].
      apply IH in Hrun; lia.
    + destruct (negb (pinCnt d =? 0)).
      * apply IH in Hrun; lia.
      * apply bind_inv in Hrun as [(? & w4 & _ & Hrun)|(? & _ & [=])].
        apply bind_inv in Hrun as [(? & w5 & _ & Hrun)|(? & _ & [=])].
        discriminate Hrun.
Qed.

(** ** [allocBuf] from a consistent state

    It returns the frame under the hand, cleared and without table entry, or
    throws [BufferExceededException] having only cleared reference bits, or
    is aborted by a [File] error.  The table only loses entries. *)
Lemma allocBuf_post (w : World Disk) r w' :
  Inv (mgr w) → allocBuf w = (r, w') →
  numBufs (mgr w') = numBufs (mgr w) ∧
  (∀ k x, hashTable (mgr w') !! k = Some x → hashTable (mgr w) !! k = Some x) ∧
  match r with
  | Ok fr =>
      Inv (mgr w') ∧ fr = clockHand (mgr w') ∧ fr < numBufs (mgr w') ∧
      ∃ d, bufDescTable (mgr w') !! N.to_nat fr = Some (Clear d)
  | Throw e => (e = BufferExceededException ∧ Inv (mgr w')) ∨ is_FileException e
  end.
Proof.
  intros HI Hrun. unfold allocBuf in Hrun.
  unfold bind at 1 in Hrun. cbn [getNumBufs] in Hrun.
  apply bind_inv in Hrun as [([found i] & w1 & Hloop & Hrest)|(e & Hloop & ->)].
  - pose proof Hloop as Hloop'.
    apply allocBuf_loop_post in Hloop as (Hn & Hsub & Hpost); [|exact HI].
    cbn [fst snd] in Hrest. destruct found; cbn [negb andb] in Hrest.
    + unfold bind at 1 in Hrest. cbn [getHand] in Hrest.
      destruct Hpost as [Hb Hno].
      assert (Hlt : clockHand (mgr w1) < numBufs (mgr w1)) by (destruct Hb as [[] _]; auto).
      destruct (wf_lookup (mgr w1) (clockHand (mgr w1))) as [d Hd]; [apply Hb|exact Hlt|].
      run_in Hrest (modifyDesc_Ok _ Clear _ _ Hd).
      cbn [ret] in Hrest. injection Hrest as <- <-. simpl_proj.
      split; [exact Hn|]. split; [exact Hsub|]. split; [|split; [reflexivity|split]].
      * apply (Inv_except_clear _ _ d); auto. split; auto.
      * exact Hlt.
      * exists d. apply list_lookup_insert_eq. eapply lookup_lt_Some; eauto.
    + destruct (numBufs (mgr w) <=? i) eqn:Hle.
      * cbn [throw] in Hrest. injection Hrest as <- <-. auto.
      * apply allocBuf_loop_notfound in Hloop'.
        -- apply N.leb_gt in Hle. lia.
        -- destruct HI as [[] _]. lia.
  - apply allocBuf_loop_post in Hloop as (Hn & Hsub & Hpost); auto.
Qed.

(** ** What the scan of [allocBuf] leaves alone (no invariant assumed) *)

Lemma same_identity_refl d : same_identity d d.
Proof. repeat split. Qed.

Lemma same_identity_trans d1 d2 d3 :
  same_identity d1 d2 → same_identity d2 d3 → same_identity d1 d3.
Proof. unfold same_identity. intuition congruence. Qed.

Lemma scan_rel_refl m : scan_rel m m.
Proof.
  repeat split; auto. intros i. destruct (bufDescTable m !! i); auto using same_identity_refl.
Qed.

Lemma scan_rel_trans m1 m2 m3 : scan_rel m1 m2 → scan_rel m2 m3 → scan_rel m1 m3.
Proof.
  intros (A1 & A2 & A3 & A4) (B1 & B2 & B3 & B4).
  split; [congruence|]. split; [congruence|]. split; [auto|].
  intros i. specialize (A4 i). specialize (B4 i).
  destruct (bufDescTable m1 !! i), (bufDescTable m2 !! i), (bufDescTable m3 !! i);
    try tauto. eauto using same_identity_trans.
Qed.

Lemma scan_rel_modify m i d d' :
  bufDescTable m !! i = Some d → same_identity d d' →
  scan_rel m (with_descs (<[i := d']> (bufDescTable m)) m).
Proof.
  intros Hd Hs. repeat split; auto. simpl_proj. intros j.
  rewrite list_lookup_insert. case_decide as Hc.
  - destruct Hc as [-> _]. now rewrite Hd.
  - destruct (bufDescTable m !! j); auto using same_identity_refl.
Qed.

Lemma scan_rel_delete m k :
  scan_rel m (with_table (delete k (hashTable m)) m).
Proof.
  repeat split; auto; simpl_proj.
  - intros k' x. rewrite lookup_delete_Some. tauto.
  - intros i. destruct (bufDescTable m !! i); auto using same_identity_refl.
Qed.

Lemma scan_rel_hand m h : scan_rel m (with_hand h m).
Proof.
  repeat split; auto; simpl_proj.
  intros i. destruct (bufDescTable m !! i); auto using same_identity_refl.
Qed.

(** Inversion of the primitives. *)
Lemma advanceClock_inv (w : World Disk) r w' :
  advanceClock w = (r, w') →
  (r = Throw UndefinedBehavior ∧ w' = w ∧ numBufs (mgr w) = 0) ∨
  (r = Ok tt ∧ numBufs (mgr w) ≠ 0 ∧
   w' = mkWorld (with_hand (next_hand (mgr w)) (mgr w)) (disk w) (fileCalls w)
                (clockAdvances w + 1)).
Proof.
  unfold advanceClock. destruct (numBufs (mgr w) =? 0) eqn:E; intros [= <- <-].
  - left. apply N.eqb_eq in E. auto.
  - right. apply N.eqb_neq in E. auto.
Qed.

Lemma getDesc_inv i (w : World Disk) r w' :
  getDesc i w = (r, w') →
  w' = w ∧
  ((∃ d, bufDescTable (mgr w) !! N.to_nat i = Some d ∧ r = Ok d) ∨
   (bufDescTable (mgr w) !! N.to_nat i = None ∧ r = Throw UndefinedBehavior)).
Proof.
  unfold getDesc. destruct (bufDescTable (mgr w) !! N.to_nat i); intros [= <- <-]; eauto.
Qed.

Lemma modifyDesc_inv i g (w : World Disk) r w' :
  modifyDesc i g w = (r, w') →
  (∃ d, bufDescTable (mgr w) !! N.to_nat i = Some d ∧ r = Ok tt ∧
        w' = with_mgr (with_descs (<[N.to_nat i := g d]> (bufDescTable (mgr w))) (mgr w)) w) ∨
  (bufDescTable (mgr w) !! N.to_nat i = None ∧ r = Throw UndefinedBehavior ∧ w' = w).
Proof.
  unfold modifyDesc. destruct (bufDescTable (mgr w) !! N.to_nat i); intros [= <- <-]; eauto.
Qed.

Lemma getPage_inv i (w : World Disk) r w' :
  getPage i w = (r, w') →
  w' = w ∧
  ((∃ pg, bufPool (mgr w) !! N.to_nat i = Some pg ∧ r = Ok pg) ∨
   (bufPool (mgr w) !! N.to_nat i = None ∧ r = Throw UndefinedBehavior)).
Proof.
  unfold getPage. destruct (bufPool (mgr w) !! N.to_nat i); intros [= <- <-]; eauto.
Qed.

Lemma hash_remove_inv f p (w : World Disk) r w' :
  hash_remove f p w = (r, w') →
  (∃ fr, hashTable (mgr w) !! (f, p) = Some fr ∧ r = Ok tt ∧
         w' = with_mgr (with_table (delete (f, p) (hashTable (mgr w))) (mgr w)) w) ∨
  (hashTable (mgr w) !! (f, p) = None ∧ r = Throw HashNotFoundException ∧ w' = w).
Proof.
  unfold hash_remove. destruct (hashTable (mgr w) !! (f, p)); intros [= <- <-]; eauto.
Qed.

Lemma modifyDesc_scan i g (w : World Disk) r w' :
  (∀ d, same_identity d (g d)) →
  modifyDesc i g w = (r, w') → scan_rel (mgr w) (mgr w').
Proof.
  intros Hg Hm. apply modifyDesc_inv in Hm as [(d & Hd & _ & ->)|(_ & _ & ->)].
  - simpl_proj. eapply scan_rel_modify; eauto.
  - apply scan_rel_refl.
Qed.

Lemma advanceClock_scan (w : World Disk) r w' :
  advanceClock w = (r, w') → scan_rel (mgr w) (mgr w').
Proof.
  intros Ha. apply advanceClock_inv in Ha as [(_ & -> & _)|(_ & _ & ->)].
  - apply scan_rel_refl.
  - apply scan_rel_hand.
Qed.

Lemma hash_remove_scan f p (w : World Disk) r w' :
  hash_remove f p w = (r, w') → scan_rel (mgr w) (mgr w').
Proof.
  intros Ha. apply hash_remove_inv in Ha as [(x & _ & _ & ->)|(_ & _ & ->)].
  - apply scan_rel_delete.
  - apply scan_rel_refl.
Qed.

Lemma set_refbit_identity b d : same_identity d (set_refbit b d).
Proof. repeat split. Qed.

Lemma set_dirty_identity b d : same_identity d (set_dirty b d).
Proof. repeat split. Qed.

Lemma writeBack_scan h f b (w : World Disk) r w' :
  writeBack h f b w = (r, w') → scan_rel (mgr w) (mgr w').
Proof.
  unfold writeBack. destruct b.
  - intros Hrun.
    apply bind_inv in Hrun as [(? & w1 & Hm & Hrun)|(e & Hm & ->)].
    + apply modifyDesc_scan in Hm; [|apply set_dirty_identity].
      eapply scan_rel_trans; [exact Hm|].
      apply bind_inv in Hrun as [(pg & w2 & Hg & Hrun)|(e & Hg & ->)].
      * apply getPage_inv in Hg as [-> _].
        apply lift_io_inv in Hrun as [-> _]. apply scan_rel_refl.
      * apply getPage_inv in Hg as [-> _]. apply scan_rel_refl.
    + apply modifyDesc_scan in Hm; [exact Hm|apply set_dirty_identity].
  - intros [= <- <-]. apply scan_rel_refl.
Qed.

Lemma allocBuf_loop_scan n : ∀ i (w : World Disk) r w',
  allocBuf_loop n i w = (r, w') → scan_rel (mgr w) (mgr w').
Proof.
  induction n as [|n IH]; intros i w r w' Hrun.
  - cbn in Hrun. injection Hrun as <- <-. apply scan_rel_refl.
  - cbn [allocBuf_loop] in Hrun.
    apply bind_inv in Hrun as [(? & w1 & Ha & Hrun)|(e & Ha & ->)];
      apply advanceClock_scan in Ha; [|exact Ha].
    eapply scan_rel_trans; [exact Ha|]. clear Ha.
    unfold bind at 1 in Hrun. cbn [getHand] in Hrun.
    apply bind_inv in Hrun as [(d & w2 & Hg & Hrun)|(e & Hg & ->)];
      apply getDesc_inv in Hg as [-> Hg]; [|apply scan_rel_refl].
    destruct (negb (valid d)).
    { injection Hrun as <- <-. apply scan_rel_refl. }
    destruct (refbit d).
    { apply bind_inv in Hrun as [(? & w3 & Hm & Hrun)|(e & Hm & ->)];
        apply modifyDesc_scan in Hm; try apply set_refbit_identity; [|exact Hm].
      eapply scan_rel_trans; [exact Hm|]. eapply IH; exact Hrun. }
    destruct (negb (pinCnt d =? 0)).
    { eapply IH; exact Hrun. }
    apply bind_inv in Hrun as [(? & w3 & Hm & Hrun)|(e & Hm & ->)];
      apply hash_remove_scan in Hm; [|exact Hm].
    eapply scan_rel_trans; [exact Hm|].
    fold (writeBack (clockHand (mgr w1)) (file d) (dirty d)) in Hrun.
    apply bind_inv in Hrun as [(? & w4 & Hwb & Hrun)|(e & Hwb & ->)];
      apply writeBack_scan in Hwb; [|exact Hwb].
    injection Hrun as <- <-. exact Hwb.
Qed.

(** When [allocBuf] returns, the frame it returns is the one under the
    hand, and its descriptor has just been cleared. *)
Lemma allocBuf_Ok_inv (w : World Disk) fr w' :
  allocBuf w = (Ok fr, w') →
  ∃ w1 d,
    scan_rel (mgr w) (mgr w1) ∧ fr = clockHand (mgr w1) ∧
    bufDescTable (mgr w1) !! N.to_nat fr = Some d ∧
    w' = with_mgr (with_descs (<[N.to_nat fr := Clear d]> (bufDescTable (mgr w1))) (mgr w1)) w1.
Proof.
  intros Hrun. unfold allocBuf in Hrun.
  unfold bind at 1 in Hrun. cbn [getNumBufs] in Hrun.
  apply bind_inv in Hrun as [(r & w1 & Hloop & Hrun)|(e & _ & [=])].
  apply allocBuf_loop_scan in Hloop.
  destruct (negb (fst r) && (numBufs (mgr w) <=? snd r)); [discriminate Hrun|].
  unfold bind at 1 in Hrun. cbn [getHand] in Hrun.
  apply bind_inv in Hrun as [(? & w2 & Hm & Hrun)|(e & _ & [=])].
  injection Hrun as <- <-.
  apply modifyDesc_inv in Hm as [(d & Hd & _ & ->)|(_ & [=] & _)].
  exists w1, d. auto.
Qed.

Lemma allocBuf_Ok_cleared (w : World Disk) fr w' :
  allocBuf w = (Ok fr, w') →
  (∃ d, bufDescTable (mgr w') !! N.to_nat fr = Some (Clear d)) ∧
  (∀ k x, hashTable (mgr w') !! k = Some x → hashTable (mgr w) !! k = Some x).
Proof.
  intros Hrun. apply allocBuf_Ok_inv in Hrun as (w1 & d & Hs & _ & Hd & ->).
  simpl_proj. split.
  - exists d. apply list_lookup_insert_eq. eapply lookup_lt_Some; eauto.
  - apply Hs.
Qed.

(** ** [readPage] *)

Lemma catch_lookup_None {A} f p (k : FrameId → M A) (handler : M A) (w : World Disk) :
  hashTable (mgr w) !! (f, p) = None →
  catchHashNotFound (fr <- hash_lookup f p ;; k fr) handler w = handler w.
Proof.
  intros Hk. unfold catchHashNotFound.
  now rewrite (bind_Throw _ _ _ _ _ (hash_lookup_None _ _ _ Hk)).
Qed.

(** On a miss [readPage] is its [catch] block. *)
Lemma readPage_miss f p (w : World Disk) :
  hashTable (mgr w) !! (f, p) = None →
  readPage f p w =
  (fr <- allocBuf ;;
   pg <- file_readPage f p ;;
   setPage fr pg ;;
   hash_insert f p fr ;;
   modifyDesc fr (Set_ f p) ;;
   ret fr) w.
Proof. intros Hk. unfold readPage. now rewrite catch_lookup_None. Qed.

(** On a hit [readPage] sets the reference bit, adds a pin and returns the
    frame the table gives. *)
Lemma readPage_hit f p fr d (w : World Disk) :
  hashTable (mgr w) !! (f, p) = Some fr →
  bufDescTable (mgr w) !! N.to_nat fr = Some d →
  readPage f p w =
  (Ok fr,
   with_mgr
     (with_descs
        (<[N.to_nat fr := set_pinCnt (pinCnt d + 1) (set_refbit true d)]>
           (bufDescTable (mgr w)))
        (mgr w)) w).
Proof.
  intros Hk Hd. unfold readPage, catchHashNotFound.
  run (hash_lookup_Ok _ _ _ _ Hk).
  run (modifyDesc_Ok _ (set_refbit true) _ _ Hd).
  pose proof (lookup_lt_Some _ _ _ Hd) as Hlt.
  erewrite bind_Ok by (apply modifyDesc_Ok; simpl_proj; apply list_lookup_insert_eq; exact Hlt).
  cbn [ret]. unfold with_mgr, with_descs. simpl_proj.
  now rewrite list_insert_insert_eq.
Qed.

(** The admission that follows a successful [allocBuf] and
    [file->readPage] or [file->allocatePage]. *)
Lemma admission_run f p fr pg d (w : World Disk) :
  wf (mgr w) →
  bufDescTable (mgr w) !! N.to_nat fr = Some d →
  hashTable (mgr w) !! (f, p) = None →
  (setPage fr pg ;; hash_insert f p fr ;; modifyDesc fr (Set_ f p) ;; ret fr) w =
  (Ok fr,
   with_mgr
     (with_descs (<[N.to_nat fr := Set_ f p d]> (bufDescTable (mgr w)))
        (with_table (<[(f, p) := fr]> (hashTable (mgr w)))
           (with_pool (<[N.to_nat fr := pg]> (bufPool (mgr w))) (mgr w)))) w).
Proof.
  intros Hwf Hd Hk.
  destruct (wf_lookup_pool _ _ Hwf (wf_lookup_lt _ _ _ Hwf Hd)) as [pg0 Hpg].
  run (setPage_Ok _ pg _ _ Hpg).
  erewrite bind_Ok by (apply hash_insert_Ok; simpl_proj; exact Hk).
  erewrite bind_Ok by (apply modifyDesc_Ok; simpl_proj; exact Hd).
  reflexivity.
Qed.

Lemma Inv_admission f p fr pg d m :
  Inv m → bufDescTable m !! N.to_nat fr = Some d → valid d = false →
  hashTable m !! (f, p) = None →
  Inv (with_descs (<[N.to_nat fr := Set_ f p d]> (bufDescTable m))
         (with_table (<[(f, p) := fr]> (hashTable m))
            (with_pool (<[N.to_nat fr := pg]> (bufPool m)) m))).
Proof.
  intros HI Hd Hv Hk.
  assert (HI' : Inv (with_pool (<[N.to_nat fr := pg]> (bufPool m)) m))
    by (apply Inv_pool; [exact HI | apply length_insert]).
  apply (Inv_except_admission fr (with_pool _ m) d (Set_ f p d) (f, p)); auto.
  apply (Inv_invalid_except fr (with_pool _ m) d); auto.
Qed.

Lemma file_exn_no_file_error {A} e : is_FileException e → ¬ no_file_error (@Throw A e).
Proof. intros [c ->]. cbn. tauto. Qed.

Lemma Inv_table_lookup m k fr :
  Inv m → hashTable m !! k = Some fr →
  ∃ d, bufDescTable m !! N.to_nat fr = Some d ∧ valid d = true ∧ (file d, pageNo d) = k.
Proof.
  intros (Hwf & Hr & Hf) Hk.
  destruct (wf_lookup m fr Hwf (Hr _ _ Hk)) as [d Hd].
  exists d. split; [exact Hd|].
  specialize (Hf fr d Hd). unfold frame_ok in Hf. destruct (valid d).
  - split; [reflexivity|]. symmetry. now apply Hf.
  - now apply Hf in Hk.
Qed.

Lemma readPage_Inv f p (w : World Disk) r w' :
  Inv (mgr w) → readPage f p w = (r, w') → no_file_error r → Inv (mgr w').
Proof.
  intros HI Hrun Hr.
  destruct (hashTable (mgr w) !! (f, p)) as [fr|] eqn:Hk.
  - destruct (Inv_table_lookup _ _ _ HI Hk) as (d & Hd & Hv & Hkey).
    rewrite (readPage_hit _ _ _ _ _ Hk Hd) in Hrun. injection Hrun as <- <-.
    simpl_proj. apply (Inv_modify_bits _ _ d); auto.
  - rewrite (readPage_miss _ _ _ Hk) in Hrun.
    apply bind_inv in Hrun as [(fr & w1 & Ha & Hrun)|(e & Ha & ->)].
    + pose proof (allocBuf_post _ _ _ HI Ha) as (Hn & Hsub & HI1 & Hh & Hlt & d & Hd).
      assert (Hk1 : hashTable (mgr w1) !! (f, p) = None).
      { destruct (hashTable (mgr w1) !! (f, p)) as [x|] eqn:E; [|reflexivity].
        apply Hsub in E. congruence. }
      apply bind_inv in Hrun as [(pg & w2 & Hio & Hrun)|(e & Hio & ->)];
        apply lift_io_inv in Hio as [Hw2 Hio].
      * assert (Hm : mgr w2 = mgr w1) by now subst w2.
        rewrite (admission_run f p fr pg (Clear d)) in Hrun;
          [| rewrite Hm; apply HI1 | now rewrite Hm | now rewrite Hm].
        injection Hrun as <- <-. simpl_proj. rewrite Hm.
        apply Inv_admission; auto.
      * destruct Hio as [(? & _ & [=])|(c & _ & [= ->])]. destruct Hr.
    + pose proof (allocBuf_post _ _ _ HI Ha) as (_ & _ & [[_ HI1]|He]); [exact HI1|].
      now apply file_exn_no_file_error in Hr.
Qed.

(** ** [allocPage] *)
Lemma allocPage_Inv f (w : World Disk) r w' :
  Inv (mgr w) → allocPage f w = (r, w') → no_file_error r → Inv (mgr w').
Proof.
  intros HI Hrun Hr. unfold allocPage in Hrun.
  apply bind_inv in Hrun as [(fr & w1 & Ha & Hrun)|(e & Ha & ->)].
  - pose proof (allocBuf_post _ _ _ HI Ha) as (Hn & Hsub & HI1 & Hh & Hlt & d & Hd).
    apply bind_inv in Hrun as [(pg & w2 & Hio & Hrun)|(e & Hio & ->)];
      apply lift_io_inv in Hio as [Hw2 Hio].
    + assert (Hm : mgr w2 = mgr w1) by now subst w2.
      destruct (wf_lookup_pool (mgr w2) fr) as [pg0 Hpg];
        [rewrite Hm; apply HI1 | now rewrite Hm |].
      run_in Hrun (setPage_Ok _ pg _ _ Hpg).
      set (w3 := with_mgr _ w2) in Hrun.
      assert (HI3 : Inv (mgr w3)).
      { subst w3. simpl_proj. rewrite Hm. apply Inv_pool; [exact HI1|apply length_insert]. }
      destruct (hashTable (mgr w3) !! (f, page_number pg)) as [x|] eqn:Hk.
      * unfold bind at 1, hash_insert at 1 in Hrun. rewrite Hk in Hrun.
        injection Hrun as <- <-. exact HI3.
      * run_in Hrun (hash_insert_Ok _ _ fr _ Hk).
        assert (Hd3 : bufDescTable (mgr w3) !! N.to_nat fr = Some (Clear d)).
        { subst w3. simpl_proj. now rewrite Hm. }
        erewrite bind_Ok in Hrun by (apply modifyDesc_Ok; simpl_proj; exact Hd3).
        cbn [ret bind] in Hrun. injection Hrun as <- <-. simpl_proj.
        apply (Inv_except_admission fr (mgr w3) (Clear d) _ (f, page_number pg)); auto.
        apply (Inv_invalid_except fr (mgr w3) (Clear d)); auto.
    + destruct Hio as [(? & _ & [=])|(c & _ & [= ->])]. destruct Hr.
  - pose proof (allocBuf_post _ _ _ HI Ha) as (_ & _ & [[_ HI1]|He]); [exact HI1|].
    now apply file_exn_no_file_error in Hr.
Qed.

(** ** [unPinPage] keeps the invariant, whatever the outcome *)
Lemma unPinPage_Inv f p b (w : World Disk) r w' :
  Inv (mgr w) → unPinPage f p b w = (r, w') → Inv (mgr w').
Proof.
  intros HI Hrun.
  destruct (unPinPage_run w f p b) as [Hnone Hsome].
  destruct (hashTable (mgr w) !! (f, p)) as [fr|] eqn:Hk.
  - destruct (Inv_table_lookup _ _ _ HI Hk) as (d & Hd & Hv & Hkey).
    destruct (Hsome fr d eq_refl Hd) as [H0 H1].
    destruct (N.eq_dec (pinCnt d) 0) as [Hp|Hp].
    + rewrite (H0 Hp) in Hrun. injection Hrun as <- <-. exact HI.
    + rewrite (H1 Hp) in Hrun. injection Hrun as <- <-. simpl_proj.
      apply (Inv_modify_bits _ _ d); auto.
  - rewrite (Hnone eq_refl) in Hrun. injection Hrun as <- <-. exact HI.
Qed.

(** ** [flushFile] *)

(** One iteration on a frame of another file. *)
Lemma flushFile_body_other f i d (w : World Disk) :
  bufDescTable (mgr w) !! N.to_nat i = Some d → file d ≠ f →
  flushFile_body f i w = (Ok tt, w).
Proof.
  intros Hd Hf. unfold flushFile_body. run (getDesc_Ok _ _ _ Hd).
  apply N.eqb_neq in Hf. now rewrite Hf.
Qed.

(** One iteration on a pinned frame of the file. *)
Lemma flushFile_body_pinned f i d (w : World Disk) :
  bufDescTable (mgr w) !! N.to_nat i = Some d →
  file d = f → valid d = true → pinCnt d ≠ 0 →
  flushFile_body f i w = (Throw (PagePinnedException f (pageNo d) (frameNo d)), w).
Proof.
  intros Hd Hf Hv Hp. unfold flushFile_body. run (getDesc_Ok _ _ _ Hd).
  apply N.eqb_eq in Hf. apply N.eqb_neq in Hp. now rewrite Hf, Hv, Hp.
Qed.

(** One iteration on an invalid frame that carries the file. *)
Lemma flushFile_body_bad f i d (w : World Disk) :
  bufDescTable (mgr w) !! N.to_nat i = Some d →
  file d = f → valid d = false →
  flushFile_body f i w =
  (Throw (BadBufferException (frameNo d) (dirty d) (valid d) (refbit d)), w).
Proof.
  intros Hd Hf Hv. unfold flushFile_body. run (getDesc_Ok _ _ _ Hd).
  apply N.eqb_eq in Hf. now rewrite Hf, Hv.
Qed.

(** The write-back of [flushFile]: the page is written first, the dirty bit
    cleared after. *)
Lemma flushFile_write_inv f i d (w : World Disk) r w' :
  wf (mgr w) → bufDescTable (mgr w) !! N.to_nat i = Some d →
  (pg <- getPage i ;; file_writePage f pg ;; modifyDesc i (set_dirty false)) w = (r, w') →
  (r = Ok tt ∧
   mgr w' = with_descs (<[N.to_nat i := set_dirty false d]> (bufDescTable (mgr w))) (mgr w)) ∨
  ((∃ c, r = Throw (FileException c)) ∧ mgr w' = mgr w).
Proof.
  intros Hwf Hd Hrun.
  destruct (wf_lookup_pool _ _ Hwf (wf_lookup_lt _ _ _ Hwf Hd)) as [pg Hpg].
  run_in Hrun (getPage_Ok _ _ _ Hpg).
  apply bind_inv in Hrun as [([] & w1 & Hio & Hrun)|(e & Hio & ->)];
    apply lift_io_inv in Hio as [Hw1 Hio].
  - assert (Hm : mgr w1 = mgr w) by now subst w1.
    erewrite modifyDesc_Ok in Hrun by (rewrite Hm; exact Hd).
    injection Hrun as <- <-. left. simpl_proj. now rewrite Hm.
  - right. destruct Hio as [(? & _ & [=])|(c & _ & ->)]. split; [eauto|now subst w'].
Qed.

(** One iteration on an unpinned frame of the file, from a consistent
    state: unless the write-back fails (and then the manager is as it
    was), the entry is removed and the descriptor cleared. *)
Lemma flushFile_body_flush f i d (w : World Disk) r w' :
  Inv (mgr w) →
  bufDescTable (mgr w) !! N.to_nat i = Some d →
  file d = f → valid d = true → pinCnt d = 0 →
  flushFile_body f i w = (r, w') →
  (r = Ok tt ∧
   mgr w' = with_descs (<[N.to_nat i := Clear d]> (bufDescTable (mgr w)))
              (with_table (delete (f, pageNo d) (hashTable (mgr w))) (mgr w))) ∨
  (dirty d = true ∧ (∃ c, r = Throw (FileException c)) ∧ mgr w' = mgr w).
Proof.
  intros HI Hd Hf Hv Hp Hrun. unfold flushFile_body in Hrun.
  run_in Hrun (getDesc_Ok _ _ _ Hd).
  pose proof Hf as Hf'. apply N.eqb_eq in Hf'. rewrite Hf', Hv, Hp in Hrun.
  cbn [negb andb N.eqb] in Hrun. unfold bind at 1 in Hrun. cbn [ret] in Hrun.
  pose proof HI as (Hwf & Hrange & Hok).
  assert (Hfn : frameNo d = i) by (eapply wf_frameNo; eauto).
  destruct (Inv_remove _ _ _ HI Hd Hv) as [Hk Hex]. rewrite Hf in Hk, Hex.
  apply bind_inv in Hrun as [([] & w1 & Hwb & Hrun)|(e & Hwb & ->)].
  - assert (Hm1 : mgr w1 = (if dirty d
       then with_descs (<[N.to_nat i := set_dirty false d]> (bufDescTable (mgr w))) (mgr w)
       else mgr w)).
    { destruct (dirty d).
      - rewrite Hfn in Hwb.
        apply (flushFile_write_inv _ _ d) in Hwb as [[_ ->]|[[c [=]] _]]; auto.
      - now injection Hwb as <-. }
    assert (Hk1 : hashTable (mgr w1) !! (f, pageNo d) = Some i)
      by (rewrite Hm1; now destruct (dirty d)).
    run_in Hrun (hash_remove_Ok _ _ _ _ Hk1).
    assert (Hd1 : ∃ d1, bufDescTable (mgr w1) !! N.to_nat i = Some d1).
    { rewrite Hm1. destruct (dirty d); simpl_proj; eauto.
      eexists. apply list_lookup_insert_eq. eapply lookup_lt_Some; eauto. }
    destruct Hd1 as [d1 Hd1].
    erewrite modifyDesc_Ok in Hrun by (simpl_proj; exact Hd1).
    injection Hrun as <- <-. left. split; [reflexivity|]. simpl_proj.
    assert (Hc : Clear d1 = Clear d).
    { rewrite Hm1 in Hd1. destruct (dirty d); simpl_proj.
      - rewrite list_lookup_insert_eq in Hd1 by (eapply lookup_lt_Some; eauto).
        now injection Hd1 as <-.
      - congruence. }
    rewrite Hc, Hm1. destruct (dirty d); [|reflexivity].
    unfold with_descs, with_table. simpl_proj. now rewrite list_insert_insert_eq.
  - right. destruct (dirty d).
    + rewrite Hfn in Hwb.
      apply (flushFile_write_inv _ _ d) in Hwb as [[[=] _]|[Hc Hm]]; auto.
    + discriminate Hwb.
Qed.

Lemma Inv_flush m i d :
  Inv m → bufDescTable m !! N.to_nat i = Some d → valid d = true →
  Inv (with_descs (<[N.to_nat i := Clear d]> (bufDescTable m))
         (with_table (delete (file d, pageNo d) (hashTable m)) m)).
Proof.
  intros HI Hd Hv. destruct (Inv_remove _ _ _ HI Hd Hv) as [_ Hex].
  apply (Inv_except_clear i (with_table _ m) d); auto.
Qed.

Lemma flushFile_body_Inv f i (w : World Disk) r w' :
  Inv (mgr w) → i < numBufs (mgr w) → flushFile_body f i w = (r, w') → Inv (mgr w').
Proof.
  intros HI Hlt Hrun.
  destruct (wf_lookup _ _ (proj1 HI) Hlt) as [d Hd].
  destruct (N.eq_dec (file d) f) as [Hf|Hf].
  - destruct (valid d) eqn:Hv.
    + destruct (N.eq_dec (pinCnt d) 0) as [Hp|Hp].
      * destruct (flushFile_body_flush _ _ _ _ _ _ HI Hd Hf Hv Hp Hrun)
          as [[_ ->]|(_ & _ & ->)]; [|exact HI].
        rewrite <- Hf. now apply Inv_flush.
      * rewrite (flushFile_body_pinned _ _ _ _ Hd Hf Hv Hp) in Hrun.
        now injection Hrun as <- <-.
    + rewrite (flushFile_body_bad _ _ _ _ Hd Hf Hv) in Hrun. now injection Hrun as <- <-.
  - rewrite (flushFile_body_other _ _ _ _ Hd Hf) in Hrun. now injection Hrun as <- <-.
Qed.

Lemma Inv_numBufs_flush_body f i (w : World Disk) r w' :
  flushFile_body f i w = (r, w') → numBufs (mgr w') = numBufs (mgr w).
Proof.
  unfold flushFile_body. intros Hrun.
  apply bind_inv in Hrun as [(d & w1 & Hg & Hrun)|(e & Hg & ->)];
    apply getDesc_inv in Hg as [-> _]; [|reflexivity].
  destruct ((file d =? f) && negb (valid d)); [now injection Hrun as <- <-|].
  destruct ((file d =? f) && valid d); [|now injection Hrun as <- <-].
  apply bind_inv in Hrun as [(? & w1 & Hp & Hrun)|(e & Hp & ->)].
  2:{ destruct (negb (pinCnt d =? 0)); inversion Hp; subst; reflexivity. }
  assert (w1 = w) as -> by (destruct (negb (pinCnt d =? 0)); inversion Hp; reflexivity).
  clear Hp.
  assert (Hwb : ∀ r w2,
    (if dirty d
     then pg <- getPage (frameNo d);; file_writePage (file d) pg;; modifyDesc i (set_dirty false)
     else ret ()) w = (r, w2) → numBufs (mgr w2) = numBufs (mgr w)).
  { intros r0 w2. destruct (dirty d); [|now intros [= <- <-]].
    intros H0. apply bind_inv in H0 as [(pg & w3 & Hg & H0)|(e & Hg & ->)];
      apply getPage_inv in Hg as [-> _]; [|reflexivity].
    apply bind_inv in H0 as [(? & w4 & Hio & H0)|(e & Hio & ->)];
      apply lift_io_inv in Hio as [-> _]; [|reflexivity].
    apply modifyDesc_inv in H0 as [(? & _ & _ & ->)|(_ & _ & ->)]; reflexivity. }
  apply bind_inv in Hrun as [(? & w2 & H1 & Hrun)|(e & H1 & ->)];
    apply Hwb in H1; [|exact H1].
  rewrite <- H1.
  apply bind_inv in Hrun as [(? & w3 & H2 & Hrun)|(e & H2 & ->)].
  - apply hash_remove_inv in H2 as [(? & _ & _ & ->)|(_ & [=] & _)].
    apply modifyDesc_inv in Hrun as [(? & _ & _ & ->)|(_ & _ & ->)]; reflexivity.
  - apply hash_remove_inv in H2 as [(? & _ & [=] & _)|(_ & _ & ->)]. reflexivity.
Qed.

Lemma flushFile_loop_Inv f n : ∀ i (w : World Disk) r w',
  Inv (mgr w) → i + N.of_nat n ≤ numBufs (mgr w) →
  flushFile_loop f n i w = (r, w') → Inv (mgr w').
Proof.
  induction n as [|n IH]; intros i w r w' HI Hle Hrun.
  - cbn in Hrun. now injection Hrun as <- <-.
  - cbn [flushFile_loop] in Hrun.
    apply bind_inv in Hrun as [(? & w1 & Hb & Hrun)|(e & Hb & ->)].
    + pose proof (Inv_numBufs_flush_body _ _ _ _ _ Hb) as Hn.
      apply flushFile_body_Inv in Hb; [|exact HI|lia].
      eapply IH; [exact Hb| |exact Hrun]. lia.
    + apply flushFile_body_Inv in Hb; [exact Hb|exact HI|lia].
Qed.

Lemma flushFile_Inv f (w : World Disk) r w' :
  Inv (mgr w) → flushFile f w = (r, w') → Inv (mgr w').
Proof.
  intros HI Hrun. unfold flushFile in Hrun.
  unfold bind at 1 in Hrun. cbn [getNumBufs] in Hrun.
  eapply flushFile_loop_Inv; [exact HI| |exact Hrun]. lia.
Qed.

(** ** [disposePage] *)

Lemma lift_io_eq {A} call (op : Disk → io_result A * Disk) (w : World Disk) :
  lift_io call op w =
  (match fst (op (disk w)) with
   | IoOk a => Ok a
   | IoFail c => Throw (FileException c)
   end,
   mkWorld (mgr w) (snd (op (disk w))) (fileCalls w ++ [call]) (clockAdvances w)).
Proof. unfold lift_io. now destruct (fst (op (disk w))). Qed.

(** A [File] call never throws [HashNotFoundException]: the [catch] does
    not see it. *)
Lemma catch_lift_io {A} call (op : Disk → io_result A * Disk) (handler : M A) (w : World Disk) :
  catchHashNotFound (lift_io call op) handler w = lift_io call op w.
Proof. unfold catchHashNotFound. rewrite lift_io_eq. now destruct (fst (op (disk w))). Qed.

Lemma catch_bind_Ok {A B} (c : M A) (k : A → M B) (handler : M B) (w : World Disk) a w1 :
  c w = (Ok a, w1) →
  catchHashNotFound (x <- c ;; k x) handler w = catchHashNotFound (k a) handler w1.
Proof. intros E. unfold catchHashNotFound. now rewrite (bind_Ok _ _ _ _ _ E). Qed.

Lemma catch_Throw_other {A} (body handler : M A) (w : World Disk) e w1 :
  body w = (Throw e, w1) → e ≠ HashNotFoundException →
  catchHashNotFound body handler w = (Throw e, w1).
Proof.
  intros E Hne. unfold catchHashNotFound. rewrite E. now destruct e.
Qed.

(** Not resident: [disposePage] is the call [file->deletePage(PageNo)]. *)
Lemma disposePage_absent f p (w : World Disk) :
  hashTable (mgr w) !! (f, p) = None →
  disposePage f p w = file_deletePage f p w.
Proof. intros Hk. unfold disposePage. now rewrite catch_lookup_None. Qed.

(** Resident and clean: the frame is cleared, the entry removed, the page
    deleted from the file. *)
Lemma disposePage_clean f p fr d (w : World Disk) :
  hashTable (mgr w) !! (f, p) = Some fr →
  bufDescTable (mgr w) !! N.to_nat fr = Some d →
  dirty d = false →
  disposePage f p w = file_deletePage f p (with_mgr (disposed f p fr d (mgr w)) w).
Proof.
  intros Hk Hd Hdirty. unfold disposePage.
  rewrite (catch_bind_Ok _ _ _ _ _ _ (hash_lookup_Ok _ _ _ _ Hk)).
  rewrite (catch_bind_Ok _ _ _ _ _ _ (getDesc_Ok _ _ _ Hd)).
  rewrite Hdirty.
  erewrite catch_bind_Ok by reflexivity.
  rewrite (catch_bind_Ok _ _ _ _ _ _ (modifyDesc_Ok _ Clear _ _ Hd)).
  erewrite catch_bind_Ok by (eapply hash_remove_Ok; simpl_proj; exact Hk).
  unfold file_deletePage. now rewrite catch_lift_io.
Qed.

(** Resident and dirty, the write-back returns: the same after the page
    has been written. *)
Lemma disposePage_dirty f p fr d pg (w : World Disk) :
  hashTable (mgr w) !! (f, p) = Some fr →
  bufDescTable (mgr w) !! N.to_nat fr = Some d →
  bufPool (mgr w) !! N.to_nat fr = Some pg →
  dirty d = true →
  fst (fs_writePage f pg (disk w)) = IoOk tt →
  disposePage f p w =
  file_deletePage f p
    (mkWorld (disposed f p fr d (mgr w)) (snd (fs_writePage f pg (disk w)))
             (fileCalls w ++ [CallWritePage f pg]) (clockAdvances w)).
Proof.
  intros Hk Hd Hpg Hdirty Hio. unfold disposePage.
  rewrite (catch_bind_Ok _ _ _ _ _ _ (hash_lookup_Ok _ _ _ _ Hk)).
  rewrite (catch_bind_Ok _ _ _ _ _ _ (getDesc_Ok _ _ _ Hd)).
  rewrite Hdirty.
  pose proof (lookup_lt_Some _ _ _ Hd) as Hlt.
  erewrite catch_bind_Ok.
  2:{ run (modifyDesc_Ok _ (set_dirty false) _ _ Hd).
      erewrite bind_Ok by (apply getPage_Ok; simpl_proj; exact Hpg).
      unfold file_writePage. rewrite lift_io_eq. simpl_proj. rewrite Hio. reflexivity. }
  erewrite catch_bind_Ok
    by (apply modifyDesc_Ok; simpl_proj; apply list_lookup_insert_eq; exact Hlt).
  erewrite catch_bind_Ok by (eapply hash_remove_Ok; simpl_proj; exact Hk).
  unfold file_deletePage. rewrite catch_lift_io.
  unfold disposed, with_mgr, with_table, with_descs. simpl_proj.
  now rewrite list_insert_insert_eq.
Qed.

(** Resident and dirty, the write-back fails: the error goes to the
    caller; the dirty bit has been cleared, nothing else was done. *)
Lemma disposePage_dirty_fail f p fr d pg c (w : World Disk) :
  hashTable (mgr w) !! (f, p) = Some fr →
  bufDescTable (mgr w) !! N.to_nat fr = Some d →
  bufPool (mgr w) !! N.to_nat fr = Some pg →
  dirty d = true →
  fst (fs_writePage f pg (disk w)) = IoFail c →
  disposePage f p w =
  (Throw (FileException c),
   mkWorld (with_descs (<[N.to_nat fr := set_dirty false d]> (bufDescTable (mgr w))) (mgr w))
           (snd (fs_writePage f pg (disk w)))
           (fileCalls w ++ [CallWritePage f pg]) (clockAdvances w)).
Proof.
  intros Hk Hd Hpg Hdirty Hio. unfold disposePage.
  rewrite (catch_bind_Ok _ _ _ _ _ _ (hash_lookup_Ok _ _ _ _ Hk)).
  rewrite (catch_bind_Ok _ _ _ _ _ _ (getDesc_Ok _ _ _ Hd)).
  rewrite Hdirty. apply catch_Throw_other; [|discriminate].
  apply bind_Throw.
  run (modifyDesc_Ok _ (set_dirty false) _ _ Hd).
  erewrite bind_Ok by (apply getPage_Ok; simpl_proj; exact Hpg).
  unfold file_writePage. rewrite lift_io_eq. simpl_proj. rewrite Hio. reflexivity.
Qed.

Lemma Inv_disposed f p fr d m :
  Inv m → hashTable m !! (f, p) = Some fr → bufDescTable m !! N.to_nat fr = Some d →
  Inv (disposed f p fr d m).
Proof.
  intros HI Hk Hd.
  destruct (Inv_table_lookup _ _ _ HI Hk) as (d' & Hd' & Hv & Hkey).
  assert (d' = d) as -> by congruence.
  injection Hkey as <- <-. exact (Inv_flush m fr d HI Hd Hv).
Qed.

Lemma disposePage_Inv f p (w : World Disk) r w' :
  Inv (mgr w) → disposePage f p w = (r, w') → Inv (mgr w').
Proof.
  intros HI Hrun.
  destruct (hashTable (mgr w) !! (f, p)) as [fr|] eqn:Hk.
  - destruct (Inv_table_lookup _ _ _ HI Hk) as (d & Hd & Hv & Hkey).
    destruct (wf_lookup_pool _ _ (proj1 HI) (wf_lookup_lt _ _ _ (proj1 HI) Hd)) as [pg Hpg].
    destruct (dirty d) eqn:Hdirty.
    + destruct (fst (fs_writePage f pg (disk w))) as [[]|c] eqn:Hio.
      * rewrite (disposePage_dirty _ _ _ _ _ _ Hk Hd Hpg Hdirty Hio) in Hrun.
        apply lift_io_inv in Hrun as [-> _]. simpl_proj. now apply Inv_disposed.
      * rewrite (disposePage_dirty_fail _ _ _ _ _ _ _ Hk Hd Hpg Hdirty Hio) in Hrun.
        injection Hrun as <- <-. simpl_proj. apply (Inv_modify_bits _ _ d); auto.
    + rewrite (disposePage_clean _ _ _ _ _ Hk Hd Hdirty) in Hrun.
      apply lift_io_inv in Hrun as [-> _]. simpl_proj. now apply Inv_disposed.
  - rewrite (disposePage_absent _ _ _ Hk) in Hrun.
    now apply lift_io_inv in Hrun as [-> _].
Qed.

(** ** The invariant: constructor, operations, histories *)

Lemma Inv_residency m : Inv m → residency m.
Proof.
  intros (Hwf & Hr & Hf). split.
  - intros fr d Hd. specialize (Hf fr d Hd). unfold frame_ok in Hf.
    destruct (valid d); split; auto.
    + discriminate.
    + intros Ho. exfalso. apply (Hf (file d, pageNo d)). now apply Ho.
  - intros fr1 fr2 d1 d2 Hd1 Hd2 Hv1 Hv2 Hkey.
    pose proof (Hf fr1 d1 Hd1) as H1. pose proof (Hf fr2 d2 Hd2) as H2.
    unfold frame_ok in H1, H2. rewrite Hv1 in H1. rewrite Hv2 in H2.
    assert (E1 : hashTable m !! (file d1, pageNo d1) = Some fr1) by now apply H1.
    assert (E2 : hashTable m !! (file d2, pageNo d2) = Some fr2) by now apply H2.
    congruence.
Qed.

Lemma BufMgr_new_lookup bufs fr d :
  bufDescTable (BufMgr_new bufs) !! N.to_nat fr = Some d → d = emptyDesc fr ∧ fr < bufs.
Proof.
  cbn [BufMgr_new bufDescTable]. rewrite list_lookup_fmap.
  destruct (seq 0 (N.to_nat bufs) !! N.to_nat fr) as [j|] eqn:E; [|discriminate].
  apply lookup_seq in E as [-> Hlt]. cbn. intros [= <-].
  rewrite N2Nat.id. split; [reflexivity|lia].
Qed.

(** [BufMgr::BufMgr] sets up a consistent manager. *)
Lemma BufMgr_new_Inv bufs : 0 < bufs < UINT32 - 1 → Inv (BufMgr_new bufs).
Proof.
  intros Hb. split; [|split].
  - constructor.
    + exact Hb.
    + cbn. now rewrite length_fmap, length_seq.
    + cbn. now rewrite length_replicate.
    + cbn [BufMgr_new clockHand numBufs].
      replace (bufs + UINT32 - 1) with (bufs - 1 + 1 * UINT32) by lia.
      rewrite N.Div0.mod_add. rewrite N.mod_small; lia.
    + intros fr d Hd. apply BufMgr_new_lookup in Hd as [-> _]. reflexivity.
  - intros k fr. cbn. now rewrite lookup_empty.
  - intros fr d Hd. apply BufMgr_new_lookup in Hd as [-> _].
    unfold frame_ok. cbn. intros k. now rewrite lookup_empty.
Qed.

(** Every public operation keeps the invariant unless a [File] error
    aborts it. *)
Lemma run_call_Inv (c : Call) (w : World Disk) r w' :
  Inv (mgr w) → run_call c w = (r, w') → no_file_error r → Inv (mgr w').
Proof.
  intros HI Hrun Hr. destruct c as [f p|f|f p b|f|f p]; cbn [run_call] in Hrun.
  - apply bind_inv in Hrun as [(fr & w1 & Hop & Hrun)|(e & Hop & ->)].
    + injection Hrun as <- <-. eapply readPage_Inv; eauto; exact I.
    + eapply readPage_Inv; eauto.
  - apply bind_inv in Hrun as [(fr & w1 & Hop & Hrun)|(e & Hop & ->)].
    + injection Hrun as <- <-. eapply allocPage_Inv; eauto; exact I.
    + eapply allocPage_Inv; eauto.
  - eapply unPinPage_Inv; eauto.
  - eapply flushFile_Inv; eauto.
  - eapply disposePage_Inv; eauto.
Qed.

(** Every public operation ([readPage], [allocPage], [unPinPage],
    [flushFile], [disposePage]) that completes normally from a manager
    satisfying the invariant (as the one the constructor builds does)
    re-establishes it: for every frame, the descriptor is valid iff the
    table has exactly one entry mapping to the frame, the one keyed by the
    descriptor's [(file, pageNo)]; and no [(file, page)] is held by two
    frames.  The hypothesis is needed: an eviction aborted by a [File]
    error leaves a state without it. *)
Theorem operations_keep_residency (c : Call) (w w' : World Disk) :
  Inv (mgr w) → run_call c w = (Ok tt, w') → Inv (mgr w') ∧ residency (mgr w').
Proof.
  intros HI Hrun.
  assert (HI' : Inv (mgr w')) by (eapply run_call_Inv; eauto; exact I).
  split; [exact HI' | now apply Inv_residency].
Qed.

(** The invariant holds after every history of calls on a new manager in
    which no call was aborted by a [File] error. *)
Lemma history_Inv bufs (d0 : Disk) (w : World Disk) :
  0 < bufs < UINT32 - 1 →
  history (newWorld bufs d0) w → Inv (mgr w) ∧ residency (mgr w).
Proof.
  intros Hb Hh.
  assert (HI : Inv (mgr w)).
  { induction Hh as [|w c w' _ IH Hrun|w c e w' _ IH Hrun He].
    - now apply BufMgr_new_Inv.
    - eapply run_call_Inv; eauto; exact I.
    - eapply run_call_Inv; eauto. destruct e; try exact I. apply He. eexists; eauto. }
  split; [exact HI | now apply Inv_residency].
Qed.

(** ** The scan finds an invalid frame *)

Lemma wf_with_hand m h : wf m → h < numBufs m → wf (with_hand h m).
Proof. intros [] Hlt. constructor; simpl_proj; auto. Qed.

Lemma ahead_next m j :
  wf m → 1 ≤ j → (next_hand m + (j - 1)) mod numBufs m = ahead m j.
Proof.
  intros Hwf Hj. rewrite (next_hand_eq _ Hwf). unfold ahead.
  rewrite N.Div0.add_mod_idemp_l. f_equal. lia.
Qed.

Lemma ahead_1 m : wf m → ahead m 1 = next_hand m.
Proof. intros Hwf. now rewrite (next_hand_eq _ Hwf). Qed.

Lemma allocBuf_loop_finds n : ∀ i (w : World Disk) r w',
  wf (mgr w) →
  (∃ j d, 1 ≤ j ≤ N.of_nat n ∧
          bufDescTable (mgr w) !! N.to_nat (ahead (mgr w) j) = Some d ∧ valid d = false) →
  allocBuf_loop n i w = (r, w') → ∀ i', r ≠ Ok (false, i').
Proof.
  induction n as [|n IH]; intros i w r w' Hwf (j & d & Hj & Hd & Hv) Hrun i'.
  - lia.
  - cbn [allocBuf_loop] in Hrun.
    assert (Hn0 : numBufs (mgr w) ≠ 0) by (destruct Hwf; lia).
    run_in Hrun (advanceClock_Ok w Hn0).
    set (w1 := mkWorld _ _ _ _) in Hrun.
    assert (Hwf1 : wf (mgr w1)) by (apply wf_with_hand; [exact Hwf | exact (next_hand_lt _ Hwf)]).
    unfold bind at 1 in Hrun. cbn [getHand] in Hrun.
    change (clockHand (mgr w1)) with (next_hand (mgr w)) in Hrun.
    destruct (wf_lookup (mgr w1) (next_hand (mgr w)) Hwf1 (next_hand_lt _ Hwf)) as [d1 Hd1].
    run_in Hrun (getDesc_Ok _ _ _ Hd1).
    destruct (valid d1) eqn:Hv1; cbn [negb] in Hrun.
    2:{ injection Hrun as <- <-. discriminate. }
    assert (Hj1 : j ≠ 1).
    { intros ->. rewrite (ahead_1 _ Hwf) in Hd.
      change (bufDescTable (mgr w1)) with (bufDescTable (mgr w)) in Hd1. congruence. }
    assert (Hah : ahead (mgr w1) (j - 1) = ahead (mgr w) j).
    { unfold ahead at 1. subst w1. simpl_proj. apply ahead_next; [exact Hwf|lia]. }
    destruct (refbit d1) eqn:Hr1.
    + run_in Hrun (modifyDesc_Ok _ (set_refbit false) _ _ Hd1).
      refine (IH _ _ _ _ _ _ Hrun i').
      * simpl_proj. apply (wf_insert_desc _ _ d1); auto.
      * exists (j - 1), d. split; [lia|]. split; [|exact Hv].
        simpl_proj. unfold ahead. simpl_proj. fold (ahead (mgr w1) (j - 1)). rewrite Hah.
        rewrite list_lookup_insert_ne; [exact Hd|].
        intros Hc. apply N2Nat.inj in Hc. rewrite <- Hc in Hd.
        change (bufDescTable (mgr w1)) with (bufDescTable (mgr w)) in Hd1. congruence.
    + destruct (pinCnt d1 =? 0) eqn:Hp; cbn [negb] in Hrun.
      * apply bind_inv in Hrun as [(? & w2 & _ & Hrun)|(e & _ & ->)]; [|discriminate].
        apply bind_inv in Hrun as [(? & w3 & _ & Hrun)|(e & _ & ->)]; [|discriminate].
        injection Hrun as <- <-. discriminate.
      * refine (IH _ _ _ _ Hwf1 _ Hrun i').
        exists (j - 1), d. split; [lia|]. split; [|exact Hv]. rewrite Hah. exact Hd.
Qed.

(** With an invalid frame in the pool, [allocBuf] from a consistent state
    does not throw [BufferExceededException]. *)
Lemma allocBuf_finds_invalid (w : World Disk) r w' fr d :
  Inv (mgr w) →
  bufDescTable (mgr w) !! N.to_nat fr = Some d → valid d = false →
  allocBuf w = (r, w') → r ≠ Throw BufferExceededException.
Proof.
  intros HI Hd Hv Hrun. pose proof HI as (Hwf & _).
  pose proof (wf_lookup_lt _ _ _ Hwf Hd) as Hfr.
  pose proof Hwf as [Hn _ _ Hh _].
  unfold allocBuf in Hrun. unfold bind at 1 in Hrun. cbn [getNumBufs] in Hrun.
  apply bind_inv in Hrun as [([found i] & w1 & Hloop & Hrun)|(e & Hloop & ->)].
  - destruct found.
    + cbn [fst snd negb andb] in Hrun.
      unfold bind at 1 in Hrun. cbn [getHand] in Hrun.
      apply bind_inv in Hrun as [(? & w2 & _ & Hrun)|(e & Hm & ->)].
      * injection Hrun as <- <-. discriminate.
      * apply modifyDesc_inv in Hm as [(? & _ & [=] & _)|(_ & [= ->] & _)]. discriminate.
    + exfalso. refine (allocBuf_loop_finds _ _ _ _ _ Hwf _ Hloop i eq_refl).
      set (N0 := numBufs (mgr w)) in *. set (h := clockHand (mgr w)) in *.
      exists ((fr + N0 - h - 1) mod N0 + 1), d.
      assert (Hlt : (fr + N0 - h - 1) mod N0 < N0) by (apply N.mod_lt; lia).
      split; [|split; [|exact Hv]].
      { rewrite Nat2N.inj_succ, N2Nat.id. revert Hlt.
        generalize ((fr + N0 - h - 1) mod N0). intros; lia. }
      replace (ahead (mgr w) ((fr + N0 - h - 1) mod N0 + 1)) with fr; [exact Hd|].
      unfold ahead. fold N0 h.
      replace (h + ((fr + N0 - h - 1) mod N0 + 1)) with ((fr + N0 - h - 1) mod N0 + (h + 1))
        by lia.
      rewrite N.Div0.add_mod_idemp_l.
      replace (fr + N0 - h - 1 + (h + 1)) with (fr + 1 * N0) by lia.
      rewrite N.Div0.mod_add. symmetry. apply N.mod_small. exact Hfr.
  - apply allocBuf_loop_post in Hloop as (_ & _ & [c ->]); [discriminate|exact HI].
Qed.

(** [readPage(file, pageNo)] on a hit sets the frame's [refbit], adds
    one to its [pinCnt] and returns the frame the table gives, which (in a
    consistent state) is the valid frame holding the page.  Hence, from a
    consistent state where [(file, pageNo)] is not resident and some frame
    is invalid, a [readPage(file, pageNo)] that returns is followed by a
    second one that returns the same frame, whose [pinCnt] is then 2; with
    an invalid frame the first call cannot fail for lack of frames (only a
    [File] error can abort it).  Pools whose frames are all valid are left
    out here. *)
Theorem readPage_pins (w : World Disk) (f : File) (p : PageId) :
  (∀ fr d,
     hashTable (mgr w) !! (f, p) = Some fr →
     bufDescTable (mgr w) !! N.to_nat fr = Some d →
     readPage f p w =
     (Ok fr,
      with_mgr
        (with_descs
           (<[N.to_nat fr := set_pinCnt (pinCnt d + 1) (set_refbit true d)]>
              (bufDescTable (mgr w)))
           (mgr w)) w)) ∧
  (Inv (mgr w) →
   ∀ fr, hashTable (mgr w) !! (f, p) = Some fr →
     ∃ d, bufDescTable (mgr w) !! N.to_nat fr = Some d ∧
          valid d = true ∧ file d = f ∧ pageNo d = p) ∧
  (Inv (mgr w) →
   hashTable (mgr w) !! (f, p) = None →
   (∃ fr d, bufDescTable (mgr w) !! N.to_nat fr = Some d ∧ valid d = false) →
   ∀ r w1, readPage f p w = (r, w1) →
     (∃ c, r = Throw (FileException c)) ∨
     (∃ fr w2 d2,
        r = Ok fr ∧ readPage f p w1 = (Ok fr, w2) ∧
        bufDescTable (mgr w2) !! N.to_nat fr = Some d2 ∧
        pinCnt d2 = 2 ∧ refbit d2 = true ∧ valid d2 = true ∧
        file d2 = f ∧ pageNo d2 = p)).
Proof.
  split; [|split].
  - intros fr d Hk Hd. now apply readPage_hit.
  - intros HI fr Hk. destruct (Inv_table_lookup _ _ _ HI Hk) as (d & Hd & Hv & [= Hf Hp]).
    exists d. auto.
  - intros HI Hk (fr0 & d0 & Hd0 & Hv0) r w1 Hrun.
    rewrite (readPage_miss _ _ _ Hk) in Hrun.
    apply bind_inv in Hrun as [(fr & wa & Ha & Hrun)|(e & Ha & ->)].
    + pose proof (allocBuf_post _ _ _ HI Ha) as (Hn & Hsub & HI1 & Hh & Hlt & d & Hd).
      assert (Hk1 : hashTable (mgr wa) !! (f, p) = None).
      { destruct (hashTable (mgr wa) !! (f, p)) as [x|] eqn:E; [|reflexivity].
        apply Hsub in E. congruence. }
      apply bind_inv in Hrun as [(pg & wb & Hio & Hrun)|(e & Hio & ->)];
        apply lift_io_inv in Hio as [Hwb Hio].
      * assert (Hm : mgr wb = mgr wa) by now subst wb.
        rewrite (admission_run f p fr pg (Clear d)) in Hrun;
          [| rewrite Hm; apply HI1 | now rewrite Hm | now rewrite Hm].
        injection Hrun as <- <-. right.
        set (w1 := with_mgr _ wb).
        assert (Hk2 : hashTable (mgr w1) !! (f, p) = Some fr)
          by (subst w1; simpl_proj; apply lookup_insert_eq).
        assert (Hlen : (N.to_nat fr < length (bufDescTable (mgr wb)))%nat)
          by (rewrite Hm; eapply lookup_lt_Some; eauto).
        assert (Hd2 : bufDescTable (mgr w1) !! N.to_nat fr = Some (Set_ f p (Clear d)))
          by (subst w1; simpl_proj; now apply list_lookup_insert_eq).
        eexists fr, _, _. split; [reflexivity|].
        split; [exact (readPage_hit _ _ _ _ _ Hk2 Hd2)|].
        simpl_proj. split.
        -- apply list_lookup_insert_eq. subst w1. simpl_proj. now rewrite length_insert.
        -- cbn. auto.
      * left. destruct Hio as [(? & _ & [=])|(c & _ & [= ->])]. eauto.
    + pose proof (allocBuf_finds_invalid _ _ _ _ _ HI Hd0 Hv0 Ha) as Hne.
      pose proof (allocBuf_post _ _ _ HI Ha) as (_ & _ & [[-> _]|[c ->]]); [congruence|eauto].
Qed.

(** ** [readPage] when the file cannot read the page *)

(** C7.  If [file->readPage] raises an I/O error during a [readPage]
    miss, the error propagates to the caller; the frame obtained from
    [allocBuf] is left empty (not valid) and no entry for [(file, pageNo)]
    is in the hash table: the manager is as [allocBuf] left it. *)
Theorem readPage_read_error (w w1 : World Disk) (f : File) (p : PageId) (fr : FrameId) (c : N) :
  hashTable (mgr w) !! (f, p) = None →
  allocBuf w = (Ok fr, w1) →
  fst (fs_readPage f p (disk w1)) = IoFail c →
  readPage f p w =
    (Throw (FileException c),
     mkWorld (mgr w1) (snd (fs_readPage f p (disk w1)))
             (fileCalls w1 ++ [CallReadPage f p]) (clockAdvances w1)) ∧
  (∃ d, bufDescTable (mgr w1) !! N.to_nat fr = Some d ∧ valid d = false) ∧
  hashTable (mgr w1) !! (f, p) = None.
Proof.
  intros Hk Ha Hio. split; [|split].
  - rewrite (readPage_miss _ _ _ Hk). run Ha.
    apply bind_Throw. unfold file_readPage. rewrite lift_io_eq. now rewrite Hio.
  - apply allocBuf_Ok_cleared in Ha as [[d Hd] _]. exists (Clear d). auto.
  - apply allocBuf_Ok_cleared in Ha as [_ Hsub].
    destruct (hashTable (mgr w1) !! (f, p)) as [x|] eqn:E; [|reflexivity].
    apply Hsub in E. congruence.
Qed.

(** ** A full turn of the clock *)

Lemma mod_shift_ne (x y n : N) : 0 < y → y < n → (x + y) mod n ≠ x mod n.
Proof.
  intros Hy Hn. rewrite <- N.Div0.add_mod_idemp_l.
  assert (Hr : x mod n < n) by (apply N.mod_lt; lia).
  revert Hr. generalize (x mod n). intros r Hr.
  destruct (N.lt_ge_cases (r + y) n) as [Hlt|Hge].
  - rewrite N.mod_small by exact Hlt. lia.
  - replace (r + y) with (r + y - n + 1 * n) by lia.
    rewrite N.Div0.mod_add. rewrite N.mod_small by lia. lia.
Qed.

Lemma ahead_inj m a b :
  1 ≤ a → a < b → b ≤ numBufs m → ahead m a ≠ ahead m b.
Proof.
  intros Ha Hab Hb. unfold ahead.
  replace (clockHand m + b) with (clockHand m + a + (b - a)) by lia.
  intros E. symmetry in E. revert E. apply mod_shift_ne; lia.
Qed.

Lemma ahead_0 m : wf m → ahead m 0 = clockHand m.
Proof. intros [_ _ _ Hh _]. unfold ahead. rewrite N.add_0_r. now apply N.mod_small. Qed.

Lemma ahead_full m : wf m → ahead m (numBufs m) = clockHand m.
Proof.
  intros [_ _ _ Hh _]. unfold ahead.
  replace (clockHand m + numBufs m) with (clockHand m + 1 * numBufs m) by lia.
  rewrite N.Div0.mod_add. now apply N.mod_small.
Qed.

Lemma ahead_lt m j : wf m → ahead m j < numBufs m.
Proof. intros [Hn _ _ _ _]. apply N.mod_lt. lia. Qed.

(** While the frames ahead are valid with their reference bit set, the
    loop goes on: [n] iterations clear the [n] bits and move the hand [n]
    frames. *)
Lemma allocBuf_loop_sweep n : ∀ k i (w : World Disk),
  wf (mgr w) → N.of_nat n ≤ numBufs (mgr w) → i + N.of_nat n < UINT32 →
  (∀ j, 1 ≤ j ≤ N.of_nat n →
     ∃ d, bufDescTable (mgr w) !! N.to_nat (ahead (mgr w) j) = Some d ∧
          valid d = true ∧ refbit d = true) →
  ∃ w1,
    allocBuf_loop (n + k) i w = allocBuf_loop k (i + N.of_nat n) w1 ∧
    wf (mgr w1) ∧
    numBufs (mgr w1) = numBufs (mgr w) ∧
    hashTable (mgr w1) = hashTable (mgr w) ∧
    bufPool (mgr w1) = bufPool (mgr w) ∧
    disk w1 = disk w ∧ fileCalls w1 = fileCalls w ∧
    clockHand (mgr w1) = ahead (mgr w) (N.of_nat n) ∧
    clockAdvances w1 = clockAdvances w + N.of_nat n ∧
    (∀ j d, 1 ≤ j ≤ N.of_nat n →
       bufDescTable (mgr w) !! N.to_nat (ahead (mgr w) j) = Some d →
       bufDescTable (mgr w1) !! N.to_nat (ahead (mgr w) j) = Some (set_refbit false d)) ∧
    (∀ fr, (∀ j, 1 ≤ j ≤ N.of_nat n → fr ≠ ahead (mgr w) j) →
       bufDescTable (mgr w1) !! N.to_nat fr = bufDescTable (mgr w) !! N.to_nat fr).
Proof.
  induction n as [|n IH]; intros k i w Hwf Hn Hi Hall.
  - exists w. change (N.of_nat 0) with 0. cbn [Nat.add].
    rewrite N.add_0_r, (ahead_0 _ Hwf).
    split; [reflexivity|]. split; [exact Hwf|].
    do 6 (split; [reflexivity|]). split; [lia|].
    split; [|auto]. intros j d Hj. lia.
  - assert (Hn0 : numBufs (mgr w) ≠ 0) by (destruct Hwf; lia).
    destruct (Hall 1) as (d0 & Hd0 & Hv0 & Hr0); [lia|].
    rewrite (ahead_1 _ Hwf) in Hd0.
    set (wA := mkWorld (with_hand (next_hand (mgr w)) (mgr w)) (disk w) (fileCalls w)
                       (clockAdvances w + 1)).
    set (wB := with_mgr (with_descs (<[N.to_nat (next_hand (mgr w)) := set_refbit false d0]>
                                       (bufDescTable (mgr wA))) (mgr wA)) wA).
    assert (HwfA : wf (mgr wA))
      by (apply wf_with_hand; [exact Hwf | exact (next_hand_lt _ Hwf)]).
    assert (HwfB : wf (mgr wB)) by (apply (wf_insert_desc _ _ d0); auto).
    assert (HaB : ∀ j, 1 ≤ j → ahead (mgr wB) (j - 1) = ahead (mgr w) j).
    { intros j Hj. unfold ahead at 1. subst wB wA. simpl_proj. now apply ahead_next. }
    assert (HaB' : ∀ j, ahead (mgr wB) j = ahead (mgr w) (j + 1)).
    { intros j. rewrite <- (HaB (j + 1)) by lia. f_equal. lia. }
    assert (HdB : ∀ fr, fr ≠ next_hand (mgr w) →
              bufDescTable (mgr wB) !! N.to_nat fr = bufDescTable (mgr w) !! N.to_nat fr).
    { intros fr Hne. subst wB wA. simpl_proj. apply list_lookup_insert_ne.
      intros Hc. apply N2Nat.inj in Hc. congruence. }
    assert (Hne1 : ∀ j, 1 ≤ j ≤ N.of_nat n → ahead (mgr w) (j + 1) ≠ next_hand (mgr w)).
    { intros j Hj. rewrite <- (ahead_1 _ Hwf). intros E. symmetry in E. revert E.
      apply ahead_inj; lia. }
    destruct (IH k (i + 1) wB HwfB) as
      (w1 & Hloop & Hwf1 & E1 & E2 & E3 & E4 & E5 & E6 & E7 & Hvis & Hunch).
    { subst wB wA. simpl_proj. lia. }
    { lia. }
    { intros j Hj. rewrite HaB', HdB by now apply Hne1. apply Hall. lia. }
    exists w1. split; [|split; [exact Hwf1|]].
    { cbn [Nat.add allocBuf_loop].
      run (advanceClock_Ok w Hn0). fold wA.
      unfold bind at 1. cbn [getHand]. change (clockHand (mgr wA)) with (next_hand (mgr w)).
      erewrite bind_Ok by (apply getDesc_Ok; exact Hd0).
      rewrite Hv0, Hr0. cbn [negb].
      erewrite bind_Ok by (apply modifyDesc_Ok; exact Hd0). fold wB.
      rewrite (N.mod_small (i + 1)) by lia.
      rewrite Hloop. f_equal. lia. }
    split; [exact E1|]. split; [exact E2|]. split; [exact E3|].
    split; [exact E4|]. split; [exact E5|].
    split; [rewrite E6, HaB'; f_equal; lia|].
    split; [rewrite E7; subst wB wA; simpl_proj; lia|]. split.
    + intros j d Hj Hd. destruct (N.eq_dec j 1) as [->|Hj1].
      * rewrite (ahead_1 _ Hwf) in *. assert (d = d0) as -> by congruence.
        rewrite Hunch.
        -- subst wB wA. simpl_proj. apply list_lookup_insert_eq.
           eapply lookup_lt_Some; eauto.
        -- intros j Hj'. rewrite HaB'. intros E. symmetry in E. revert E. now apply Hne1.
      * rewrite <- (HaB j) by lia. apply Hvis; [lia|].
        rewrite (HaB j) by lia. rewrite HdB; [exact Hd|].
        replace j with (j - 1 + 1) by lia. apply Hne1. lia.
    + intros fr Hfr. rewrite Hunch.
      * apply HdB. rewrite <- (ahead_1 _ Hwf). apply Hfr. lia.
      * intros j Hj. rewrite HaB'. apply Hfr. lia.
Qed.

Lemma writeBack_advances h f b (w : World Disk) r w' :
  writeBack h f b w = (r, w') → clockAdvances w' = clockAdvances w.
Proof.
  unfold writeBack. destruct b; [|now intros [= <- <-]].
  intros Hrun.
  apply bind_inv in Hrun as [(? & w1 & Hm & Hrun)|(e & Hm & ->)];
    apply modifyDesc_inv in Hm as [(? & _ & _ & ->)|(_ & _ & ->)]; try reflexivity.
  - apply bind_inv in Hrun as [(? & w2 & Hg & Hrun)|(e & Hg & ->)];
      apply getPage_inv in Hg as [-> _]; [|reflexivity].
    now apply lift_io_inv in Hrun as [-> _].
  - apply bind_inv in Hrun as [(? & w2 & Hg & Hrun)|(e & Hg & ->)];
      apply getPage_inv in Hg as [-> _]; [|reflexivity].
    now apply lift_io_inv in Hrun as [-> _].
Qed.

(** C8.  The clock hand is initialized to [N - 1] by the constructor, so
    that the first advance yields frame 0.  From a (consistent) state in
    which all [N] frames are valid, unpinned and have [refbit = true], one
    victim selection by [allocBuf] performs exactly [N + 1] clock-hand
    advances: the hand ends on the frame next to where it started, which
    is the frame selected (and returned, unless the write-back of that
    frame, if dirty, is aborted by a [File] error). *)
Theorem clock_full_turn :
  (∀ bufs (d0 : Disk), 0 < bufs < UINT32 →
     clockHand (BufMgr_new bufs) = bufs - 1 ∧
     ∃ w', advanceClock (mkWorld (BufMgr_new bufs) d0 [] 0) = (Ok tt, w') ∧
           clockHand (mgr w') = 0) ∧
  (∀ w : World Disk,
     Inv (mgr w) →
     (∀ fr d, bufDescTable (mgr w) !! N.to_nat fr = Some d →
              valid d = true ∧ pinCnt d = 0 ∧ refbit d = true) →
     ∃ r w',
       allocBuf w = (r, w') ∧
       clockAdvances w' = clockAdvances w + (numBufs (mgr w) + 1) ∧
       clockHand (mgr w') = next_hand (mgr w) ∧
       (r = Ok (next_hand (mgr w)) ∨ ∃ c, r = Throw (FileException c)) ∧
       (∀ d, bufDescTable (mgr w) !! N.to_nat (next_hand (mgr w)) = Some d →
             dirty d = false → r = Ok (next_hand (mgr w)))).
Proof.
  split.
  - intros bufs d0 Hb.
    assert (Hh : clockHand (BufMgr_new bufs) = bufs - 1).
    { cbn [BufMgr_new clockHand].
      replace (bufs + UINT32 - 1) with (bufs - 1 + 1 * UINT32) by lia.
      rewrite N.Div0.mod_add. apply N.mod_small. lia. }
    split; [exact Hh|].
    eexists. split.
    + apply advanceClock_Ok. cbn. lia.
    + cbn [mgr with_hand clockHand]. unfold next_hand. rewrite Hh.
      cbn [BufMgr_new numBufs].
      replace (bufs - 1 + 1) with bufs by lia.
      rewrite (N.mod_small bufs) by lia. apply N.Div0.mod_same.
  - intros w HI Hall. pose proof HI as (Hwf & Hrange & Hok).
    pose proof Hwf as [Hn Hlen _ Hh _].
    destruct (allocBuf_loop_sweep (N.to_nat (numBufs (mgr w))) 1%nat 0 w Hwf) as
      (w1 & Hloop & Hwf1 & E1 & E2 & E3 & E4 & E5 & E6 & E7 & Hvis & _).
    { rewrite N2Nat.id. lia. }
    { rewrite N2Nat.id. lia. }
    { intros j Hj.
      destruct (wf_lookup _ _ Hwf (ahead_lt (mgr w) j Hwf)) as [d Hd].
      exists d. split; [exact Hd|]. destruct (Hall _ _ Hd) as (? & ? & ?). auto. }
    rewrite N2Nat.id in *.
    rewrite (ahead_full _ Hwf) in E6.
    assert (Hnh : next_hand (mgr w1) = next_hand (mgr w))
      by (unfold next_hand; now rewrite E6, E1).
    destruct (wf_lookup _ _ Hwf (next_hand_lt _ Hwf)) as [d Hd].
    destruct (Hall _ _ Hd) as (Hv & Hp & Hr).
    assert (Hd1 : bufDescTable (mgr w1) !! N.to_nat (next_hand (mgr w))
                  = Some (set_refbit false d)).
    { rewrite <- (ahead_1 _ Hwf). apply Hvis; [lia|]. now rewrite (ahead_1 _ Hwf). }
    destruct (Inv_remove _ _ _ HI Hd Hv) as [Hk _].
    assert (Hn0 : numBufs (mgr w1) ≠ 0) by (rewrite E1; lia).
    (* the last iteration *)
    set (wA := mkWorld (with_hand (next_hand (mgr w1)) (mgr w1)) (disk w1) (fileCalls w1)
                       (clockAdvances w1 + 1)).
    set (wB := with_mgr (with_table (delete (file d, pageNo d) (hashTable (mgr wA))) (mgr wA)) wA).
    assert (HwfB : wf (mgr wB)).
    { destruct Hwf1. constructor; subst wB wA; simpl_proj; auto.
      rewrite Hnh, E1. exact (next_hand_lt _ Hwf). }
    assert (HdB : bufDescTable (mgr wB) !! N.to_nat (next_hand (mgr w))
                  = Some (set_refbit false d)) by exact Hd1.
    destruct (writeBack (next_hand (mgr w)) (file d) (dirty d) wB) as [rb wC] eqn:Hwb.
    pose proof (writeBack_advances _ _ _ _ _ _ Hwb) as HadvC.
    pose proof (writeBack_inv _ _ (set_refbit false d) _ _ _ HwfB HdB Hwb) as [HmC HrC].
    assert (Hlast : allocBuf_loop 1 (0 + numBufs (mgr w)) w1 =
                    match rb with
                    | Ok _ => (Ok (true, 0 + numBufs (mgr w)), wC)
                    | Throw e => (Throw e, wC)
                    end).
    { cbn [allocBuf_loop].
      run (advanceClock_Ok w1 Hn0). fold wA.
      unfold bind at 1. cbn [getHand].
      change (clockHand (mgr wA)) with (next_hand (mgr w1)). rewrite Hnh.
      erewrite bind_Ok by (apply getDesc_Ok; exact Hd1).
      cbn [valid refbit pinCnt set_refbit file pageNo dirty]. rewrite Hv, Hp.
      cbn [negb N.eqb].
      erewrite bind_Ok by (eapply hash_remove_Ok; subst wA; simpl_proj; rewrite E2; exact Hk).
      fold wB. fold (writeBack (next_hand (mgr w)) (file d) (dirty d)).
      unfold bind at 1. rewrite Hwb. now destruct rb. }
    assert (HhC : clockHand (mgr wC) = next_hand (mgr w)).
    { rewrite HmC. cbn [dirty set_refbit]. destruct (dirty d); subst wB wA; simpl_proj; exact Hnh. }
    assert (HaC : clockAdvances wC = clockAdvances w + (numBufs (mgr w) + 1)).
    { rewrite HadvC. subst wB wA. simpl_proj. rewrite E7. lia. }
    unfold allocBuf. unfold bind at 1. cbn [getNumBufs].
    replace (S (N.to_nat (numBufs (mgr w)))) with (N.to_nat (numBufs (mgr w)) + 1)%nat by lia.
    destruct HrC as [->|[c ->]].
    + assert (HdC : ∃ dC, bufDescTable (mgr wC) !! N.to_nat (next_hand (mgr w)) = Some dC).
      { rewrite HmC. cbn [dirty set_refbit]. destruct (dirty d); simpl_proj; eauto.
        eexists. apply list_lookup_insert_eq. eapply lookup_lt_Some; eauto. }
      destruct HdC as [dC HdC].
      eexists (Ok (next_hand (mgr w))), _. split.
      * unfold bind at 1. rewrite Hloop, Hlast. cbn [fst snd negb andb].
        unfold bind at 1. cbn [getHand]. rewrite HhC.
        erewrite bind_Ok by (apply modifyDesc_Ok; exact HdC). reflexivity.
      * simpl_proj. auto.
    + eexists (Throw (FileException c)), wC. split.
      * unfold bind at 1. now rewrite Hloop, Hlast.
      * split; [exact HaC|]. split; [exact HhC|]. split; [eauto|].
        intros d' Hd' Hdirty. assert (d' = d) as -> by congruence.
        unfold writeBack in Hwb. rewrite Hdirty in Hwb. discriminate Hwb.
Qed.

(** ** What [flushFile] leaves alone *)

Lemma flush_rel_refl S m : flush_rel S m m.
Proof. repeat split; auto. Qed.

Lemma flush_rel_trans S m1 m2 m3 : flush_rel S m1 m2 → flush_rel S m2 m3 → flush_rel S m1 m3.
Proof.
  intros (A1 & A2 & A3) (B1 & B2 & B3). split; [congruence|]. split; [auto|].
  intros j Hj. now rewrite B3, A3.
Qed.

Lemma flush_rel_mono (S S' : nat → Prop) m m' :
  (∀ j, S j → S' j) → flush_rel S m m' → flush_rel S' m m'.
Proof. intros HS (A1 & A2 & A3). repeat split; auto. Qed.

Lemma modifyDesc_flush_rel i g (w : World Disk) r w' :
  modifyDesc i g w = (r, w') → flush_rel (eq (N.to_nat i)) (mgr w) (mgr w').
Proof.
  intros Hm. apply modifyDesc_inv in Hm as [(d & Hd & _ & ->)|(_ & _ & ->)].
  - repeat split; auto. simpl_proj. intros j Hj. now apply list_lookup_insert_ne.
  - apply flush_rel_refl.
Qed.

Lemma hash_remove_flush_rel S f p (w : World Disk) r w' :
  hash_remove f p w = (r, w') → flush_rel S (mgr w) (mgr w').
Proof.
  intros Ha. apply hash_remove_inv in Ha as [(x & _ & _ & ->)|(_ & _ & ->)].
  - repeat split; auto. simpl_proj. intros k y. rewrite lookup_delete_Some. tauto.
  - apply flush_rel_refl.
Qed.

Lemma flushFile_body_rel f i (w : World Disk) r w' :
  flushFile_body f i w = (r, w') → flush_rel (eq (N.to_nat i)) (mgr w) (mgr w').
Proof.
  unfold flushFile_body. intros Hrun.
  apply bind_inv in Hrun as [(d & w1 & Hg & Hrun)|(e & Hg & ->)];
    apply getDesc_inv in Hg as [-> _]; [|apply flush_rel_refl].
  destruct ((file d =? f) && negb (valid d)); [injection Hrun as <- <-; apply flush_rel_refl|].
  destruct ((file d =? f) && valid d); [|injection Hrun as <- <-; apply flush_rel_refl].
  apply bind_inv in Hrun as [(? & w1 & Hp & Hrun)|(e & Hp & ->)].
  2:{ destruct (negb (pinCnt d =? 0)); inversion Hp; subst; apply flush_rel_refl. }
  assert (w1 = w) as -> by (destruct (negb (pinCnt d =? 0)); inversion Hp; reflexivity).
  clear Hp.
  assert (Hwb : ∀ r w2,
    (if dirty d
     then pg <- getPage (frameNo d);; file_writePage (file d) pg;; modifyDesc i (set_dirty false)
     else ret ()) w = (r, w2) → flush_rel (eq (N.to_nat i)) (mgr w) (mgr w2)).
  { intros r0 w2. destruct (dirty d); [|intros [= <- <-]; apply flush_rel_refl].
    intros H0. apply bind_inv in H0 as [(pg & w3 & Hg & H0)|(e & Hg & ->)];
      apply getPage_inv in Hg as [-> _]; [|apply flush_rel_refl].
    apply bind_inv in H0 as [(? & w4 & Hio & H0)|(e & Hio & ->)];
      apply lift_io_inv in Hio as [-> _]; [|apply flush_rel_refl].
    apply modifyDesc_flush_rel in H0. exact H0. }
  apply bind_inv in Hrun as [(? & w2 & H1 & Hrun)|(e & H1 & ->)];
    apply Hwb in H1; [|exact H1].
  eapply flush_rel_trans; [exact H1|].
  apply bind_inv in Hrun as [(? & w3 & H2 & Hrun)|(e & H2 & ->)];
    apply (hash_remove_flush_rel (eq (N.to_nat i))) in H2; [|exact H2].
  eapply flush_rel_trans; [exact H2|].
  apply modifyDesc_flush_rel in Hrun. exact Hrun.
Qed.

Lemma flushFile_loop_rel f n : ∀ i (w : World Disk) r w',
  flushFile_loop f n i w = (r, w') →
  flush_rel (fun j => N.to_nat i ≤ j < N.to_nat i + n)%nat (mgr w) (mgr w').
Proof.
  induction n as [|n IH]; intros i w r w' Hrun.
  - cbn in Hrun. injection Hrun as <- <-. apply flush_rel_refl.
  - cbn [flushFile_loop] in Hrun.
    apply bind_inv in Hrun as [(? & w1 & Hb & Hrun)|(e & Hb & ->)];
      apply flushFile_body_rel in Hb.
    + eapply flush_rel_trans.
      * eapply flush_rel_mono; [|exact Hb]. intros j <-. lia.
      * eapply flush_rel_mono; [|eapply IH; exact Hrun]. intros j. cbn beta. lia.
    + eapply flush_rel_mono; [|exact Hb]. intros j <-. lia.
Qed.

(** The loop in two parts. *)
Lemma bind_assoc {A B C} (c : M A) (k : A → M B) (k' : B → M C) (w : World Disk) :
  bind (bind c k) k' w = bind c (fun a => bind (k a) k') w.
Proof. unfold bind. destruct (c w) as [[a|e] w1]; reflexivity. Qed.

Lemma bind_ext {A B} (c : M A) (k k' : A → M B) (w : World Disk) :
  (∀ a w1, k a w1 = k' a w1) → bind c k w = bind c k' w.
Proof. intros E. unfold bind. destruct (c w) as [[a|e] w1]; auto. Qed.

Lemma flushFile_loop_app f a : ∀ b i (w : World Disk),
  flushFile_loop f (a + b) i w =
  (flushFile_loop f a i ;; flushFile_loop f b (i + N.of_nat a)) w.
Proof.
  induction a as [|a IH]; intros b i w.
  - cbn. now rewrite N.add_0_r.
  - cbn [Nat.add flushFile_loop]. rewrite bind_assoc. apply bind_ext.
    intros _ w1. rewrite IH.
    replace (i + N.of_nat (S a)) with (i + 1 + N.of_nat a) by lia. reflexivity.
Qed.

(** After the loop has gone through frames [i .. i + n - 1] without
    exception, those of them that carried the file are cleared and their
    pages have no entry. *)
Lemma flushFile_loop_flushed f n : ∀ i (w : World Disk) w',
  Inv (mgr w) → i + N.of_nat n ≤ numBufs (mgr w) →
  flushFile_loop f n i w = (Ok tt, w') →
  ∀ j dj, i ≤ j < i + N.of_nat n →
    bufDescTable (mgr w) !! N.to_nat j = Some dj → file dj = f →
    bufDescTable (mgr w') !! N.to_nat j = Some (Clear dj) ∧
    hashTable (mgr w') !! (f, pageNo dj) = None.
Proof.
  induction n as [|n IH]; intros i w w' HI Hle Hrun j dj Hj Hd Hf.
  - lia.
  - cbn [flushFile_loop] in Hrun.
    apply bind_inv in Hrun as [([] & w1 & Hb & Hrun)|(e & _ & [=])].
    pose proof (flushFile_body_rel _ _ _ _ _ Hb) as (Hn1 & Hsub1 & Hun1).
    pose proof (flushFile_loop_rel _ _ _ _ _ _ Hrun) as (Hn2 & Hsub2 & Hun2).
    assert (HI1 : Inv (mgr w1)) by (eapply flushFile_body_Inv; eauto; lia).
    destruct (N.eq_dec j i) as [->|Hne].
    + (* the frame of this iteration *)
      destruct (valid dj) eqn:Hv.
      * destruct (N.eq_dec (pinCnt dj) 0) as [Hp|Hp].
        -- destruct (flushFile_body_flush _ _ _ _ _ _ HI Hd Hf Hv Hp Hb)
             as [[_ Hm1]|(_ & [c [=]] & _)].
           split.
           ++ rewrite Hun2 by lia. rewrite Hm1. simpl_proj.
              apply list_lookup_insert_eq. eapply lookup_lt_Some; eauto.
           ++ destruct (hashTable (mgr w') !! (f, pageNo dj)) as [x|] eqn:E; [|reflexivity].
              apply Hsub2 in E. rewrite Hm1 in E. simpl_proj.
              now rewrite lookup_delete_eq in E.
        -- rewrite (flushFile_body_pinned _ _ _ _ Hd Hf Hv Hp) in Hb. discriminate Hb.
      * rewrite (flushFile_body_bad _ _ _ _ Hd Hf Hv) in Hb. discriminate Hb.
    + (* a later frame *)
      apply (IH (i + 1) w1 w' HI1); auto; try lia.
      rewrite Hun1; [exact Hd|]. intros Hc. apply N2Nat.inj in Hc. congruence.
Qed.

(** The scan of [flushFile] stops at a pinned frame of the file: frames
    from there on are as they were. *)
Lemma flushFile_pinned_run f i d (w w1 : World Disk) :
  Inv (mgr w) →
  bufDescTable (mgr w) !! N.to_nat i = Some d →
  file d = f → valid d = true → pinCnt d ≠ 0 →
  flushFile_loop f (N.to_nat i) 0 w = (Ok tt, w1) →
  flushFile f w = (Throw (PagePinnedException f (pageNo d) i), w1) ∧
  Inv (mgr w1) ∧
  (∀ j, i ≤ j → bufDescTable (mgr w1) !! N.to_nat j = bufDescTable (mgr w) !! N.to_nat j).
Proof.
  intros HI Hd Hf Hv Hp Hpre. pose proof HI as (Hwf & _).
  pose proof (wf_lookup_lt _ _ _ Hwf Hd) as Hlt.
  pose proof (flushFile_loop_rel _ _ _ _ _ _ Hpre) as (Hn1 & Hsub1 & Hun1).
  assert (Hun : ∀ j, i ≤ j →
            bufDescTable (mgr w1) !! N.to_nat j = bufDescTable (mgr w) !! N.to_nat j).
  { intros j Hj. apply Hun1. lia. }
  assert (HI1 : Inv (mgr w1)) by (eapply flushFile_loop_Inv; [exact HI| |exact Hpre]; lia).
  split; [|split; [exact HI1|exact Hun]].
  unfold flushFile. unfold bind at 1. cbn [getNumBufs].
  replace (N.to_nat (numBufs (mgr w)))
    with (N.to_nat i + S (N.to_nat (numBufs (mgr w) - i - 1)))%nat by lia.
  rewrite flushFile_loop_app. run Hpre.
  cbn [flushFile_loop]. rewrite N.add_0_l, N2Nat.id.
  apply bind_Throw.
  assert (Hd1 : bufDescTable (mgr w1) !! N.to_nat i = Some d) by (rewrite Hun; [exact Hd|lia]).
  rewrite (flushFile_body_pinned _ _ _ _ Hd1 Hf Hv Hp).
  now rewrite (wf_frameNo _ Hwf _ _ Hd).
Qed.


(** ** [allocPage] then [disposePage] *)

Lemma setPage_inv i pg (w : World Disk) r w' :
  setPage i pg w = (r, w') →
  (r = Ok tt ∧
   w' = with_mgr (with_pool (<[N.to_nat i := pg]> (bufPool (mgr w))) (mgr w)) w) ∨
  (r = Throw UndefinedBehavior ∧ w' = w).
Proof.
  unfold setPage. destruct (bufPool (mgr w) !! N.to_nat i); intros [= <- <-]; auto.
Qed.

Lemma hash_insert_inv f p fr (w : World Disk) r w' :
  hash_insert f p fr w = (r, w') →
  (hashTable (mgr w) !! (f, p) = None ∧ r = Ok tt ∧
   w' = with_mgr (with_table (<[(f, p) := fr]> (hashTable (mgr w))) (mgr w)) w) ∨
  (r = Throw HashAlreadyPresentException ∧ w' = w).
Proof.
  unfold hash_insert. destruct (hashTable (mgr w) !! (f, p)); intros [= <- <-]; auto.
Qed.

(** When [allocPage] returns, the new page is in the table and its frame
    has just been [Set]. *)
Lemma allocPage_Ok_inv f p fr (w w1 : World Disk) :
  allocPage f w = (Ok (p, fr), w1) →
  hashTable (mgr w1) !! (f, p) = Some fr ∧
  ∃ d, bufDescTable (mgr w1) !! N.to_nat fr = Some (Set_ f p d).
Proof.
  unfold allocPage. intros Hrun.
  apply bind_inv in Hrun as [(fr0 & wa & _ & Hrun)|(e & _ & [=])].
  apply bind_inv in Hrun as [(pg & wb & _ & Hrun)|(e & _ & [=])].
  apply bind_inv in Hrun as [(? & wc & _ & Hrun)|(e & _ & [=])].
  apply bind_inv in Hrun as [(? & wd & Hi & Hrun)|(e & _ & [=])].
  apply bind_inv in Hrun as [(? & we & Hm & Hrun)|(e & _ & [=])].
  injection Hrun as <- <- <-.
  apply hash_insert_inv in Hi as [(_ & _ & ->)|([=] & _)].
  apply modifyDesc_inv in Hm as [(d & Hd & _ & ->)|(_ & [=] & _)].
  simpl_proj. split.
  - apply lookup_insert_eq.
  - exists d. apply list_lookup_insert_eq. eapply lookup_lt_Some; eauto.
Qed.

Lemma file_deletePage_inv f p (w : World Disk) r w' :
  file_deletePage f p w = (r, w') →
  mgr w' = mgr w ∧ fileCalls w' = fileCalls w ++ [CallDeletePage f p].
Proof. intros Hrun. now apply lift_io_inv in Hrun as [-> _]. Qed.

(** C9 (as amended).  [disposePage(file, pageNo)] calls
    [file->deletePage(pageNo)] whether or not the page is resident, provided
    the write-back of a resident dirty page, which comes first, returns (the
    outcome of [disposePage] is then the outcome of that call); when the
    page is resident, the entry of [(file, pageNo)] has been removed from the
    hash table and the descriptor cleared before.  So [allocPage] followed
    by [disposePage] of the page it returned leaves nothing of that page in
    the pool: no table entry, the frame cleared, no valid descriptor naming
    the page. *)
Theorem disposePage_deletes (w : World Disk) (f : File) (p : PageId) :
  (hashTable (mgr w) !! (f, p) = None →
   ∃ r w', disposePage f p w = (r, w') ∧ file_deletePage f p w = (r, w') ∧
           mgr w' = mgr w ∧ fileCalls w' = fileCalls w ++ [CallDeletePage f p]) ∧
  (∀ fr d pg,
     hashTable (mgr w) !! (f, p) = Some fr →
     bufDescTable (mgr w) !! N.to_nat fr = Some d →
     bufPool (mgr w) !! N.to_nat fr = Some pg →
     (dirty d = true → fst (fs_writePage f pg (disk w)) = IoOk tt) →
     ∃ r w', disposePage f p w = (r, w') ∧
       mgr w' = disposed f p fr d (mgr w) ∧
       hashTable (mgr w') !! (f, p) = None ∧
       bufDescTable (mgr w') !! N.to_nat fr = Some (Clear d) ∧
       fileCalls w' =
         fileCalls w ++ (if dirty d then [CallWritePage f pg] else []) ++ [CallDeletePage f p]) ∧
  (∀ fr w1,
     Inv (mgr w) → allocPage f w = (Ok (p, fr), w1) →
     ∃ r w2, disposePage f p w1 = (r, w2) ∧
       fileCalls w2 = fileCalls w1 ++ [CallDeletePage f p] ∧
       hashTable (mgr w2) !! (f, p) = None ∧
       (∃ d, bufDescTable (mgr w2) !! N.to_nat fr = Some (Clear d)) ∧
       (∀ fr' d', bufDescTable (mgr w2) !! N.to_nat fr' = Some d' → valid d' = true →
                  (file d', pageNo d') ≠ (f, p))).
Proof.
  split; [|split].
  - intros Hk. destruct (file_deletePage f p w) as [r w'] eqn:Hdel.
    exists r, w'. rewrite (disposePage_absent _ _ _ Hk).
    apply file_deletePage_inv in Hdel as Hw. tauto.
  - intros fr d pg Hk Hd Hpg Hio.
    assert (Hdisp : hashTable (disposed f p fr d (mgr w)) !! (f, p) = None ∧
                    bufDescTable (disposed f p fr d (mgr w)) !! N.to_nat fr = Some (Clear d)).
    { unfold disposed. simpl_proj. split; [apply lookup_delete_eq|].
      apply list_lookup_insert_eq. eapply lookup_lt_Some; eauto. }
    destruct (dirty d) eqn:Hdirty.
    + rewrite (disposePage_dirty _ _ _ _ _ _ Hk Hd Hpg Hdirty (Hio eq_refl)).
      match goal with |- context [file_deletePage f p ?wm] =>
        destruct (file_deletePage f p wm) as [r w'] eqn:Hdel end.
      exists r, w'. apply file_deletePage_inv in Hdel as [Hm Hc]. rewrite Hm, Hc.
      simpl_proj. rewrite <- app_assoc. tauto.
    + rewrite (disposePage_clean _ _ _ _ _ Hk Hd Hdirty).
      match goal with |- context [file_deletePage f p ?wm] =>
        destruct (file_deletePage f p wm) as [r w'] eqn:Hdel end.
      exists r, w'. apply file_deletePage_inv in Hdel as [Hm Hc]. rewrite Hm, Hc.
      simpl_proj. tauto.
  - intros fr w1 HI Ha.
    assert (HI1 : Inv (mgr w1)).
    { apply (run_call_Inv (CAllocPage f) w (Ok tt) w1 HI); [|exact I].
      cbn [run_call]. now rewrite (bind_Ok _ _ _ _ _ Ha). }
    apply allocPage_Ok_inv in Ha as (Hk & d & Hd).
    rewrite (disposePage_clean _ _ _ _ _ Hk Hd eq_refl).
    match goal with |- context [file_deletePage f p ?wm] =>
      destruct (file_deletePage f p wm) as [r w2] eqn:Hdel end.
    exists r, w2. apply file_deletePage_inv in Hdel as [Hm Hc]. rewrite Hm, Hc.
    simpl_proj. split; [reflexivity|]. split; [reflexivity|].
    assert (HI2 : Inv (disposed f p fr (Set_ f p d) (mgr w1))) by now apply Inv_disposed.
    assert (Hnone : hashTable (disposed f p fr (Set_ f p d) (mgr w1)) !! (f, p) = None)
      by (unfold disposed; simpl_proj; apply lookup_delete_eq).
    split; [exact Hnone|]. split.
    + exists (Set_ f p d). unfold disposed. simpl_proj.
      apply list_lookup_insert_eq. eapply lookup_lt_Some; eauto.
    + intros fr' d' Hd' Hv' Hkey.
      destruct (Inv_remove _ _ _ HI2 Hd' Hv') as [Hk' _]. rewrite Hkey in Hk'. congruence.
Qed.

(** C10.  [disposePage] does not look at the pin count: when
    [(file, pageNo)] is resident in a frame with [pinCnt > 0] (and the
    [File] calls return), it returns without exception, having written the
    page back if dirty, cleared the descriptor (so that the pins are gone),
    removed the entry and called [file->deletePage]. *)
Theorem disposePage_ignores_pins (w : World Disk) (f : File) (p : PageId)
    (fr : FrameId) (d : BufDesc) (pg : Page) :
  hashTable (mgr w) !! (f, p) = Some fr →
  bufDescTable (mgr w) !! N.to_nat fr = Some d →
  bufPool (mgr w) !! N.to_nat fr = Some pg →
  0 < pinCnt d →
  (dirty d = true → fst (fs_writePage f pg (disk w)) = IoOk tt) →
  fst (fs_deletePage f p (if dirty d then snd (fs_writePage f pg (disk w)) else disk w))
    = IoOk tt →
  disposePage f p w =
    (Ok tt,
     mkWorld (disposed f p fr d (mgr w))
       (snd (fs_deletePage f p (if dirty d then snd (fs_writePage f pg (disk w)) else disk w)))
       (fileCalls w ++ (if dirty d then [CallWritePage f pg] else []) ++ [CallDeletePage f p])
       (clockAdvances w)) ∧
  bufDescTable (disposed f p fr d (mgr w)) !! N.to_nat fr = Some (Clear d) ∧
  pinCnt (Clear d) = 0 ∧ valid (Clear d) = false ∧
  hashTable (disposed f p fr d (mgr w)) !! (f, p) = None.
Proof.
  intros Hk Hd Hpg Hpin Hwr Hdel. split.
  - destruct (dirty d) eqn:Hdirty.
    + rewrite (disposePage_dirty _ _ _ _ _ _ Hk Hd Hpg Hdirty (Hwr eq_refl)).
      unfold file_deletePage. rewrite lift_io_eq. simpl_proj. rewrite Hdel.
      now rewrite <- app_assoc.
    + rewrite (disposePage_clean _ _ _ _ _ Hk Hd Hdirty).
      unfold file_deletePage. rewrite lift_io_eq. simpl_proj. now rewrite Hdel.
  - unfold disposed. simpl_proj. split; [|split; [reflexivity|split; [reflexivity|]]].
    + apply list_lookup_insert_eq. eapply lookup_lt_Some; eauto.
    + apply lookup_delete_eq.
Qed.

(** C6.  [unPinPage(file, pageNo, dirty)]: when [(file, pageNo)] is not in
    the hash table the call returns and the state is the same; when it is
    there with [pinCnt == 0] the call throws [PageNotPinnedException]; in
    the remaining case it returns, the frame's [pinCnt] is one less, its
    dirty bit is set when [dirty] is true and is what it was when [dirty]
    is false (it is never cleared), and nothing else changes. *)
Theorem unPinPage_cases (w : World Disk) (f : File) (p : PageId) (isDirty : bool) :
  (hashTable (mgr w) !! (f, p) = None → unPinPage f p isDirty w = (Ok tt, w)) ∧
  (∀ fr d,
     hashTable (mgr w) !! (f, p) = Some fr →
     bufDescTable (mgr w) !! N.to_nat fr = Some d →
     (pinCnt d = 0 →
      unPinPage f p isDirty w = (Throw (PageNotPinnedException f p fr), w)) ∧
     (pinCnt d ≠ 0 →
      ∃ d',
        unPinPage f p isDirty w =
          (Ok tt,
           with_mgr (with_descs (<[N.to_nat fr := d']> (bufDescTable (mgr w))) (mgr w)) w) ∧
        pinCnt d' = pinCnt d - 1 ∧
        dirty d' = (if isDirty then true else dirty d) ∧
        (dirty d = true → dirty d' = true) ∧
        valid d' = valid d ∧ refbit d' = refbit d ∧
        file d' = file d ∧ pageNo d' = pageNo d ∧ frameNo d' = frameNo d)).
Proof.
  destruct (unPinPage_run w f p isDirty) as [Hnone Hsome].
  split; [exact Hnone|].
  intros fr d Hk Hd. destruct (Hsome fr d Hk Hd) as [H0 H1].
  split; [exact H0|]. intros Hp. eexists. split; [exact (H1 Hp)|].
  cbn. destruct isDirty; auto 10.
Qed.

(** ** What [allocBuf] does get right, and where it goes wrong *)

(** With every frame valid and pinned the loop runs to its end without a
    frame. *)
Lemma allocBuf_loop_all_pinned n : ∀ i (w : World Disk),
  wf (mgr w) → i + N.of_nat n < UINT32 →
  (∀ fr d, bufDescTable (mgr w) !! N.to_nat fr = Some d → valid d = true ∧ pinCnt d ≠ 0) →
  ∃ w', allocBuf_loop n i w = (Ok (false, i + N.of_nat n), w') ∧
        hashTable (mgr w') = hashTable (mgr w) ∧
        fileCalls w' = fileCalls w.
Proof.
  induction n as [|n IH]; intros i w Hwf Hi Hall.
  - exists w. cbn. rewrite N.add_0_r. auto.
  - assert (Hn0 : numBufs (mgr w) ≠ 0) by (destruct Hwf; lia).
    set (wA := mkWorld (with_hand (next_hand (mgr w)) (mgr w)) (disk w) (fileCalls w)
                       (clockAdvances w + 1)).
    assert (HwfA : wf (mgr wA))
      by (apply wf_with_hand; [exact Hwf | exact (next_hand_lt _ Hwf)]).
    destruct (wf_lookup _ _ Hwf (next_hand_lt _ Hwf)) as [d Hd].
    destruct (Hall _ _ Hd) as [Hv Hp].
    assert (Hstep : allocBuf_loop (S n) i w =
              (if refbit d
               then modifyDesc (next_hand (mgr w)) (set_refbit false) ;; allocBuf_loop n (i + 1)
               else allocBuf_loop n (i + 1)) wA).
    { cbn [allocBuf_loop]. run (advanceClock_Ok w Hn0). fold wA.
      unfold bind at 1. cbn [getHand]. change (clockHand (mgr wA)) with (next_hand (mgr w)).
      erewrite bind_Ok by (apply getDesc_Ok; exact Hd).
      rewrite Hv. cbn [negb]. rewrite (N.mod_small (i + 1)) by lia.
      apply N.eqb_neq in Hp. rewrite Hp. cbn [negb]. reflexivity. }
    rewrite Hstep. clear Hstep.
    replace (i + N.of_nat (S n)) with (i + 1 + N.of_nat n) by lia.
    destruct (refbit d).
    + erewrite bind_Ok by (apply modifyDesc_Ok; exact Hd).
      set (wB := with_mgr _ wA).
      destruct (IH (i + 1) wB) as (w' & Hrun & Ht & Hc).
      * apply (wf_insert_desc _ _ d); auto.
      * lia.
      * intros fr d'. subst wB wA. simpl_proj. rewrite list_lookup_insert.
        case_decide as Hc.
        -- intros [= <-]. cbn. auto.
        -- apply Hall.
      * exists w'. auto.
    + destruct (IH (i + 1) wA) as (w' & Hrun & Ht & Hc); auto; try lia.
      exists w'. auto.
Qed.

(** [allocBuf] throws [BufferExceededException] when every frame is
    valid and pinned, having made no call on a [File] and left the hash
    table as it was. *)
Lemma allocBuf_all_pinned (w : World Disk) :
  wf (mgr w) →
  (∀ fr d, bufDescTable (mgr w) !! N.to_nat fr = Some d → valid d = true ∧ pinCnt d ≠ 0) →
  ∃ w', allocBuf w = (Throw BufferExceededException, w') ∧
        hashTable (mgr w') = hashTable (mgr w) ∧ fileCalls w' = fileCalls w.
Proof.
  intros Hwf Hall. pose proof Hwf as [Hn _ _ _ _].
  destruct (allocBuf_loop_all_pinned (S (N.to_nat (numBufs (mgr w)))) 0 w Hwf) as
    (w' & Hrun & Ht & Hc); [lia|exact Hall|].
  exists w'. split; [|auto].
  unfold allocBuf. unfold bind at 1. cbn [getNumBufs]. run Hrun.
  cbn [fst snd negb andb].
  replace (numBufs (mgr w) <=? 0 + N.of_nat (S (N.to_nat (numBufs (mgr w))))) with true
    by (symmetry; apply N.leb_le; lia).
  reflexivity.
Qed.

(** Every advance of the hand that [allocBuf] makes is one iteration of
    its loop: there are at most [numBufs + 1] of them. *)
Lemma allocBuf_loop_advances n : ∀ i (w : World Disk) r w',
  allocBuf_loop n i w = (r, w') →
  clockAdvances w ≤ clockAdvances w' ≤ clockAdvances w + N.of_nat n.
Proof.
  induction n as [|n IH]; intros i w r w' Hrun.
  - cbn in Hrun. injection Hrun as <- <-. lia.
  - cbn [allocBuf_loop] in Hrun.
    apply bind_inv in Hrun as [(? & w1 & Ha & Hrun)|(e & Ha & ->)].
    2:{ apply advanceClock_inv in Ha as [(_ & -> & _)|(_ & _ & ->)]; simpl_proj; lia. }
    assert (H1 : clockAdvances w1 = clockAdvances w + 1).
    { apply advanceClock_inv in Ha as [([=] & _)|(_ & _ & ->)]. reflexivity. }
    unfold bind at 1 in Hrun. cbn [getHand] in Hrun.
    apply bind_inv in Hrun as [(d & w2 & Hg & Hrun)|(e & Hg & ->)];
      apply getDesc_inv in Hg as [-> _]; [|lia].
    destruct (negb (valid d)); [injection Hrun as <- <-; lia|].
    destruct (refbit d).
    { apply bind_inv in Hrun as [(? & w3 & Hm & Hrun)|(e & Hm & ->)].
      - assert (clockAdvances w3 = clockAdvances w1)
          by (apply modifyDesc_inv in Hm as [(? & _ & _ & ->)|(_ & _ & ->)]; reflexivity).
        apply IH in Hrun. lia.
      - assert (clockAdvances w' = clockAdvances w1)
          by (apply modifyDesc_inv in Hm as [(? & _ & _ & ->)|(_ & _ & ->)]; reflexivity).
        lia. }
    destruct (negb (pinCnt d =? 0)); [apply IH in Hrun; lia|].
    fold (writeBack (clockHand (mgr w1)) (file d) (dirty d)) in Hrun.
    apply bind_inv in Hrun as [(? & w3 & Hm & Hrun)|(e & Hm & ->)].
    + assert (H3 : clockAdvances w3 = clockAdvances w1)
        by (apply hash_remove_inv in Hm as [(? & _ & _ & ->)|(_ & _ & ->)]; reflexivity).
      apply bind_inv in Hrun as [(? & w4 & Hwb & Hrun)|(e & Hwb & ->)];
        apply writeBack_advances in Hwb.
      * injection Hrun as <- <-. lia.
      * lia.
    + assert (clockAdvances w' = clockAdvances w1)
        by (apply hash_remove_inv in Hm as [(? & _ & _ & ->)|(_ & _ & ->)]; reflexivity).
      lia.
Qed.

(** When the write-back of the victim fails in [allocBuf] (the only way a
    [File] error comes out of it), the victim, under the hand, was valid,
    unpinned and dirty with its entry in the table; it is left valid, with
    its dirty bit cleared and its entry removed. *)
Lemma allocBuf_loop_write_failure n : ∀ i (w : World Disk) c w',
  Inv (mgr w) → allocBuf_loop n i w = (Throw (FileException c), w') →
  ∃ d,
    bufDescTable (mgr w') !! N.to_nat (clockHand (mgr w')) = Some (set_dirty false d) ∧
    valid d = true ∧ dirty d = true ∧ pinCnt d = 0 ∧
    hashTable (mgr w) !! (file d, pageNo d) = Some (clockHand (mgr w')) ∧
    hashTable (mgr w') !! (file d, pageNo d) = None.
Proof.
  induction n as [|n IH]; intros i w c w' HI Hrun.
  - discriminate Hrun.
  - cbn [allocBuf_loop] in Hrun.
    pose proof HI as (Hwf & Hrange & Hok).
    assert (Hn0 : numBufs (mgr w) ≠ 0) by (destruct Hwf; lia).
    run_in Hrun (advanceClock_Ok w Hn0).
    set (w1 := mkWorld _ _ _ _) in Hrun.
    assert (HI1 : Inv (mgr w1))
      by (apply Inv_hand; [exact HI | exact (next_hand_lt _ Hwf)]).
    unfold bind at 1 in Hrun. cbn [getHand] in Hrun.
    change (clockHand (mgr w1)) with (next_hand (mgr w)) in Hrun.
    destruct (wf_lookup (mgr w1) (next_hand (mgr w))) as [d Hd];
      [apply HI1 | exact (next_hand_lt _ Hwf) |].
    run_in Hrun (getDesc_Ok _ _ _ Hd).
    destruct (valid d) eqn:Hv; cbn [negb] in Hrun; [|discriminate Hrun].
    destruct (refbit d) eqn:Hr.
    + run_in Hrun (modifyDesc_Ok _ (set_refbit false) _ _ Hd).
      apply IH in Hrun; [exact Hrun|].
      simpl_proj. fold (mgr w1). apply (Inv_modify_bits _ (mgr w1) d); auto.
    + destruct (pinCnt d =? 0) eqn:Hp; cbn [negb] in Hrun; [|apply IH in Hrun; auto].
      destruct (Inv_remove _ _ _ HI1 Hd Hv) as [Hk Hex].
      run_in Hrun (hash_remove_Ok _ _ _ _ Hk).
      set (w2 := with_mgr _ w1) in Hrun.
      fold (writeBack (next_hand (mgr w)) (file d) (dirty d)) in Hrun.
      apply bind_inv in Hrun as [(a & w3 & Hwb & Hret)|(e & Hwb & [= <-])];
        [discriminate Hret|].
      assert (Hwf2 : wf (mgr w2)) by apply Hex.
      assert (Hd2 : bufDescTable (mgr w2) !! N.to_nat (next_hand (mgr w)) = Some d) by exact Hd.
      pose proof (writeBack_inv _ _ d _ _ _ Hwf2 Hd2 Hwb) as [Hm _].
      destruct (dirty d) eqn:Hdirty.
      * rewrite Hm.
        subst w2 w1. simpl_proj. exists d.
        split; [apply list_lookup_insert_eq; eapply lookup_lt_Some; eauto|].
        apply N.eqb_eq in Hp. repeat split; auto. apply lookup_delete_eq.
      * discriminate Hwb.
Qed.

Lemma allocBuf_write_failure (w : World Disk) c w' :
  Inv (mgr w) → allocBuf w = (Throw (FileException c), w') →
  ∃ d,
    bufDescTable (mgr w') !! N.to_nat (clockHand (mgr w')) = Some (set_dirty false d) ∧
    valid d = true ∧ dirty d = true ∧ pinCnt d = 0 ∧
    hashTable (mgr w) !! (file d, pageNo d) = Some (clockHand (mgr w')) ∧
    hashTable (mgr w') !! (file d, pageNo d) = None.
Proof.
  intros HI Hrun. unfold allocBuf in Hrun.
  unfold bind at 1 in Hrun. cbn [getNumBufs] in Hrun.
  apply bind_inv in Hrun as [([found i] & w1 & Hloop & Hrun)|(e & Hloop & [= <-])].
  - exfalso. cbn [fst snd] in Hrun.
    destruct (negb found && (numBufs (mgr w) <=? i)); [discriminate Hrun|].
    unfold bind at 1 in Hrun. cbn [getHand] in Hrun.
    apply bind_inv in Hrun as [(? & w2 & _ & Hrun)|(e & Hm & [= <-])]; [discriminate Hrun|].
    apply modifyDesc_inv in Hm as [(? & _ & [=] & _)|(_ & [=] & _)].
  - eapply allocBuf_loop_write_failure; eauto.
Qed.

Lemma history_run_calls cs : ∀ (w0 w : World Disk),
  history w0 w → calls_ok cs w = true → history w0 (run_calls cs w).
Proof.
  induction cs as [|c cs IH]; intros w0 w Hh Hok; [exact Hh|].
  cbn [run_calls calls_ok] in *.
  destruct (run_call c w) as [[[]|e] w1] eqn:Hrun; cbn [fst snd] in *.
  - apply IH; [|exact Hok]. eapply history_ok; eauto.
  - apply IH.
    + eapply history_throw; eauto. intros [x ->]. discriminate Hok.
    + destruct e; auto. discriminate Hok.
Qed.

(** A state reached from the constructor by calls that no [File] error
    aborted is consistent. *)
Lemma run_calls_Inv bufs (d0 : Disk) cs :
  0 < bufs < UINT32 - 1 → calls_ok cs (newWorld bufs d0) = true →
  Inv (mgr (run_calls cs (newWorld bufs d0))).
Proof.
  intros Hb Hok. eapply history_Inv; [exact Hb|].
  apply history_run_calls; [apply history_nil|exact Hok].
Qed.

(** * Further properties of the code *)

(** ** [allocBuf]: outcome *)

(** X1.  When every frame is valid and pinned, [allocBuf] throws
    [BufferExceededException]; it has made no call on a [File] and the hash
    table is as it was. *)
Theorem allocBuf_throws_when_all_pinned (w : World Disk) :
  wf (mgr w) →
  (∀ fr d, bufDescTable (mgr w) !! N.to_nat fr = Some d → valid d = true ∧ pinCnt d ≠ 0) →
  ∃ w', allocBuf w = (Throw BufferExceededException, w') ∧
        hashTable (mgr w') = hashTable (mgr w) ∧ fileCalls w' = fileCalls w.
Proof. apply allocBuf_all_pinned. Qed.

(** X2.  From a consistent state with an invalid frame, [allocBuf] does
    not throw [BufferExceededException]: it returns a frame unless the
    write-back of a victim met before the invalid frame is aborted by a
    [File] error. *)
Theorem allocBuf_uses_free_frame (w : World Disk) (fr : FrameId) (d : BufDesc) r w' :
  Inv (mgr w) →
  bufDescTable (mgr w) !! N.to_nat fr = Some d → valid d = false →
  allocBuf w = (r, w') →
  (∃ fr', r = Ok fr') ∨ (∃ c, r = Throw (FileException c)).
Proof.
  intros HI Hd Hv Hrun.
  pose proof (allocBuf_finds_invalid _ _ _ _ _ HI Hd Hv Hrun) as Hne.
  pose proof (allocBuf_post _ _ _ HI Hrun) as (_ & _ & Hpost).
  destruct r as [fr'|e]; [eauto|].
  destruct Hpost as [[-> _]|[c ->]]; [congruence|eauto].
Qed.

(** X3.  Whatever its outcome, [allocBuf] advances the clock hand at most
    [numBufs + 1] times. *)
Theorem allocBuf_advances_bound (w : World Disk) r w' :
  allocBuf w = (r, w') →
  clockAdvances w ≤ clockAdvances w' ≤ clockAdvances w + (numBufs (mgr w) + 1).
Proof.
  intros Hrun. unfold allocBuf in Hrun.
  unfold bind at 1 in Hrun. cbn [getNumBufs] in Hrun.
  assert (Hb : ∀ x, x ≤ clockAdvances w + N.of_nat (S (N.to_nat (numBufs (mgr w)))) →
                    x ≤ clockAdvances w + (numBufs (mgr w) + 1)) by (intros; lia).
  apply bind_inv in Hrun as [(res & w1 & Hloop & Hrun)|(e & Hloop & ->)];
    apply allocBuf_loop_advances in Hloop as [Hlo Hhi]; apply Hb in Hhi; [|lia].
  destruct (negb (fst res) && (numBufs (mgr w) <=? snd res)).
  - injection Hrun as <- <-. lia.
  - unfold bind at 1 in Hrun. cbn [getHand] in Hrun.
    assert (clockAdvances w' = clockAdvances w1); [|lia].
    apply bind_inv in Hrun as [(? & w2 & Hm & Hrun)|(e & Hm & ->)].
    + injection Hrun as <- <-.
      apply modifyDesc_inv in Hm as [(? & _ & _ & ->)|(_ & _ & ->)]; reflexivity.
    + apply modifyDesc_inv in Hm as [(? & _ & _ & ->)|(_ & _ & ->)]; reflexivity.
Qed.

(** X4.  From a consistent state, whenever [allocBuf] is aborted by a
    [File] error, the frame under the hand is the victim whose write-back
    failed: it was valid, unpinned and dirty with its entry in the hash
    table, and it is left valid with its dirty bit cleared and its entry
    removed. *)
Theorem allocBuf_failed_write_back (w : World Disk) (c : N) w' :
  Inv (mgr w) → allocBuf w = (Throw (FileException c), w') →
  ∃ d,
    bufDescTable (mgr w') !! N.to_nat (clockHand (mgr w')) = Some (set_dirty false d) ∧
    valid d = true ∧ dirty d = true ∧ pinCnt d = 0 ∧
    hashTable (mgr w) !! (file d, pageNo d) = Some (clockHand (mgr w')) ∧
    hashTable (mgr w') !! (file d, pageNo d) = None.
Proof. apply allocBuf_write_failure. Qed.

(** X5.  From a consistent state, a frame returned by [allocBuf] is the
    frame under the hand, inside the pool, with a cleared descriptor and no
    entry in the hash table; the state is consistent again and the table
    has only lost entries. *)
Theorem allocBuf_returns_cleared_frame (w : World Disk) (fr : FrameId) w' :
  Inv (mgr w) → allocBuf w = (Ok fr, w') →
  Inv (mgr w') ∧ fr = clockHand (mgr w') ∧ fr < numBufs (mgr w') ∧
  (∃ d, bufDescTable (mgr w') !! N.to_nat fr = Some (Clear d)) ∧
  no_entry (hashTable (mgr w')) fr ∧
  (∀ k x, hashTable (mgr w') !! k = Some x → hashTable (mgr w) !! k = Some x).
Proof.
  intros HI Hrun.
  destruct (allocBuf_post _ _ _ HI Hrun) as (_ & Hsub & HI' & Hh & Hlt & d & Hd).
  split; [exact HI'|]. split; [exact Hh|]. split; [exact Hlt|].
  split; [eauto|]. split; [|exact Hsub].
  destruct HI' as (_ & _ & Hok). specialize (Hok fr _ Hd). exact Hok.
Qed.

(** ** [allocBuf]: calls on [File] *)

Lemma same_io_refl (w : World Disk) : same_io w w.
Proof. split; reflexivity. Qed.

Lemma same_io_trans (w1 w2 w3 : World Disk) : same_io w1 w2 → same_io w2 w3 → same_io w1 w3.
Proof. intros [A B] [C D]. split; congruence. Qed.

Lemma advanceClock_io (w : World Disk) r w' : advanceClock w = (r, w') → same_io w w'.
Proof.
  intros Ha. apply advanceClock_inv in Ha as [(_ & -> & _)|(_ & _ & ->)]; split; reflexivity.
Qed.

Lemma modifyDesc_io i g (w : World Disk) r w' : modifyDesc i g w = (r, w') → same_io w w'.
Proof.
  intros Hm. apply modifyDesc_inv in Hm as [(? & _ & _ & ->)|(_ & _ & ->)]; split; reflexivity.
Qed.

Lemma hash_remove_io f p (w : World Disk) r w' : hash_remove f p w = (r, w') → same_io w w'.
Proof.
  intros Hm. apply hash_remove_inv in Hm as [(? & _ & _ & ->)|(_ & _ & ->)]; split; reflexivity.
Qed.

Lemma at_most_one_write_same (w1 w2 w3 : World Disk) :
  same_io w1 w2 → at_most_one_write w2 w3 → at_most_one_write w1 w3.
Proof.
  intros [A B] [[C D]|(f & pg & C & D)].
  - left. split; congruence.
  - right. exists f, pg. rewrite C, D, A, B. auto.
Qed.

Lemma at_most_one_write_same_r (w1 w2 w3 : World Disk) :
  at_most_one_write w1 w2 → same_io w2 w3 → at_most_one_write w1 w3.
Proof.
  intros [[C D]|(f & pg & C & D)] [A B].
  - left. split; congruence.
  - right. exists f, pg. rewrite A, B. auto.
Qed.

Lemma writeBack_io h f b (w : World Disk) r w' :
  writeBack h f b w = (r, w') → at_most_one_write w w'.
Proof.
  unfold writeBack. destruct b; [|intros [= <- <-]; left; apply same_io_refl].
  intros Hrun.
  apply bind_inv in Hrun as [(? & w1 & Hm & Hrun)|(e & Hm & ->)];
    apply modifyDesc_io in Hm; [|now left].
  eapply at_most_one_write_same; [exact Hm|].
  apply bind_inv in Hrun as [(pg & w2 & Hg & Hrun)|(e & Hg & ->)];
    apply getPage_inv in Hg as [-> _]; [|left; apply same_io_refl].
  apply lift_io_inv in Hrun as [-> _]. right. exists f, pg. auto.
Qed.

Lemma allocBuf_loop_io n : ∀ i (w : World Disk) r w',
  allocBuf_loop n i w = (r, w') → at_most_one_write w w'.
Proof.
  induction n as [|n IH]; intros i w r w' Hrun.
  - cbn in Hrun. injection Hrun as <- <-. left. apply same_io_refl.
  - cbn [allocBuf_loop] in Hrun.
    apply bind_inv in Hrun as [(? & w1 & Ha & Hrun)|(e & Ha & ->)];
      apply advanceClock_io in Ha; [|now left].
    eapply at_most_one_write_same; [exact Ha|]. clear Ha.
    unfold bind at 1 in Hrun. cbn [getHand] in Hrun.
    apply bind_inv in Hrun as [(d & w2 & Hg & Hrun)|(e & Hg & ->)];
      apply getDesc_inv in Hg as [-> _]; [|left; apply same_io_refl].
    destruct (negb (valid d)); [injection Hrun as <- <-; left; apply same_io_refl|].
    destruct (refbit d).
    { apply bind_inv in Hrun as [(? & w3 & Hm & Hrun)|(e & Hm & ->)];
        apply modifyDesc_io in Hm; [|now left].
      eapply at_most_one_write_same; [exact Hm|]. eapply IH; exact Hrun. }
    destruct (negb (pinCnt d =? 0)); [eapply IH; exact Hrun|].
    fold (writeBack (clockHand (mgr w1)) (file d) (dirty d)) in Hrun.
    apply bind_inv in Hrun as [(? & w3 & Hm & Hrun)|(e & Hm & ->)];
      apply hash_remove_io in Hm; [|now left].
    eapply at_most_one_write_same; [exact Hm|].
    apply bind_inv in Hrun as [(? & w4 & Hwb & Hrun)|(e & Hwb & ->)];
      apply writeBack_io in Hwb; [|exact Hwb].
    injection Hrun as <- <-. exact Hwb.
Qed.

Lemma allocBuf_io (w : World Disk) r w' :
  allocBuf w = (r, w') → at_most_one_write w w'.
Proof.
  intros Hrun. unfold allocBuf in Hrun.
  unfold bind at 1 in Hrun. cbn [getNumBufs] in Hrun.
  apply bind_inv in Hrun as [(res & w1 & Hloop & Hrun)|(e & Hloop & ->)];
    apply allocBuf_loop_io in Hloop; [|exact Hloop].
  eapply at_most_one_write_same_r; [exact Hloop|].
  destruct (negb (fst res) && (numBufs (mgr w) <=? snd res)).
  - injection Hrun as <- <-. apply same_io_refl.
  - unfold bind at 1 in Hrun. cbn [getHand] in Hrun.
    apply bind_inv in Hrun as [(? & w2 & Hm & Hrun)|(e & Hm & ->)];
      apply modifyDesc_io in Hm; [|exact Hm].
    injection Hrun as <- <-. exact Hm.
Qed.

(** X6.  Whatever its outcome, [allocBuf] makes at most one call on a
    [File], and that call is a [writePage]: it never reads, allocates or
    deletes a page. *)
Theorem allocBuf_at_most_one_write (w : World Disk) r w' :
  allocBuf w = (r, w') → at_most_one_write w w'.
Proof. apply allocBuf_io. Qed.




(** ** Admission: [readPage] on a miss, [allocPage] *)

(** X8.  A [readPage] that misses and returns has taken its frame from
    [allocBuf], read the page from the file after that, stored it in the
    frame, entered [(file, pageNo)] in the hash table for that frame and
    set the descriptor: valid, one pin, not dirty. *)
Theorem readPage_miss_installs (w : World Disk) (f : File) (p : PageId) (fr : FrameId) w' :
  hashTable (mgr w) !! (f, p) = None →
  readPage f p w = (Ok fr, w') →
  ∃ w1 pg d,
    allocBuf w = (Ok fr, w1) ∧
    fst (fs_readPage f p (disk w1)) = IoOk pg ∧
    disk w' = snd (fs_readPage f p (disk w1)) ∧
    fileCalls w' = fileCalls w1 ++ [CallReadPage f p] ∧
    bufPool (mgr w') !! N.to_nat fr = Some pg ∧
    hashTable (mgr w') = <[(f, p) := fr]> (hashTable (mgr w1)) ∧
    bufDescTable (mgr w') !! N.to_nat fr = Some d ∧
    valid d = true ∧ pinCnt d = 1 ∧ dirty d = false ∧ file d = f ∧ pageNo d = p.
Proof.
  intros Hk Hrun. rewrite (readPage_miss _ _ _ Hk) in Hrun.
  apply bind_inv in Hrun as [(fr0 & w1 & Ha & Hrun)|(e & _ & [=])].
  apply bind_inv in Hrun as [(pg & w2 & Hio & Hrun)|(e & _ & [=])].
  apply bind_inv in Hrun as [(? & w3 & Hs & Hrun)|(e & _ & [=])].
  apply bind_inv in Hrun as [(? & w4 & Hi & Hrun)|(e & _ & [=])].
  apply bind_inv in Hrun as [(? & w5 & Hm & Hrun)|(e & _ & [=])].
  injection Hrun as <- <-.
  apply lift_io_inv in Hio as [-> [(pg' & Hok & [= <-])|(c & _ & [=])]].
  assert (Hlen : (N.to_nat fr0 < length (bufPool (mgr w1)))%nat).
  { unfold setPage in Hs. simpl_proj.
    destruct (bufPool (mgr w1) !! N.to_nat fr0) eqn:E; [|discriminate Hs].
    eapply lookup_lt_Some; eauto. }
  apply setPage_inv in Hs as [(_ & ->)|([=] & _)].
  apply hash_insert_inv in Hi as [(_ & _ & ->)|([=] & _)].
  apply modifyDesc_inv in Hm as [(d & Hd & _ & ->)|(_ & [=] & _)].
  simpl_proj. exists w1, pg, (Set_ f p d).
  split; [exact Ha|]. split; [exact Hok|]. split; [reflexivity|]. split; [reflexivity|].
  split; [now apply list_lookup_insert_eq|]. split; [reflexivity|].
  split; [apply list_lookup_insert_eq; eapply lookup_lt_Some; eauto|].
  cbn. auto.
Qed.

(** X9.  An [allocPage] that returns has taken its frame from [allocBuf],
    asked the file for a new page after that, stored it in the frame and
    entered it in the hash table under its own page number, which is the
    number returned; the descriptor is valid, with one pin, not dirty. *)
Theorem allocPage_installs (w : World Disk) (f : File) (p : PageId) (fr : FrameId) w' :
  allocPage f w = (Ok (p, fr), w') →
  ∃ w1 pg d,
    allocBuf w = (Ok fr, w1) ∧
    fst (fs_allocatePage f (disk w1)) = IoOk pg ∧
    p = page_number pg ∧
    disk w' = snd (fs_allocatePage f (disk w1)) ∧
    fileCalls w' = fileCalls w1 ++ [CallAllocatePage f] ∧
    bufPool (mgr w') !! N.to_nat fr = Some pg ∧
    hashTable (mgr w1) !! (f, p) = None ∧
    hashTable (mgr w') = <[(f, p) := fr]> (hashTable (mgr w1)) ∧
    bufDescTable (mgr w') !! N.to_nat fr = Some d ∧
    valid d = true ∧ pinCnt d = 1 ∧ dirty d = false ∧ file d = f ∧ pageNo d = p.
Proof.
  unfold allocPage. intros Hrun.
  apply bind_inv in Hrun as [(fr0 & w1 & Ha & Hrun)|(e & _ & [=])].
  apply bind_inv in Hrun as [(pg & w2 & Hio & Hrun)|(e & _ & [=])].
  apply bind_inv in Hrun as [(? & w3 & Hs & Hrun)|(e & _ & [=])].
  apply bind_inv in Hrun as [(? & w4 & Hi & Hrun)|(e & _ & [=])].
  apply bind_inv in Hrun as [(? & w5 & Hm & Hrun)|(e & _ & [=])].
  injection Hrun as <- <- <-.
  apply lift_io_inv in Hio as [-> [(pg' & Hok & [= <-])|(c & _ & [=])]].
  assert (Hlen : (N.to_nat fr0 < length (bufPool (mgr w1)))%nat).
  { unfold setPage in Hs. simpl_proj.
    destruct (bufPool (mgr w1) !! N.to_nat fr0) eqn:E; [|discriminate Hs].
    eapply lookup_lt_Some; eauto. }
  apply setPage_inv in Hs as [(_ & ->)|([=] & _)].
  apply hash_insert_inv in Hi as [(Hnone & _ & ->)|([=] & _)].
  apply modifyDesc_inv in Hm as [(d & Hd & _ & ->)|(_ & [=] & _)].
  simpl_proj. exists w1, pg, (Set_ f (page_number pg) d).
  split; [exact Ha|]. split; [exact Hok|]. do 3 (split; [reflexivity|]).
  split; [now apply list_lookup_insert_eq|]. split; [exact Hnone|]. split; [reflexivity|].
  split; [apply list_lookup_insert_eq; eapply lookup_lt_Some; eauto|].
  cbn. auto.
Qed.

(** X10.  When the file hands out a page number that is resident already,
    [allocPage] throws [HashAlreadyPresentException] after [allocBuf] has
    given it a frame: that frame (a victim may have been evicted for it)
    stays empty, the new page is stored in it without entry and without
    valid descriptor, and the resident page keeps its entry. *)
Theorem allocPage_resident_number (w w1 : World Disk) (f : File) (fr x : FrameId) (pg : Page) :
  Inv (mgr w) →
  allocBuf w = (Ok fr, w1) →
  fst (fs_allocatePage f (disk w1)) = IoOk pg →
  hashTable (mgr w1) !! (f, page_number pg) = Some x →
  allocPage f w =
    (Throw HashAlreadyPresentException,
     mkWorld (with_pool (<[N.to_nat fr := pg]> (bufPool (mgr w1))) (mgr w1))
             (snd (fs_allocatePage f (disk w1)))
             (fileCalls w1 ++ [CallAllocatePage f]) (clockAdvances w1)) ∧
  (∃ d, bufDescTable (mgr w1) !! N.to_nat fr = Some d ∧ valid d = false) ∧
  x ≠ fr.
Proof.
  intros HI Ha Hio Hk.
  destruct (allocBuf_post _ _ _ HI Ha) as (_ & _ & HI1 & _ & Hlt & d & Hd).
  destruct (wf_lookup_pool _ _ (proj1 HI1) Hlt) as [pg0 Hpg0].
  split; [|split].
  - unfold allocPage. run Ha.
    erewrite bind_Ok by (unfold file_allocatePage; rewrite lift_io_eq, Hio; reflexivity).
    erewrite bind_Ok by (apply (setPage_Ok _ _ pg0); simpl_proj; exact Hpg0).
    apply bind_Throw. unfold hash_insert. simpl_proj. now rewrite Hk.
  - exists (Clear d). auto.
  - intros ->. destruct HI1 as (_ & _ & Hok). specialize (Hok fr _ Hd).
    unfold frame_ok in Hok. cbn in Hok. now apply Hok in Hk.
Qed.

(** ** Pin and unpin *)

(** X11.  On a resident page, [readPage] followed by [unPinPage] of the
    same page returns the pin: the state is the one before, but for the
    frame's reference bit, now set, and its dirty bit, set if the unpin
    said so. *)
Theorem readPage_unPinPage_resident (w : World Disk) (f : File) (p : PageId)
    (isDirty : bool) (fr : FrameId) (d : BufDesc) :
  hashTable (mgr w) !! (f, p) = Some fr →
  bufDescTable (mgr w) !! N.to_nat fr = Some d →
  (readPage f p ;; unPinPage f p isDirty) w =
    (Ok tt,
     with_mgr
       (with_descs
          (<[N.to_nat fr := set_dirty (if isDirty then true else dirty d) (set_refbit true d)]>
             (bufDescTable (mgr w)))
          (mgr w)) w).
Proof.
  intros Hk Hd. run (readPage_hit _ _ _ _ _ Hk Hd).
  set (w1 := with_mgr _ w).
  pose proof (lookup_lt_Some _ _ _ Hd) as Hlt.
  assert (Hk1 : hashTable (mgr w1) !! (f, p) = Some fr) by exact Hk.
  assert (Hd1 : bufDescTable (mgr w1) !! N.to_nat fr
                = Some (set_pinCnt (pinCnt d + 1) (set_refbit true d)))
    by (subst w1; simpl_proj; now apply list_lookup_insert_eq).
  destruct (unPinPage_run w1 f p isDirty) as [_ Hsome].
  destruct (Hsome _ _ Hk1 Hd1) as [_ Hpin].
  rewrite Hpin by (cbn; lia).
  subst w1. unfold with_mgr, with_descs. simpl_proj.
  rewrite list_insert_insert_eq. cbn [pinCnt set_pinCnt dirty set_refbit].
  replace (pinCnt d + 1 - 1) with (pinCnt d) by lia.
  destruct d; reflexivity.
Qed.

(** ** [flushFile]: what it touches *)

Lemma kept_or_cleared_refl d : kept_or_cleared d d.
Proof. now left. Qed.

Lemma kept_or_cleared_set_dirty d0 d :
  kept_or_cleared d0 d → kept_or_cleared d0 (set_dirty false d).
Proof.
  intros [-> | [-> | ->]].
  - right. now left.
  - right. now left.
  - right. now right.
Qed.

Lemma kept_or_cleared_Clear d0 d : kept_or_cleared d0 d → kept_or_cleared d0 (Clear d).
Proof. intros [-> | [-> | ->]]; right; now right. Qed.

Lemma kept_or_cleared_trans d1 d2 d3 :
  kept_or_cleared d1 d2 → kept_or_cleared d2 d3 → kept_or_cleared d1 d3.
Proof.
  intros H12 [-> | [-> | ->]].
  - exact H12.
  - now apply kept_or_cleared_set_dirty.
  - now apply kept_or_cleared_Clear.
Qed.

(** A descriptor left dirty was not touched. *)
Lemma kept_or_cleared_dirty d d' : kept_or_cleared d d' → dirty d' = true → d' = d.
Proof. intros [-> | [-> | ->]]; [reflexivity|discriminate|discriminate]. Qed.

(** A descriptor left valid is still the same page. *)
Lemma kept_or_cleared_valid d d' :
  kept_or_cleared d d' → valid d' = true →
  valid d = true ∧ file d' = file d ∧ pageNo d' = pageNo d ∧ pinCnt d' = pinCnt d.
Proof. intros [-> | [-> | ->]]; cbn; auto. discriminate. Qed.

Lemma flush_step_refl f (w : World Disk) : flush_step f w w.
Proof.
  do 6 (split; [auto|]). split.
  - intros j. destruct (bufDescTable (mgr w) !! j); auto using kept_or_cleared_refl.
  - exists []. rewrite app_nil_r. split; [reflexivity|constructor].
Qed.

Lemma flush_step_trans f (w1 w2 w3 : World Disk) :
  flush_step f w1 w2 → flush_step f w2 w3 → flush_step f w1 w3.
Proof.
  intros (A1 & A2 & A3 & A4 & A5 & A6 & A7 & l1 & A8 & A9)
         (B1 & B2 & B3 & B4 & B5 & B6 & B7 & l2 & B8 & B9).
  split; [congruence|]. split; [congruence|]. split; [congruence|]. split; [congruence|].
  split; [intros f' p Hne; now rewrite B5, A5|]. split; [auto|]. split.
  - intros j. specialize (A7 j). specialize (B7 j).
    destruct (bufDescTable (mgr w1) !! j) as [d1|], (bufDescTable (mgr w2) !! j) as [d2|],
      (bufDescTable (mgr w3) !! j) as [d3|]; try tauto.
    destruct A7 as [K1 E1], B7 as [K2 E2]. split.
    + eapply kept_or_cleared_trans; eauto.
    + intros Hne. specialize (E1 Hne). subst d2. auto.
  - exists (l1 ++ l2). rewrite B8, A8, app_assoc. split; [reflexivity|].
    apply Forall_app. auto.
Qed.

(** Steps that leave the manager alone. *)
Lemma flush_step_io f (w w' : World Disk) l :
  mgr w' = mgr w → clockAdvances w' = clockAdvances w →
  fileCalls w' = fileCalls w ++ l → only_writes l → flush_step f w w'.
Proof.
  intros Hm Ha Hc Hl. unfold flush_step. rewrite Hm.
  do 3 (split; [reflexivity|]). split; [exact Ha|].
  do 2 (split; [auto|]). split.
  - intros j. destruct (bufDescTable (mgr w) !! j); auto using kept_or_cleared_refl.
  - eauto.
Qed.

Lemma flush_step_modify f i g (w0 w w' : World Disk) d0 r :
  flush_step f w0 w →
  bufDescTable (mgr w0) !! N.to_nat i = Some d0 → file d0 = f →
  (∀ d, kept_or_cleared d0 d → kept_or_cleared d0 (g d)) →
  modifyDesc i g w = (r, w') → flush_step f w0 w'.
Proof.
  intros HR Hd0 Hf Hg Hm.
  apply modifyDesc_inv in Hm as [(d & Hd & _ & ->)|(_ & _ & ->)]; [|exact HR].
  destruct HR as (A1 & A2 & A3 & A4 & A5 & A6 & A7 & A8).
  do 6 (split; [assumption|]). split; [|exact A8].
  intros j. simpl_proj. rewrite list_lookup_insert. specialize (A7 j).
  case_decide as Hc.
  - destruct Hc as [<- _]. rewrite Hd0. rewrite Hd0, Hd in A7. destruct A7 as [K _].
    split; [auto|]. intros Hne. congruence.
  - exact A7.
Qed.

Lemma flush_step_remove f p (w0 w w' : World Disk) r :
  flush_step f w0 w → hash_remove f p w = (r, w') → flush_step f w0 w'.
Proof.
  intros HR Hm.
  apply hash_remove_inv in Hm as [(x & _ & _ & ->)|(_ & _ & ->)]; [|exact HR].
  destruct HR as (A1 & A2 & A3 & A4 & A5 & A6 & A7 & A8).
  do 4 (split; [assumption|]). split; [|split; [|split; [exact A7|exact A8]]]; simpl_proj.
  - intros f' p' Hne. rewrite lookup_delete_ne by congruence. auto.
  - intros k y. rewrite lookup_delete_Some. intros [_ E]. auto.
Qed.

Lemma flushFile_body_step f i (w : World Disk) r w' :
  flushFile_body f i w = (r, w') → flush_step f w w'.
Proof.
  unfold flushFile_body. intros Hrun.
  apply bind_inv in Hrun as [(d & w1 & Hg & Hrun)|(e & Hg & ->)];
    apply getDesc_inv in Hg as [-> Hg]; [|apply flush_step_refl].
  destruct Hg as [(d' & Hd & [= <-])|(_ & [=])].
  destruct ((file d =? f) && negb (valid d)); [injection Hrun as <- <-; apply flush_step_refl|].
  destruct ((file d =? f) && valid d) eqn:Hfv; [|injection Hrun as <- <-; apply flush_step_refl].
  apply andb_prop in Hfv as [Hf _]. apply N.eqb_eq in Hf.
  apply bind_inv in Hrun as [(? & w1 & Hp & Hrun)|(e & Hp & ->)].
  2:{ destruct (negb (pinCnt d =? 0)); inversion Hp; subst; apply flush_step_refl. }
  assert (w1 = w) as -> by (destruct (negb (pinCnt d =? 0)); inversion Hp; reflexivity).
  clear Hp.
  assert (Hwb : ∀ r w2,
    (if dirty d
     then pg <- getPage (frameNo d);; file_writePage (file d) pg;; modifyDesc i (set_dirty false)
     else ret ()) w = (r, w2) → flush_step f w w2).
  { intros r0 w2. destruct (dirty d); [|intros [= <- <-]; apply flush_step_refl].
    intros H0. apply bind_inv in H0 as [(pg & w3 & Hg & H0)|(e & Hg & ->)];
      apply getPage_inv in Hg as [-> _]; [|apply flush_step_refl].
    assert (Hio : ∀ r1 w4, file_writePage (file d) pg w = (r1, w4) → flush_step f w w4).
    { intros r1 w4 Hio. apply lift_io_inv in Hio as [-> _].
      apply (flush_step_io f w _ [CallWritePage (file d) pg]); auto.
      constructor; [eauto|constructor]. }
    apply bind_inv in H0 as [(? & w4 & Hio' & H0)|(e & Hio' & ->)];
      apply Hio in Hio'; [|exact Hio'].
    eapply (flush_step_modify f i (set_dirty false) w w4); eauto.
    apply kept_or_cleared_set_dirty. }
  apply bind_inv in Hrun as [(? & w2 & H1 & Hrun)|(e & H1 & ->)];
    apply Hwb in H1; [|exact H1].
  apply bind_inv in Hrun as [(? & w3 & H2 & Hrun)|(e & H2 & ->)];
    apply (flush_step_remove f _ w) in H2; auto.
  eapply (flush_step_modify f i Clear w w3); eauto.
  apply kept_or_cleared_Clear.
Qed.

Lemma flushFile_loop_step f n : ∀ i (w : World Disk) r w',
  flushFile_loop f n i w = (r, w') → flush_step f w w'.
Proof.
  induction n as [|n IH]; intros i w r w' Hrun.
  - cbn in Hrun. injection Hrun as <- <-. apply flush_step_refl.
  - cbn [flushFile_loop] in Hrun.
    apply bind_inv in Hrun as [(? & w1 & Hb & Hrun)|(e & Hb & ->)];
      apply flushFile_body_step in Hb; [|exact Hb].
    eapply flush_step_trans; [exact Hb|]. eapply IH; exact Hrun.
Qed.

Lemma flushFile_step f (w : World Disk) r w' : flushFile f w = (r, w') → flush_step f w w'.
Proof.
  unfold flushFile. unfold bind at 1. cbn [getNumBufs]. apply flushFile_loop_step.
Qed.

(** X12.  Whatever its outcome, [flushFile(f)] leaves the frames of other
    files and the table entries of their pages as they were, does not touch
    the pool or the clock hand, and calls nothing but [writePage] on a
    [File]. *)
Theorem flushFile_other_files_untouched (w : World Disk) (f : File) r w' :
  flushFile f w = (r, w') →
  (∀ j dj, bufDescTable (mgr w) !! N.to_nat j = Some dj → file dj ≠ f →
           bufDescTable (mgr w') !! N.to_nat j = Some dj) ∧
  (∀ f' p, f' ≠ f → hashTable (mgr w') !! (f', p) = hashTable (mgr w) !! (f', p)) ∧
  bufPool (mgr w') = bufPool (mgr w) ∧
  clockHand (mgr w') = clockHand (mgr w) ∧
  ∃ l, fileCalls w' = fileCalls w ++ l ∧ only_writes l.
Proof.
  intros Hrun. apply flushFile_step in Hrun as (_ & A2 & A3 & _ & A5 & _ & A7 & A8).
  split; [|auto].
  intros j dj Hd Hne. specialize (A7 (N.to_nat j)). rewrite Hd in A7.
  destruct (bufDescTable (mgr w') !! N.to_nat j) as [d'|]; [|contradiction].
  destruct A7 as [_ E]. now rewrite (E Hne).
Qed.

Lemma flushFile_Ok_cleared f (w : World Disk) w' j dj :
  Inv (mgr w) → flushFile f w = (Ok tt, w') →
  bufDescTable (mgr w) !! N.to_nat j = Some dj → file dj = f →
  bufDescTable (mgr w') !! N.to_nat j = Some (Clear dj).
Proof.
  intros HI Hrun Hd Hf. unfold flushFile in Hrun.
  unfold bind at 1 in Hrun. cbn [getNumBufs] in Hrun.
  pose proof (wf_lookup_lt _ _ _ (proj1 HI) Hd) as Hlt.
  assert (Hle : 0 + N.of_nat (N.to_nat (numBufs (mgr w))) ≤ numBufs (mgr w)) by lia.
  assert (Hj : 0 ≤ j < 0 + N.of_nat (N.to_nat (numBufs (mgr w)))) by lia.
  exact (proj1 (flushFile_loop_flushed f _ 0 w w' HI Hle Hrun j dj Hj Hd Hf)).
Qed.

(** X13.  From a consistent state, a [flushFile(f)] that returns has
    cleared every frame that carried [f] and left no entry of a page of [f]
    in the hash table; the state is consistent. *)
Theorem flushFile_returns_file_gone (w : World Disk) (f : File) w' :
  Inv (mgr w) → flushFile f w = (Ok tt, w') →
  Inv (mgr w') ∧
  (∀ j dj, bufDescTable (mgr w) !! N.to_nat j = Some dj → file dj = f →
           bufDescTable (mgr w') !! N.to_nat j = Some (Clear dj)) ∧
  (∀ p, hashTable (mgr w') !! (f, p) = None).
Proof.
  intros HI Hrun.
  pose proof (flushFile_Inv _ _ _ _ HI Hrun) as HI'.
  pose proof (flushFile_step _ _ _ _ Hrun) as (_ & _ & _ & _ & _ & _ & A7 & _).
  assert (Hcl : ∀ j dj, bufDescTable (mgr w) !! N.to_nat j = Some dj → file dj = f →
                        bufDescTable (mgr w') !! N.to_nat j = Some (Clear dj))
    by (intros j dj; apply flushFile_Ok_cleared; assumption).
  split; [exact HI'|]. split; [exact Hcl|].
  intros p. destruct (hashTable (mgr w') !! (f, p)) as [fr|] eqn:Hk; [|reflexivity].
  exfalso. destruct (Inv_table_lookup _ _ _ HI' Hk) as (d' & Hd' & Hv' & [= Hf' _]).
  specialize (A7 (N.to_nat fr)). rewrite Hd' in A7.
  destruct (bufDescTable (mgr w) !! N.to_nat fr) as [d|] eqn:Hd; [|contradiction].
  destruct A7 as [K _]. destruct (kept_or_cleared_valid _ _ K Hv') as (_ & Hfd & _).
  rewrite (Hcl fr d Hd) in Hd' by congruence. injection Hd' as <-. discriminate Hv'.
Qed.

Lemma flushFile_loop_nothing f n : ∀ i (w : World Disk),
  (N.to_nat i + n ≤ length (bufDescTable (mgr w)))%nat →
  (∀ j dj, bufDescTable (mgr w) !! N.to_nat j = Some dj → file dj ≠ f) →
  flushFile_loop f n i w = (Ok tt, w).
Proof.
  induction n as [|n IH]; intros i w Hlen Hall; [reflexivity|].
  cbn [flushFile_loop].
  destruct (lookup_lt_is_Some_2 (bufDescTable (mgr w)) (N.to_nat i)) as [d Hd]; [lia|].
  rewrite (bind_Ok _ _ _ _ _ (flushFile_body_other _ _ _ _ Hd (Hall _ _ Hd))).
  apply IH; [lia|exact Hall].
Qed.

(** X14.  When no frame carries [f] (and there is a descriptor per frame),
    [flushFile(f)] returns and nothing has changed: no write, no exception. *)
Theorem flushFile_nothing_resident (w : World Disk) (f : File) :
  length (bufDescTable (mgr w)) = N.to_nat (numBufs (mgr w)) →
  (∀ j dj, bufDescTable (mgr w) !! N.to_nat j = Some dj → file dj ≠ f) →
  flushFile f w = (Ok tt, w).
Proof.
  intros Hlen Hall. unfold flushFile. unfold bind at 1. cbn [getNumBufs].
  apply flushFile_loop_nothing; [|exact Hall]. rewrite Hlen. cbn. lia.
Qed.


(** ** [disposePage]: a failed write-back *)

(** X16.  When the write-back of a resident dirty page fails in
    [disposePage], the error goes to the caller before anything else is
    done: [file->deletePage] is not called, the page keeps its frame and its
    entry, but its dirty bit has been cleared. *)
Theorem disposePage_write_failure (w : World Disk) (f : File) (p : PageId)
    (fr : FrameId) (d : BufDesc) (pg : Page) (c : N) :
  hashTable (mgr w) !! (f, p) = Some fr →
  bufDescTable (mgr w) !! N.to_nat fr = Some d →
  bufPool (mgr w) !! N.to_nat fr = Some pg →
  dirty d = true →
  fst (fs_writePage f pg (disk w)) = IoFail c →
  ∃ w',
    disposePage f p w = (Throw (FileException c), w') ∧
    fileCalls w' = fileCalls w ++ [CallWritePage f pg] ∧
    hashTable (mgr w') = hashTable (mgr w) ∧
    bufDescTable (mgr w') !! N.to_nat fr = Some (set_dirty false d).
Proof.
  intros Hk Hd Hpg Hdirty Hio. eexists. split.
  - exact (disposePage_dirty_fail _ _ _ _ _ _ _ Hk Hd Hpg Hdirty Hio).
  - simpl_proj. split; [reflexivity|]. split; [reflexivity|].
    apply list_lookup_insert_eq. eapply lookup_lt_Some; eauto.
Qed.

(** ** Pinned pages are not evicted *)

Lemma pins_respected_refl m : pins_respected m m.
Proof. split; [reflexivity|]. split; auto. Qed.

Lemma pins_respected_pre m m1 m' :
  bufPool m1 = bufPool m → hashTable m1 = hashTable m →
  (∀ (j : nat) d, bufDescTable m !! j = Some d → valid d = true → pinCnt d ≠ 0 →
     bufDescTable m1 !! j = Some d ∨ bufDescTable m1 !! j = Some (set_refbit false d)) →
  pins_respected m1 m' → pins_respected m m'.
Proof.
  intros Hp Ht Hd (A1 & A2 & A3). split; [congruence|]. split.
  - intros j d Hj Hv Hpin. destruct (Hd j d Hj Hv Hpin) as [H1|H1].
    + exact (A2 j d H1 Hv Hpin).
    + destruct (A2 j _ H1 Hv Hpin) as [H2|H2]; right; exact H2.
  - intros k x Hk. apply A3. now rewrite Ht.
Qed.

Lemma allocBuf_loop_pins n : ∀ i (w : World Disk) r w',
  Inv (mgr w) → allocBuf_loop n i w = (r, w') →
  pins_respected (mgr w) (mgr w') ∧
  (∀ i', r = Ok (true, i') →
     ∃ dv, bufDescTable (mgr w') !! N.to_nat (clockHand (mgr w')) = Some dv ∧
           (valid dv = false ∨ pinCnt dv = 0)).
Proof.
  induction n as [|n IH]; intros i w r w' HI Hrun.
  - cbn in Hrun. injection Hrun as <- <-. split; [apply pins_respected_refl|].
    intros i' [=].
  - cbn [allocBuf_loop] in Hrun.
    pose proof HI as (Hwf & Hrange & Hok).
    assert (Hn0 : numBufs (mgr w) ≠ 0) by (destruct Hwf; lia).
    run_in Hrun (advanceClock_Ok w Hn0).
    set (w1 := mkWorld _ _ _ _) in Hrun.
    assert (HI1 : Inv (mgr w1))
      by (apply Inv_hand; [exact HI | exact (next_hand_lt _ Hwf)]).
    unfold bind at 1 in Hrun. cbn [getHand] in Hrun.
    change (clockHand (mgr w1)) with (next_hand (mgr w)) in Hrun.
    destruct (wf_lookup (mgr w1) (next_hand (mgr w))) as [d Hd];
      [apply HI1 | exact (next_hand_lt _ Hwf) |].
    run_in Hrun (getDesc_Ok _ _ _ Hd).
    destruct (valid d) eqn:Hv; cbn [negb] in Hrun.
    + destruct (refbit d) eqn:Hr.
      * run_in Hrun (modifyDesc_Ok _ (set_refbit false) _ _ Hd).
        apply IH in Hrun as [Hpr Hfound].
        2:{ simpl_proj. fold (mgr w1). apply (Inv_modify_bits _ (mgr w1) d); auto. }
        split; [|exact Hfound].
        eapply pins_respected_pre; [| | |exact Hpr]; simpl_proj; try reflexivity.
        intros j dj Hj _ _. rewrite list_lookup_insert. case_decide as Hc.
        -- destruct Hc as [<- _]. right. subst w1. simpl_proj. simpl_proj. congruence.
        -- now left.
      * destruct (pinCnt d =? 0) eqn:Hp; cbn [negb] in Hrun.
        -- apply N.eqb_eq in Hp.
           destruct (Inv_remove _ _ _ HI1 Hd Hv) as [Hk Hex].
           run_in Hrun (hash_remove_Ok _ _ _ _ Hk).
           set (w2 := with_mgr _ w1) in Hrun.
           fold (writeBack (next_hand (mgr w)) (file d) (dirty d)) in Hrun.
           assert (Hgen : ∀ r3 w3,
             writeBack (next_hand (mgr w)) (file d) (dirty d) w2 = (r3, w3) →
             pins_respected (mgr w) (mgr w3) ∧
             clockHand (mgr w3) = next_hand (mgr w) ∧
             ∃ dv, bufDescTable (mgr w3) !! N.to_nat (next_hand (mgr w)) = Some dv ∧
                   pinCnt dv = 0).
           { intros r3 w3 Hwb.
             apply writeBack_inv in Hwb as [Hm _]; [|apply Hex|exact Hd].
             assert (Hdv : ∃ dv, bufDescTable (mgr w3) !! N.to_nat (next_hand (mgr w)) = Some dv
                                 ∧ pinCnt dv = 0).
             { rewrite Hm. destruct (dirty d).
               - exists (set_dirty false d). split; [|exact Hp]. simpl_proj.
                 apply list_lookup_insert_eq. eapply lookup_lt_Some; exact Hd.
               - exists d. split; [exact Hd|exact Hp]. }
             split; [|split; [rewrite Hm; now destruct (dirty d)|exact Hdv]].
             split; [rewrite Hm; now destruct (dirty d)|]. split.
             - intros j dj Hj Hvj Hpj. left. rewrite Hm.
               assert (Hne : j ≠ N.to_nat (next_hand (mgr w))).
               { intros ->. subst w1. simpl_proj. congruence. }
               destruct (dirty d); simpl_proj; [rewrite list_lookup_insert_ne by auto|];
                 exact Hj.
             - intros k x Hkx.
               destruct (decide (k = (file d, pageNo d))) as [->|Hne].
               + right. subst w1. simpl_proj. rewrite Hk in Hkx. injection Hkx as <-.
                 exact Hdv.
               + left. rewrite Hm. subst w2 w1. destruct (dirty d); simpl_proj;
                   rewrite lookup_delete_ne by auto; exact Hkx. }
           apply bind_inv in Hrun as [(a & w3 & Hwb & Hret)|(e & Hwb & ->)];
             apply Hgen in Hwb as (Hpr & Hh & Hdv).
           ++ cbn [ret] in Hret. injection Hret as <- <-. split; [exact Hpr|].
              intros i' _. rewrite Hh. destruct Hdv as (dv & ? & ?). eauto.
           ++ split; [exact Hpr|]. intros i' [=].
        -- apply IH in Hrun as [Hpr Hfound]; [|exact HI1]. split; [|exact Hfound].
           eapply pins_respected_pre; [| | |exact Hpr]; try reflexivity. auto.
    + cbn [ret] in Hrun. injection Hrun as <- <-. split.
      * eapply pins_respected_pre; [| | |apply pins_respected_refl]; try reflexivity. auto.
      * intros i' _. exists d. split; [exact Hd|now left].
Qed.

Lemma allocBuf_pins (w : World Disk) r w' :
  Inv (mgr w) → allocBuf w = (r, w') → pins_respected (mgr w) (mgr w').
Proof.
  intros HI Hrun. unfold allocBuf in Hrun.
  unfold bind at 1 in Hrun. cbn [getNumBufs] in Hrun.
  apply bind_inv in Hrun as [([found i] & w1 & Hloop & Hrun)|(e & Hloop & ->)].
  2:{ now apply allocBuf_loop_pins in Hloop as [Hpr _]. }
  pose proof (allocBuf_loop_pins _ _ _ _ _ HI Hloop) as [Hpr Hfound].
  cbn [fst snd] in Hrun.
  destruct (negb found && (numBufs (mgr w) <=? i)) eqn:Hb.
  { injection Hrun as <- <-. exact Hpr. }
  assert (found = true) as ->.
  { destruct found; [reflexivity|]. exfalso.
    apply allocBuf_loop_notfound in Hloop.
    - cbn [negb andb] in Hb. apply N.leb_gt in Hb. lia.
    - destruct HI as [[] _]. rewrite Nat2N.inj_succ, N2Nat.id. lia. }
  destruct (Hfound i eq_refl) as (dv & Hdv & Hfree).
  unfold bind at 1 in Hrun. cbn [getHand] in Hrun.
  run_in Hrun (modifyDesc_Ok _ Clear _ _ Hdv). cbn [ret] in Hrun. injection Hrun as <- <-.
  destruct Hpr as (A1 & A2 & A3). split; [exact A1|]. split; simpl_proj.
  - intros j dj Hj Hv Hp. rewrite list_lookup_insert_ne; [exact (A2 j dj Hj Hv Hp)|].
    intros <-. destruct (A2 _ dj Hj Hv Hp) as [E|E]; rewrite Hdv in E; injection E as ->;
      cbn in Hfree; destruct Hfree; congruence.
  - intros k x Hk. destruct (A3 k x Hk) as [E|(dx & Hdx & Hpx)]; [now left|right].
    rewrite list_lookup_insert. case_decide as Hc.
    + eexists. split; [reflexivity|reflexivity].
    + exists dx. auto.
Qed.

Lemma pins_respected_kept m m' j d :
  Inv m → pins_respected m m' →
  bufDescTable m !! N.to_nat j = Some d → valid d = true → pinCnt d ≠ 0 →
  pinned_page_kept m j d m'.
Proof.
  intros HI (A1 & A2 & A3) Hd Hv Hp.
  pose proof (A2 _ d Hd Hv Hp) as Hd'.
  split; [exact Hd'|]. split; [|now rewrite A1].
  destruct (Inv_remove _ _ _ HI Hd Hv) as [Hk _].
  destruct (A3 _ _ Hk) as [E|(dv & Hdv & Hpv)]; [exact E|].
  exfalso. destruct Hd' as [E|E]; rewrite Hdv in E; injection E as ->; cbn in Hpv; congruence.
Qed.

(** X17.  Whatever its outcome, [allocBuf] from a consistent state leaves
    every pinned page where it is: its frame keeps the descriptor (only the
    reference bit may have been cleared, so pin count and dirty bit are
    intact), the table still maps the page to the frame, and the frame's
    content is unchanged. *)
Theorem allocBuf_keeps_pinned_pages (w : World Disk) (j : FrameId) (d : BufDesc) r w' :
  Inv (mgr w) →
  bufDescTable (mgr w) !! N.to_nat j = Some d → valid d = true → pinCnt d ≠ 0 →
  allocBuf w = (r, w') →
  pinned_page_kept (mgr w) j d (mgr w').
Proof.
  intros HI Hd Hv Hp Hrun.
  eapply pins_respected_kept; eauto using allocBuf_pins.
Qed.









(** ** The destructor *)

Lemma wrote_back_refl (w : World Disk) : wrote_back w w.
Proof.
  split; [reflexivity|]. exists []. rewrite app_nil_r. split; [reflexivity|]. auto.
Qed.

Lemma wrote_back_trans (w1 w2 w3 : World Disk) :
  wrote_back w1 w2 → wrote_back w2 w3 → wrote_back w1 w3.
Proof.
  intros (A1 & l1 & A2 & A3) (B1 & l2 & B2 & B3). split; [congruence|].
  exists (l1 ++ l2). split; [rewrite B2, A2; now rewrite app_assoc|].
  intros j d Hd Hv Hdirty. destruct (A3 j d Hd Hv Hdirty) as [E|(pg & Hpg & Hin)].
  - destruct (B3 j d E Hv Hdirty) as [E'|(pg & Hpg & Hin)]; [now left|right].
    exists pg. rewrite <- A1. split; [exact Hpg|]. apply elem_of_app. now right.
  - right. exists pg. split; [exact Hpg|]. apply elem_of_app. now left.
Qed.

Lemma flush_tail_io f p i (w : World Disk) r w' :
  (hash_remove f p ;; modifyDesc i Clear) w = (r, w') → same_io w w'.
Proof.
  intros Hrun.
  apply bind_inv in Hrun as [(? & w1 & H1 & Hrun)|(e & H1 & ->)];
    apply hash_remove_io in H1; [|exact H1].
  apply modifyDesc_io in Hrun. eapply same_io_trans; eassumption.
Qed.

(** The calls one iteration of [flushFile] makes on the file. *)
Lemma flushFile_body_log f i d (w : World Disk) r w' :
  bufDescTable (mgr w) !! N.to_nat i = Some d → frameNo d = i →
  flushFile_body f i w = (r, w') →
  (mgr w' = mgr w ∧ fileCalls w' = fileCalls w) ∨
  (dirty d = false ∧ fileCalls w' = fileCalls w) ∨
  (∃ pg, bufPool (mgr w) !! N.to_nat i = Some pg ∧
         fileCalls w' = fileCalls w ++ [CallWritePage (file d) pg]).
Proof.
  intros Hd Hfn Hrun. unfold flushFile_body in Hrun.
  run_in Hrun (getDesc_Ok _ _ _ Hd).
  destruct ((file d =? f) && negb (valid d)); [injection Hrun as _ <-; now left|].
  destruct ((file d =? f) && valid d); [|injection Hrun as _ <-; now left].
  apply bind_inv in Hrun as [(? & w0 & Hp & Hrun)|(e & Hp & ->)].
  2:{ destruct (negb (pinCnt d =? 0)); inversion Hp; subst; now left. }
  assert (w0 = w) as -> by (destruct (negb (pinCnt d =? 0)); inversion Hp; reflexivity).
  clear Hp. rewrite Hfn in Hrun.
  destruct (dirty d) eqn:Hdirty.
  - assert (Hwb : ∀ r1 w1,
      (pg <- getPage i;; file_writePage (file d) pg;; modifyDesc i (set_dirty false)) w
        = (r1, w1) →
      (r1 = Throw UndefinedBehavior ∧ w1 = w) ∨
      ∃ pg, bufPool (mgr w) !! N.to_nat i = Some pg ∧
            fileCalls w1 = fileCalls w ++ [CallWritePage (file d) pg]).
    { intros r1 w1 H0.
      apply bind_inv in H0 as [(pg & w2 & Hg & H0)|(e & Hg & ->)];
        apply getPage_inv in Hg as [-> Hg].
      2:{ left. destruct Hg as [(? & _ & [=])|(_ & [= ->])]. auto. }
      destruct Hg as [(pg' & Hpg & [= <-])|(_ & [=])]. right. exists pg. split; [exact Hpg|].
      apply bind_inv in H0 as [(? & w3 & Hio & H0)|(e & Hio & ->)];
        apply lift_io_inv in Hio as [-> _]; [|reflexivity].
      apply modifyDesc_io in H0 as [_ ->]. reflexivity. }
    apply bind_inv in Hrun as [(? & w1 & H1 & Hrun)|(e & H1 & ->)];
      apply Hwb in H1 as [[E ->]|(pg & Hpg & Hlog)].
    + discriminate E.
    + right. right. apply flush_tail_io in Hrun as [_ ->]. eauto.
    + now left.
    + right. right. eauto.
  - right. left. split; [reflexivity|].
    unfold bind at 1 in Hrun. cbn [ret] in Hrun.
    now apply flush_tail_io in Hrun as [_ ->].
Qed.

Lemma flushFile_body_wrote f i (w : World Disk) r w' :
  Inv (mgr w) → i < numBufs (mgr w) → flushFile_body f i w = (r, w') → wrote_back w w'.
Proof.
  intros HI Hlt Hrun.
  destruct (wf_lookup (mgr w) i) as [d Hd]; [apply HI|exact Hlt|].
  pose proof (flushFile_body_step _ _ _ _ _ Hrun) as (_ & Hpool & _).
  pose proof (flushFile_body_rel _ _ _ _ _ Hrun) as (_ & _ & Hun).
  split; [exact Hpool|].
  destruct (flushFile_body_log _ _ _ _ _ _ Hd (wf_frameNo _ (proj1 HI) _ _ Hd) Hrun)
    as [[Hm Hl]|[[Hc Hl]|(pg & Hpg & Hl)]].
  - exists []. rewrite app_nil_r. split; [exact Hl|]. intros j dj Hj _ _. left. now rewrite Hm.
  - exists []. rewrite app_nil_r. split; [exact Hl|]. intros j dj Hj _ Hdj. left.
    rewrite Hun; [exact Hj|]. intros <-. congruence.
  - eexists. split; [exact Hl|]. intros j dj Hj _ _.
    destruct (decide (N.to_nat i = j)) as [<-|Hne].
    + right. exists pg. split; [exact Hpg|]. assert (dj = d) as -> by congruence.
      apply list_elem_of_singleton. reflexivity.
    + left. rewrite Hun; auto.
Qed.

Lemma flushFile_loop_wrote f n : ∀ i (w : World Disk) r w',
  Inv (mgr w) → i + N.of_nat n ≤ numBufs (mgr w) →
  flushFile_loop f n i w = (r, w') → wrote_back w w'.
Proof.
  induction n as [|n IH]; intros i w r w' HI Hle Hrun.
  - cbn in Hrun. injection Hrun as _ <-. apply wrote_back_refl.
  - cbn [flushFile_loop] in Hrun.
    apply bind_inv in Hrun as [(? & w1 & Hb & Hrun)|(e & Hb & ->)].
    2:{ eapply flushFile_body_wrote; [exact HI| |exact Hb]. lia. }
    pose proof (flushFile_body_rel _ _ _ _ _ Hb) as (Hn1 & _ & _).
    assert (HI1 : Inv (mgr w1)) by (eapply flushFile_body_Inv; [exact HI| |exact Hb]; lia).
    eapply wrote_back_trans.
    + eapply flushFile_body_wrote; [exact HI| |exact Hb]. lia.
    + eapply IH; [exact HI1| |exact Hrun]. rewrite Hn1. lia.
Qed.

Lemma flushFile_wrote f (w : World Disk) r w' :
  Inv (mgr w) → flushFile f w = (r, w') → wrote_back w w'.
Proof.
  intros HI Hrun. unfold flushFile in Hrun.
  unfold bind at 1 in Hrun. cbn [getNumBufs] in Hrun.
  eapply flushFile_loop_wrote; [exact HI| |exact Hrun]. lia.
Qed.

(** A [flushFile(f)] that returns met no pinned page of [f]. *)
Lemma flushFile_Ok_not_pinned f (w : World Disk) w' j d :
  Inv (mgr w) → flushFile f w = (Ok tt, w') →
  bufDescTable (mgr w) !! N.to_nat j = Some d → valid d = true → pinCnt d ≠ 0 →
  file d ≠ f.
Proof.
  intros HI Hrun Hd Hv Hp Hf.
  pose proof (wf_lookup_lt _ _ _ (proj1 HI) Hd) as Hlt.
  pose proof Hrun as Hrun'. unfold flushFile in Hrun'.
  unfold bind at 1 in Hrun'. cbn [getNumBufs] in Hrun'.
  replace (N.to_nat (numBufs (mgr w)))
    with (N.to_nat j + (N.to_nat (numBufs (mgr w)) - N.to_nat j))%nat in Hrun' by lia.
  rewrite flushFile_loop_app in Hrun'.
  apply bind_inv in Hrun' as [([] & w1 & Hpre & _)|(e & _ & [=])].
  destruct (flushFile_pinned_run _ _ _ _ _ HI Hd Hf Hv Hp Hpre) as [Hthrow _].
  rewrite Hthrow in Hrun. discriminate Hrun.
Qed.

Lemma destroy_rel_refl (w : World Disk) : destroy_rel w w.
Proof.
  split; [reflexivity|]. split; [apply wrote_back_refl|].
  intros j. destruct (bufDescTable (mgr w) !! j); auto using kept_or_cleared_refl.
Qed.

Lemma destroy_rel_trans (w1 w2 w3 : World Disk) :
  destroy_rel w1 w2 → destroy_rel w2 w3 → destroy_rel w1 w3.
Proof.
  intros (A1 & A2 & A3) (B1 & B2 & B3). split; [congruence|].
  split; [eapply wrote_back_trans; eassumption|].
  intros j. specialize (A3 j). specialize (B3 j).
  destruct (bufDescTable (mgr w1) !! j) as [d1|], (bufDescTable (mgr w2) !! j) as [d2|],
    (bufDescTable (mgr w3) !! j) as [d3|]; try tauto.
  destruct A3 as [K1 E1], B3 as [K2 E2]. split.
  - eapply kept_or_cleared_trans; eauto.
  - intros Hv Hp. specialize (E1 Hv Hp). subst d2. auto.
Qed.

Lemma flushFile_Ok_destroy_rel f (w : World Disk) w' :
  Inv (mgr w) → flushFile f w = (Ok tt, w') → destroy_rel w w'.
Proof.
  intros HI Hrun.
  pose proof (flushFile_step _ _ _ _ Hrun) as (Hn & _ & _ & _ & _ & _ & A7 & _).
  split; [exact Hn|]. split; [eapply flushFile_wrote; eauto|].
  intros j. specialize (A7 j).
  destruct (bufDescTable (mgr w) !! j) as [d|] eqn:Hd,
    (bufDescTable (mgr w') !! j) as [d'|]; try tauto.
  destruct A7 as [K E]. split; [exact K|]. intros Hv Hp. apply E.
  rewrite <- (Nat2N.id j) in Hd.
  exact (flushFile_Ok_not_pinned _ _ _ _ _ HI Hrun Hd Hv Hp).
Qed.

Lemma destroy_loop_clean n : ∀ i (w : World Disk),
  (N.to_nat i + n ≤ length (bufDescTable (mgr w)))%nat →
  (∀ (j : nat) d, bufDescTable (mgr w) !! j = Some d → dirty d = false) →
  destroy_loop n i w = (Ok tt, w).
Proof.
  induction n as [|n IH]; intros i w Hlen Hall; [reflexivity|].
  cbn [destroy_loop].
  destruct (lookup_lt_is_Some_2 (bufDescTable (mgr w)) (N.to_nat i)) as [d Hd]; [lia|].
  run (getDesc_Ok _ _ _ Hd). rewrite (Hall _ _ Hd).
  unfold bind at 1. cbn [ret]. apply IH; [lia|exact Hall].
Qed.

Lemma destroy_loop_Ok n : ∀ i (w : World Disk) w',
  Inv (mgr w) → i + N.of_nat n ≤ numBufs (mgr w) →
  destroy_loop n i w = (Ok tt, w') →
  Inv (mgr w') ∧ destroy_rel w w' ∧
  ∀ j d', i ≤ j < i + N.of_nat n →
    bufDescTable (mgr w') !! N.to_nat j = Some d' → dirty d' = false.
Proof.
  induction n as [|n IH]; intros i w w' HI Hle Hrun.
  - cbn in Hrun. injection Hrun as <-. split; [exact HI|].
    split; [apply destroy_rel_refl|]. intros; lia.
  - cbn [destroy_loop] in Hrun.
    destruct (wf_lookup (mgr w) i) as [d Hd]; [apply HI|lia|].
    run_in Hrun (getDesc_Ok _ _ _ Hd).
    apply bind_inv in Hrun as [([] & w1 & Hf & Hrun)|(e & _ & [=])].
    assert (H1 : Inv (mgr w1) ∧ destroy_rel w w1 ∧
                 ∃ d1, bufDescTable (mgr w1) !! N.to_nat i = Some d1 ∧ dirty d1 = false).
    { destruct (dirty d) eqn:Hdirty.
      - split; [eapply flushFile_Inv; eauto|].
        split; [eapply flushFile_Ok_destroy_rel; eauto|].
        exists (Clear d). split; [|reflexivity].
        eapply flushFile_Ok_cleared; eauto.
      - injection Hf as <-. split; [exact HI|]. split; [apply destroy_rel_refl|]. eauto. }
    destruct H1 as (HI1 & R1 & d1 & Hd1 & Hc1).
    pose proof R1 as (Hn1 & _).
    apply IH in Hrun as (HI' & R2 & Hrest); [|exact HI1|rewrite Hn1; lia].
    split; [exact HI'|]. split; [eapply destroy_rel_trans; eassumption|].
    intros j d' Hj Hd'.
    destruct (decide (j = i)) as [->|Hne]; [|apply (Hrest j); [lia|exact Hd']].
    destruct R2 as (_ & _ & F2). specialize (F2 (N.to_nat i)). rewrite Hd1, Hd' in F2.
    destruct F2 as [K _]. destruct (dirty d') eqn:Hdd; [|reflexivity].
    rewrite (kept_or_cleared_dirty _ _ K Hdd) in Hdd. congruence.
Qed.

(** X20.  When no descriptor is dirty the destructor calls nothing and
    changes nothing (apart from releasing the arrays, which the model does
    not cover). *)
Theorem BufMgr_destroy_nothing_dirty (w : World Disk) :
  length (bufDescTable (mgr w)) = N.to_nat (numBufs (mgr w)) →
  (∀ (j : nat) d, bufDescTable (mgr w) !! j = Some d → dirty d = false) →
  BufMgr_destroy w = (Ok tt, w).
Proof.
  intros Hlen Hall. unfold BufMgr_destroy. unfold bind at 1. cbn [getNumBufs].
  apply destroy_loop_clean; [|exact Hall]. rewrite Hlen. cbn. lia.
Qed.

(** X21.  From a consistent state, when the destructor's loop completes
    no descriptor is dirty any more, the frames' contents are what they
    were, and every page that was valid and dirty has been passed to
    [writePage] of its file. *)
Theorem BufMgr_destroy_flushes (w : World Disk) w' :
  Inv (mgr w) → BufMgr_destroy w = (Ok tt, w') →
  Inv (mgr w') ∧
  (∀ (j : nat) d', bufDescTable (mgr w') !! j = Some d' → dirty d' = false) ∧
  bufPool (mgr w') = bufPool (mgr w) ∧
  ∃ l, fileCalls w' = fileCalls w ++ l ∧
    ∀ (j : nat) d pg,
      bufDescTable (mgr w) !! j = Some d → valid d = true → dirty d = true →
      bufPool (mgr w) !! j = Some pg → CallWritePage (file d) pg ∈ l.
Proof.
  intros HI Hrun. unfold BufMgr_destroy in Hrun.
  unfold bind at 1 in Hrun. cbn [getNumBufs] in Hrun.
  apply destroy_loop_Ok in Hrun as (HI' & (Hn & (Hpool & l & Hl & Hw) & _) & Hclean);
    [|exact HI|lia].
  assert (Hnd : ∀ (j : nat) d', bufDescTable (mgr w') !! j = Some d' → dirty d' = false).
  { intros j d' Hd'. apply (Hclean (N.of_nat j)); [|now rewrite Nat2N.id].
    pose proof (lookup_lt_Some _ _ _ Hd') as Hlt.
    rewrite (wf_descs _ (proj1 HI')), Hn in Hlt. lia. }
  split; [exact HI'|]. split; [exact Hnd|]. split; [exact Hpool|].
  exists l. split; [exact Hl|]. intros j d pg Hd Hv Hdirty Hpg.
  destruct (Hw j d Hd Hv Hdirty) as [E|(pg' & Hpg' & Hin)].
  - apply Hnd in E. congruence.
  - congruence.
Qed.

(** X22.  From a consistent state with a page that is dirty and pinned,
    the destructor does not complete: an exception leaves it. *)
Theorem BufMgr_destroy_pinned_dirty (w : World Disk) (j : FrameId) (d : BufDesc) r w' :
  Inv (mgr w) →
  bufDescTable (mgr w) !! N.to_nat j = Some d →
  valid d = true → dirty d = true → pinCnt d ≠ 0 →
  BufMgr_destroy w = (r, w') → ∃ e, r = Throw e.
Proof.
  intros HI Hd Hv Hdirty Hp Hrun. destruct r as [[]|e]; [exfalso|eauto].
  unfold BufMgr_destroy in Hrun.
  unfold bind at 1 in Hrun. cbn [getNumBufs] in Hrun.
  pose proof (wf_lookup_lt _ _ _ (proj1 HI) Hd) as Hlt.
  apply destroy_loop_Ok in Hrun as (_ & (_ & _ & F) & Hclean); [|exact HI|lia].
  specialize (F (N.to_nat j)). rewrite Hd in F.
  destruct (bufDescTable (mgr w') !! N.to_nat j) as [d'|] eqn:Hd'; [|contradiction].
  destruct F as [_ E]. rewrite (E Hv Hp) in Hd'.
  pose proof (Hclean j d) as Hc. rewrite Hc in Hdirty; [discriminate| |exact Hd']. lia.
Qed.

(** ** [printSelf] *)

Lemma length_resident_entries l :
  length (resident_entries l) = length (filter (fun d => valid d = true) l).
Proof.
  induction l as [|d l IH]; [reflexivity|].
  rewrite filter_cons. unfold resident_entries in *. cbn [omap list_omap].
  destruct (valid d) eqn:Hv.
  - rewrite decide_True by reflexivity. cbn. now rewrite IH.
  - rewrite decide_False by discriminate. exact IH.
Qed.

Lemma elem_of_resident_entries l k fr :
  (k, fr) ∈ resident_entries l ↔
  ∃ d, d ∈ l ∧ valid d = true ∧ k = (file d, pageNo d) ∧ fr = frameNo d.
Proof.
  unfold resident_entries. rewrite list_elem_of_omap. split.
  - intros (d & Hin & Hd). exists d. destruct (valid d); [|discriminate].
    injection Hd as <- <-. auto.
  - intros (d & Hin & Hv & -> & ->). exists d. rewrite Hv. auto.
Qed.

Lemma NoDup_resident_entries l : NoDup (frameNo <$> l) → NoDup (resident_entries l).
Proof.
  induction l as [|d l IH]; [constructor|].
  rewrite fmap_cons, NoDup_cons. intros [Hnotin Hnd]. specialize (IH Hnd).
  unfold resident_entries in *. cbn [omap list_omap].
  destruct (valid d); [|exact IH]. apply NoDup_cons. split; [|exact IH].
  intros Hin. fold (resident_entries l) in Hin.
  apply elem_of_resident_entries in Hin as (d' & Hin & _ & _ & Hfr).
  apply Hnotin. rewrite Hfr. now apply list_elem_of_fmap_2.
Qed.

Lemma wf_NoDup_frameNo m : wf m → NoDup (frameNo <$> bufDescTable m).
Proof.
  intros Hwf. apply NoDup_alt. intros i j x Hi Hj.
  rewrite list_lookup_fmap in Hi, Hj.
  destruct (bufDescTable m !! i) as [di|] eqn:Hdi; [|discriminate].
  destruct (bufDescTable m !! j) as [dj|] eqn:Hdj; [|discriminate].
  injection Hi as Hi. injection Hj as Hj.
  rewrite <- (Nat2N.id i) in Hdi. rewrite <- (Nat2N.id j) in Hdj.
  apply (wf_frameNo _ Hwf) in Hdi, Hdj. lia.
Qed.

(** Under the invariant the table holds exactly the entries of the valid
    descriptors. *)
Lemma Inv_resident_entries m k fr :
  Inv m → (k, fr) ∈ resident_entries (bufDescTable m) ↔ hashTable m !! k = Some fr.
Proof.
  intros HI. rewrite elem_of_resident_entries. split.
  - intros (d & Hin & Hv & -> & ->).
    apply list_elem_of_lookup in Hin as [i Hi]. rewrite <- (Nat2N.id i) in Hi.
    pose proof (wf_frameNo _ (proj1 HI) _ _ Hi) as Hfn. rewrite Hfn.
    exact (proj1 (Inv_remove _ _ _ HI Hi Hv)).
  - intros Hk. destruct (Inv_table_lookup _ _ _ HI Hk) as (d & Hd & Hv & Hkey).
    exists d. split; [eapply list_elem_of_lookup_2; exact Hd|].
    split; [exact Hv|]. split; [congruence|].
    symmetry. exact (wf_frameNo _ (proj1 HI) _ _ Hd).
Qed.

Lemma valid_count_size m : Inv m → valid_count m = size (hashTable m).
Proof.
  intros HI. unfold valid_count.
  rewrite <- length_resident_entries, <- length_map_to_list.
  apply Permutation_length, NoDup_Permutation.
  - apply NoDup_resident_entries, wf_NoDup_frameNo, HI.
  - apply NoDup_map_to_list.
  - intros [k fr]. rewrite elem_of_map_to_list. now apply Inv_resident_entries.
Qed.

Lemma printSelf_loop_run n : ∀ i validFrames out (w : World Disk),
  (N.to_nat i + n = length (bufDescTable (mgr w)))%nat →
  (∀ fr d, bufDescTable (mgr w) !! N.to_nat fr = Some d → frameNo d = fr) →
  validFrames +
    N.of_nat (length (filter (fun d => valid d = true)
                             (drop (N.to_nat i) (bufDescTable (mgr w))))) ≤ INT_MAX →
  printSelf_loop n i validFrames out w =
  (Ok (validFrames +
         N.of_nat (length (filter (fun d => valid d = true)
                                  (drop (N.to_nat i) (bufDescTable (mgr w))))),
       out ++ frame_lines (drop (N.to_nat i) (bufDescTable (mgr w)))), w).
Proof.
  induction n as [|n IH]; intros i vf out w Hlen Hfn Hmax.
  - rewrite drop_ge by lia. cbn. now rewrite N.add_0_r, app_nil_r.
  - destruct (lookup_lt_is_Some_2 (bufDescTable (mgr w)) (N.to_nat i)) as [d Hd]; [lia|].
    rewrite (drop_S _ _ _ Hd) in Hmax |- *. rewrite filter_cons in Hmax |- *.
    cbn [printSelf_loop]. rewrite Hd.
    assert (Hi : N.to_nat (i + 1) = S (N.to_nat i)) by lia.
    unfold frame_lines. cbn [flat_map]. fold (frame_lines (drop (S (N.to_nat i))
                                                            (bufDescTable (mgr w)))).
    rewrite (Hfn _ _ Hd).
    destruct (valid d) eqn:Hv.
    + rewrite decide_True in Hmax |- * by reflexivity. cbn [length] in Hmax |- *.
      assert (Hne : (vf =? INT_MAX) = false) by (apply N.eqb_neq; lia).
      rewrite Hne, IH; rewrite ?Hi; [|lia|exact Hfn|lia].
      rewrite <- app_assoc. do 3 f_equal. lia.
    + rewrite decide_False in Hmax |- * by discriminate.
      rewrite IH; rewrite ?Hi; [|lia|exact Hfn|lia].
      now rewrite <- app_assoc.
Qed.

(** X23.  On a consistent manager of at most [INT_MAX] frames,
    [printSelf] prints the frame number and the descriptor of every frame in
    order, then as total of valid frames the number of entries of the hash
    table; it changes nothing. *)
Theorem printSelf_total (w : World Disk) :
  Inv (mgr w) → numBufs (mgr w) ≤ INT_MAX →
  printSelf w =
  (Ok (frame_lines (bufDescTable (mgr w)) ++
       [OutTotal (N.of_nat (size (hashTable (mgr w))))]), w).
Proof.
  intros HI Hmax. pose proof HI as (Hwf & _).
  pose proof (length_filter (fun d => valid d = true) (bufDescTable (mgr w))) as Hle.
  rewrite (wf_descs _ Hwf) in Hle.
  unfold printSelf. rewrite printSelf_loop_run.
  - change (N.to_nat 0) with 0%nat. rewrite drop_0, N.add_0_l, app_nil_l.
    fold (valid_count (mgr w)). now rewrite valid_count_size.
  - rewrite (wf_descs _ Hwf). cbn. lia.
  - exact (wf_frameNo _ Hwf).
  - change (N.to_nat 0) with 0%nat. rewrite drop_0. lia.
Qed.

(** ** [advanceClock]: a revolution of the hand *)

Lemma advance_n_run k : ∀ (w : World Disk),
  wf (mgr w) →
  ∃ w', advance_n k w = (Ok tt, w') ∧
        mgr w' = with_hand (ahead (mgr w) (N.of_nat k)) (mgr w) ∧
        clockAdvances w' = clockAdvances w + N.of_nat k ∧ same_io w w'.
Proof.
  induction k as [|k IH]; intros w Hwf.
  - exists w. split; [reflexivity|]. change (N.of_nat 0) with 0.
    rewrite (ahead_0 _ Hwf), N.add_0_r. split; [now destruct (mgr w)|].
    split; [reflexivity|apply same_io_refl].
  - cbn [advance_n].
    assert (Hn0 : numBufs (mgr w) ≠ 0) by (destruct Hwf; lia).
    run (advanceClock_Ok w Hn0). set (w1 := mkWorld _ _ _ _).
    assert (Hwf1 : wf (mgr w1)) by (apply wf_with_hand; [exact Hwf|exact (next_hand_lt _ Hwf)]).
    destruct (IH w1 Hwf1) as (w' & Hrun & Hm & Hc & Hio).
    exists w'. split; [exact Hrun|]. split; [|split; [|exact Hio]].
    + assert (Ha : ahead (mgr w1) (N.of_nat k) = ahead (mgr w) (N.of_nat (S k))).
      { rewrite <- (ahead_next _ (N.of_nat (S k)) Hwf) by lia.
        replace (N.of_nat (S k) - 1) with (N.of_nat k) by lia. reflexivity. }
      rewrite Hm, Ha. reflexivity.
    + rewrite Hc. subst w1. simpl_proj. lia.
Qed.

(** X24.  Calling [advanceClock] [k] times moves the hand [k] frames ahead
    (modulo [numBufs]) and touches nothing else; after [numBufs] calls the
    hand is back where it was, and after fewer calls (but at least one) it
    is elsewhere. *)
Theorem advanceClock_revolution (w : World Disk) (k : nat) :
  wf (mgr w) →
  ∃ w', advance_n k w = (Ok tt, w') ∧
        mgr w' = with_hand (ahead (mgr w) (N.of_nat k)) (mgr w) ∧
        (N.of_nat k = numBufs (mgr w) → mgr w' = mgr w) ∧
        (0 < N.of_nat k < numBufs (mgr w) → clockHand (mgr w') ≠ clockHand (mgr w)).
Proof.
  intros Hwf. destruct (advance_n_run k w Hwf) as (w' & Hrun & Hm & _).
  exists w'. split; [exact Hrun|]. split; [exact Hm|]. split.
  - intros Hk. rewrite Hm, Hk, (ahead_full _ Hwf). now destruct (mgr w).
  - intros Hk. rewrite Hm. simpl_proj. rewrite <- (ahead_full _ Hwf).
    apply ahead_inj; lia.
Qed.

(** ** The constructor *)

(** X25.  After the constructor and any sequence of calls of the public
    methods none of which was aborted by an error of a [File] (calls may
    have thrown the manager's own exceptions), the state is consistent:
    descriptors and hash table agree and no page is held by two frames. *)
Theorem reachable_states_consistent (bufs : N) (d0 : Disk) (cs : list Call) :
  0 < bufs < UINT32 - 1 →
  calls_ok cs (newWorld bufs d0) = true →
  Inv (mgr (run_calls cs (newWorld bufs d0))) ∧
  residency (mgr (run_calls cs (newWorld bufs d0))).
Proof.
  intros Hb Hok. pose proof (run_calls_Inv bufs d0 cs Hb Hok) as HI.
  split; [exact HI|now apply Inv_residency].
Qed.

(** X26.  On a new manager the first [allocBuf] returns frame 0 after one
    advance of the clock, without any call on a [File]; only the hand has
    moved. *)
Theorem allocBuf_first_frame (bufs : N) (d0 : Disk) :
  0 < bufs < UINT32 - 1 →
  allocBuf (newWorld bufs d0) =
  (Ok 0, mkWorld (with_hand 0 (BufMgr_new bufs)) d0 [] 1).
Proof.
  intros Hb. pose proof (BufMgr_new_Inv bufs Hb) as HI. pose proof HI as (Hwf & _).
  assert (Hnext : next_hand (BufMgr_new bufs) = 0).
  { unfold next_hand. cbn [clockHand numBufs BufMgr_new].
    replace ((bufs + UINT32 - 1) mod UINT32) with (bufs - 1).
    - rewrite (N.mod_small (bufs - 1 + 1)) by lia.
      replace (bufs - 1 + 1) with bufs by lia. apply N.Div0.mod_same.
    - symmetry. replace (bufs + UINT32 - 1) with (bufs - 1 + 1 * UINT32) by lia.
      rewrite N.Div0.mod_add. apply N.mod_small. lia. }
  destruct (wf_lookup (BufMgr_new bufs) 0 Hwf) as [d Hd]; [cbn; lia|].
  pose proof (BufMgr_new_lookup _ _ _ Hd) as [-> _].
  assert (Hn0 : numBufs (mgr (newWorld bufs d0)) ≠ 0) by (cbn; lia).
  assert (Hloop : allocBuf_loop (S (N.to_nat bufs)) 0 (newWorld bufs d0) =
                  (Ok (true, 0), mkWorld (with_hand 0 (BufMgr_new bufs)) d0 [] 1)).
  { cbn [allocBuf_loop]. run (advanceClock_Ok (newWorld bufs d0) Hn0).
    cbn [newWorld mgr disk fileCalls clockAdvances]. rewrite Hnext.
    unfold bind at 1. cbn [getHand mgr with_hand clockHand].
    assert (Hd1 : bufDescTable (mgr (mkWorld (with_hand 0 (BufMgr_new bufs)) d0 [] (0 + 1)))
                    !! N.to_nat 0 = Some (emptyDesc 0)) by exact Hd.
    run (getDesc_Ok _ _ _ Hd1). reflexivity. }
  unfold allocBuf. unfold bind at 1. cbn [getNumBufs newWorld mgr BufMgr_new numBufs].
  run Hloop. cbn [fst snd negb andb]. unfold bind at 1.
  cbn [getHand mgr with_hand clockHand].
  assert (Hd1 : bufDescTable (mgr (mkWorld (with_hand 0 (BufMgr_new bufs)) d0 [] 1))
                  !! N.to_nat 0 = Some (emptyDesc 0)) by exact Hd.
  run (modifyDesc_Ok _ Clear _ _ Hd1).
  cbn [ret]. f_equal. unfold with_mgr. simpl_proj. f_equal.
  change (Clear (emptyDesc 0)) with (emptyDesc 0).
  rewrite list_insert_id by exact Hd. reflexivity.
Qed.

(** ** A pool of pinned pages *)

Lemma allocBuf_exhausted_io (w : World Disk) :
  wf (mgr w) →
  (∀ fr d, bufDescTable (mgr w) !! N.to_nat fr = Some d → valid d = true ∧ pinCnt d ≠ 0) →
  ∃ w', allocBuf w = (Throw BufferExceededException, w') ∧
        hashTable (mgr w') = hashTable (mgr w) ∧ same_io w w'.
Proof.
  intros Hwf Hall. destruct (allocBuf_all_pinned w Hwf Hall) as (w' & Hrun & Ht & Hc).
  exists w'. split; [exact Hrun|]. split; [exact Ht|].
  destruct (allocBuf_io _ _ _ Hrun) as [Hio|(f & pg & _ & Hl)]; [exact Hio|].
  rewrite Hc in Hl. apply (f_equal length) in Hl. rewrite length_app in Hl. cbn in Hl. lia.
Qed.

(** X27.  When every frame holds a pinned page, [readPage] of a page that
    is not in the pool throws [BufferExceededException] before anything is
    read: no call is made on a [File] and the hash table is unchanged. *)
Theorem readPage_pool_exhausted (w : World Disk) (f : File) (p : PageId) :
  wf (mgr w) →
  (∀ fr d, bufDescTable (mgr w) !! N.to_nat fr = Some d → valid d = true ∧ pinCnt d ≠ 0) →
  hashTable (mgr w) !! (f, p) = None →
  ∃ w', readPage f p w = (Throw BufferExceededException, w') ∧
        hashTable (mgr w') = hashTable (mgr w) ∧ same_io w w'.
Proof.
  intros Hwf Hall Hk. destruct (allocBuf_exhausted_io w Hwf Hall) as (w' & Hrun & Ht & Hio).
  exists w'. split; [|auto]. rewrite (readPage_miss _ _ _ Hk).
  apply bind_Throw. exact Hrun.
Qed.

(** X28.  When every frame holds a pinned page, [allocPage] throws
    [BufferExceededException] before a page is allocated in the file: no
    call is made on a [File] and the hash table is unchanged. *)
Theorem allocPage_pool_exhausted (w : World Disk) (f : File) :
  wf (mgr w) →
  (∀ fr d, bufDescTable (mgr w) !! N.to_nat fr = Some d → valid d = true ∧ pinCnt d ≠ 0) →
  ∃ w', allocPage f w = (Throw BufferExceededException, w') ∧
        hashTable (mgr w') = hashTable (mgr w) ∧ same_io w w'.
Proof.
  intros Hwf Hall. destruct (allocBuf_exhausted_io w Hwf Hall) as (w' & Hrun & Ht & Hio).
  exists w'. split; [|auto]. unfold allocPage. apply bind_Throw. exact Hrun.
Qed.

End Proofs.

(** * The manager on concrete inputs *)

(** Closed facts are settled by evaluation. *)
Ltac by_eval := vm_compute; repeat split; reflexivity.

Lemma bufs_ok_1 : 0 < 1 < UINT32 - 1.
Proof. by_eval. Qed.
Lemma bufs_ok_2 : 0 < 2 < UINT32 - 1.
Proof. by_eval. Qed.
Lemma bufs_ok_3 : 0 < 3 < UINT32 - 1.
Proof. by_eval. Qed.

Lemma one_pinned_state_Inv : Inv (mgr one_pinned_state).
Proof.
  refine (run_calls_Inv 2 (simDisk 7 4 false) _ bufs_ok_2 _). by_eval.
Qed.

Lemma dirty_victim_state_Inv : Inv (mgr dirty_victim_state).
Proof.
  refine (run_calls_Inv 1 (simDisk 7 4 false) [CReadPage 7 1; CUnPinPage 7 1 true]
            bufs_ok_1 _).
  by_eval.
Qed.

Lemma flush_state_Inv : Inv (mgr flush_state).
Proof.
  refine (run_calls_Inv 3 (simDisk 7 4 false) _ bufs_ok_3 _). by_eval.
Qed.

Lemma all_referenced_state_Inv : Inv (mgr all_referenced_state).
Proof.
  refine (run_calls_Inv 2 (simDisk 7 4 false) _ bufs_ok_2 _). by_eval.
Qed.

Lemma pinned_dirty_state_Inv : Inv (mgr pinned_dirty_state).
Proof.
  refine (run_calls_Inv 1 (simDisk 7 4 false) _ bufs_ok_1 _). by_eval.
Qed.

(** C1 (the code departs from the claim).  Two frames, both valid with
    their reference bit set, frame 0 pinned and frame 1 not: [allocBuf]
    throws [BufferExceededException] although frame 1 has [pinCnt == 0].
    Its [numBufs + 1 = 3] advances clear the two reference bits and end on
    the pinned frame; a second call finds frame 1. *)
Lemma allocBuf_exhausted_with_unpinned_frame :
  Inv (mgr one_pinned_state) ∧
  bufDescTable (mgr one_pinned_state) = [resident 7 1 0 1 false true; resident 7 2 1 0 false true] ∧
  clockHand (mgr one_pinned_state) = 1 ∧
  fst (allocBuf one_pinned_state) = Throw BufferExceededException ∧
  clockAdvances (snd (allocBuf one_pinned_state)) = clockAdvances one_pinned_state + 3 ∧
  fst (readPage 7 3 one_pinned_state) = Throw BufferExceededException ∧
  fst (allocBuf (snd (allocBuf one_pinned_state))) = Ok 1.
Proof.
  split; [exact one_pinned_state_Inv|]. by_eval.
Qed.

(** C2 (the code departs from the claim).  One frame holding page 1 of
    file 7, dirty and unpinned, and a disk that refuses writes: [allocBuf]
    is aborted by the [File] error; the frame is still valid but its dirty
    bit is cleared and its entry is gone from the hash table.  Later, with
    the disk writable again, [allocBuf] selects the same frame and throws
    [HashNotFoundException]. *)
Lemma allocBuf_write_failure_unmaps_victim :
  Inv (mgr dirty_victim_state) ∧
  bufDescTable (mgr dirty_victim_state) = [resident 7 1 0 0 true false] ∧
  hashTable (mgr dirty_victim_state) !! (7, 1) = Some 0 ∧
  fst (allocBuf dirty_victim_state) = Throw (FileException 2) ∧
  bufDescTable (mgr (snd (allocBuf dirty_victim_state))) = [resident 7 1 0 0 false false] ∧
  hashTable (mgr (snd (allocBuf dirty_victim_state))) !! (7, 1) = None ∧
  fileCalls (snd (allocBuf dirty_victim_state)) =
    fileCalls dirty_victim_state ++ [CallWritePage 7 (mkPage 1 [])] ∧
  fst (allocBuf (with_disk (simDisk 7 4 false) (snd (allocBuf dirty_victim_state))))
    = Throw HashNotFoundException.
Proof.
  split; [exact dirty_victim_state_Inv|]. by_eval.
Qed.

(** C4 (the code departs from the claim).  On [dirty_victim_state] a
    [readPage(7, 2)] is aborted by the [File] error of the eviction
    write-back (the defect of C2) and leaves frame 0 valid without entry in
    the hash table.  The operations called next, [unPinPage(7, 1, false)]
    and [flushFile(8)], complete normally and change nothing: after each of
    them the descriptor of frame 0 is valid while no entry maps to the
    frame. *)
Lemma residency_lost_after_aborted_eviction :
  Inv (mgr dirty_victim_state) ∧
  fst (readPage 7 2 dirty_victim_state) = Throw (FileException 2) ∧
  run_call (CUnPinPage 7 1 false) (snd (readPage 7 2 dirty_victim_state))
    = (Ok tt, snd (readPage 7 2 dirty_victim_state)) ∧
  run_call (CFlushFile 8) (snd (readPage 7 2 dirty_victim_state))
    = (Ok tt, snd (readPage 7 2 dirty_victim_state)) ∧
  bufDescTable (mgr (snd (readPage 7 2 dirty_victim_state))) !! N.to_nat 0
    = Some (resident 7 1 0 0 false false) ∧
  hashTable (mgr (snd (readPage 7 2 dirty_victim_state))) !! (7, 1) = None ∧
  ¬ residency (mgr (snd (readPage 7 2 dirty_victim_state))).
Proof.
  assert (Hd : bufDescTable (mgr (snd (readPage 7 2 dirty_victim_state))) !! N.to_nat 0
               = Some (resident 7 1 0 0 false false)) by by_eval.
  assert (Hk : hashTable (mgr (snd (readPage 7 2 dirty_victim_state))) !! (7, 1) = None)
    by by_eval.
  split; [exact dirty_victim_state_Inv|].
  split; [by_eval|]. split; [by_eval|]. split; [by_eval|].
  split; [exact Hd|]. split; [exact Hk|].
  intros [Hres _]. destruct (Hres 0 _ Hd) as [Hentry _].
  pose proof (proj2 (Hentry eq_refl (7, 1)) eq_refl) as Hk'.
  rewrite Hk in Hk'. discriminate Hk'.
Qed.

(** C5 (the code departs from the claim).  In [one_pinned_state] page 3
    of file 7 is not resident and frame 1 holds an unpinned page, a frame
    [allocBuf] may take.  The first [readPage(7, 3)] throws
    [BufferExceededException] (the defect of C1: the scan stops one pass
    short); the second returns frame 1, whose [pinCnt] is then 1, not 2. *)
Lemma readPage_twice_with_unpinned_frame :
  Inv (mgr one_pinned_state) ∧
  hashTable (mgr one_pinned_state) !! (7, 3) = None ∧
  bufDescTable (mgr one_pinned_state) !! N.to_nat 1 = Some (resident 7 2 1 0 false true) ∧
  fst (readPage 7 3 one_pinned_state) = Throw BufferExceededException ∧
  fst (readPage 7 3 (snd (readPage 7 3 one_pinned_state))) = Ok 1 ∧
  bufDescTable (mgr (snd (readPage 7 3 (snd (readPage 7 3 one_pinned_state))))) !! N.to_nat 1
    = Some (resident 7 3 1 1 false false).
Proof.
  split; [exact one_pinned_state_Inv|]. by_eval.
Qed.



(** [readPage(7, 4)] on [flush_state] evicts page 1 and keeps the
    invariant. *)
Lemma operations_keep_residency_witness :
  Inv (mgr flush_state) ∧
  run_call (CReadPage 7 4) flush_state = (Ok tt, snd (run_call (CReadPage 7 4) flush_state)) ∧
  Inv (mgr (snd (run_call (CReadPage 7 4) flush_state))) ∧
  residency (mgr (snd (run_call (CReadPage 7 4) flush_state))).
Proof.
  assert (Hrun : run_call (CReadPage 7 4) flush_state
                 = (Ok tt, snd (run_call (CReadPage 7 4) flush_state))) by by_eval.
  split; [exact flush_state_Inv|]. split; [exact Hrun|].
  exact (operations_keep_residency (CReadPage 7 4) flush_state _ flush_state_Inv Hrun).
Defined.

(** A hit on [pinned_dirty_state]; two reads of page 1 on a new manager
    of two frames. *)
Lemma readPage_pins_witness :
  (hashTable (mgr pinned_dirty_state) !! (7, 1) = Some 0 ∧
   bufDescTable (mgr pinned_dirty_state) !! N.to_nat 0 = Some (resident 7 1 0 1 true true) ∧
   fst (readPage 7 1 pinned_dirty_state) = Ok 0 ∧
   bufDescTable (mgr (snd (readPage 7 1 pinned_dirty_state)))
     = [resident 7 1 0 2 true true]) ∧
  (Inv (mgr (newWorld 2 (simDisk 7 4 false))) ∧
   hashTable (mgr (newWorld 2 (simDisk 7 4 false))) !! (7, 1) = None ∧
   bufDescTable (mgr (newWorld 2 (simDisk 7 4 false))) !! N.to_nat 1 = Some (emptyDesc 1) ∧
   readPage 7 1 (newWorld 2 (simDisk 7 4 false))
     = (Ok 0, snd (readPage 7 1 (newWorld 2 (simDisk 7 4 false)))) ∧
   ∃ w2 d2,
     readPage 7 1 (snd (readPage 7 1 (newWorld 2 (simDisk 7 4 false)))) = (Ok 0, w2) ∧
     bufDescTable (mgr w2) !! N.to_nat 0 = Some d2 ∧ pinCnt d2 = 2).
Proof.
  destruct (readPage_pins pinned_dirty_state 7 1) as (Hhit & _ & _).
  destruct (readPage_pins (newWorld 2 (simDisk 7 4 false)) 7 1) as (_ & _ & Hmiss).
  assert (Hk : hashTable (mgr pinned_dirty_state) !! (7, 1) = Some 0) by by_eval.
  assert (Hd : bufDescTable (mgr pinned_dirty_state) !! N.to_nat 0
               = Some (resident 7 1 0 1 true true)) by by_eval.
  assert (HI : Inv (mgr (newWorld 2 (simDisk 7 4 false)))) by exact (BufMgr_new_Inv 2 bufs_ok_2).
  assert (Hk0 : hashTable (mgr (newWorld 2 (simDisk 7 4 false))) !! (7, 1) = None) by by_eval.
  assert (Hd1 : bufDescTable (mgr (newWorld 2 (simDisk 7 4 false))) !! N.to_nat 1
                = Some (emptyDesc 1)) by by_eval.
  assert (Hrun : readPage 7 1 (newWorld 2 (simDisk 7 4 false))
                 = (Ok 0, snd (readPage 7 1 (newWorld 2 (simDisk 7 4 false))))) by by_eval.
  split.
  - split; [exact Hk|]. split; [exact Hd|].
    rewrite (Hhit 0 _ Hk Hd). by_eval.
  - split; [exact HI|]. split; [exact Hk0|]. split; [exact Hd1|]. split; [exact Hrun|].
    destruct (Hmiss HI Hk0 (ex_intro _ 1 (ex_intro _ _ (conj Hd1 eq_refl))) _ _ Hrun)
      as [[c Hc]|(fr & w2 & d2 & Hr & Hrun2 & Hd2 & Hp & _)]; [discriminate Hc|].
    injection Hr as <-. exists w2, d2. auto.
Defined.

(** The three cases: page 4 is not resident in [flush_state], page 1 is
    there without pin, page 1 is pinned in [pinned_dirty_state]. *)
Lemma unPinPage_cases_witness :
  (hashTable (mgr flush_state) !! (7, 4) = None ∧
   unPinPage 7 4 true flush_state = (Ok tt, flush_state)) ∧
  (hashTable (mgr flush_state) !! (7, 1) = Some 0 ∧
   bufDescTable (mgr flush_state) !! N.to_nat 0 = Some (resident 7 1 0 0 false false) ∧
   unPinPage 7 1 true flush_state = (Throw (PageNotPinnedException 7 1 0), flush_state)) ∧
  (hashTable (mgr pinned_dirty_state) !! (7, 1) = Some 0 ∧
   bufDescTable (mgr pinned_dirty_state) !! N.to_nat 0 = Some (resident 7 1 0 1 true true) ∧
   ∃ d',
     unPinPage 7 1 false pinned_dirty_state =
       (Ok tt,
        with_mgr
          (with_descs (<[N.to_nat 0 := d']> (bufDescTable (mgr pinned_dirty_state)))
             (mgr pinned_dirty_state)) pinned_dirty_state) ∧
     pinCnt d' = 0 ∧ dirty d' = true).
Proof.
  assert (Hk4 : hashTable (mgr flush_state) !! (7, 4) = None) by by_eval.
  assert (Hk1 : hashTable (mgr flush_state) !! (7, 1) = Some 0) by by_eval.
  assert (Hd0 : bufDescTable (mgr flush_state) !! N.to_nat 0
                = Some (resident 7 1 0 0 false false)) by by_eval.
  assert (Hk : hashTable (mgr pinned_dirty_state) !! (7, 1) = Some 0) by by_eval.
  assert (Hd : bufDescTable (mgr pinned_dirty_state) !! N.to_nat 0
               = Some (resident 7 1 0 1 true true)) by by_eval.
  split; [|split].
  - split; [exact Hk4|]. exact (proj1 (unPinPage_cases flush_state 7 4 true) Hk4).
  - split; [exact Hk1|]. split; [exact Hd0|].
    exact (proj1 (proj2 (unPinPage_cases flush_state 7 1 true) 0 _ Hk1 Hd0) eq_refl).
  - split; [exact Hk|]. split; [exact Hd|].
    destruct (proj2 (proj2 (unPinPage_cases pinned_dirty_state 7 1 false) 0 _ Hk Hd)
                ltac:(discriminate)) as (d' & Hrun & Hp & Hdirty & _).
    exists d'. split; [exact Hrun|]. split; [exact Hp|exact Hdirty].
Defined.

(** Page 9 is not on the disk: reading it on a new manager fails after
    the frame has been allocated. *)
Lemma readPage_read_error_witness :
  hashTable (mgr (newWorld 1 (simDisk 7 4 false))) !! (7, 9) = None ∧
  allocBuf (newWorld 1 (simDisk 7 4 false))
    = (Ok 0, snd (allocBuf (newWorld 1 (simDisk 7 4 false)))) ∧
  fst (fs_readPage 7 9 (disk (snd (allocBuf (newWorld 1 (simDisk 7 4 false)))))) = IoFail 1 ∧
  fst (readPage 7 9 (newWorld 1 (simDisk 7 4 false))) = Throw (FileException 1) ∧
  (∃ d, bufDescTable (mgr (snd (allocBuf (newWorld 1 (simDisk 7 4 false))))) !! N.to_nat 0
        = Some d ∧ valid d = false) ∧
  hashTable (mgr (snd (allocBuf (newWorld 1 (simDisk 7 4 false))))) !! (7, 9) = None.
Proof.
  assert (Hk : hashTable (mgr (newWorld 1 (simDisk 7 4 false))) !! (7, 9) = None) by by_eval.
  assert (Ha : allocBuf (newWorld 1 (simDisk 7 4 false))
               = (Ok 0, snd (allocBuf (newWorld 1 (simDisk 7 4 false))))) by by_eval.
  assert (Hio : fst (fs_readPage 7 9 (disk (snd (allocBuf (newWorld 1 (simDisk 7 4 false))))))
                = IoFail 1) by by_eval.
  destruct (readPage_read_error _ _ 7 9 0 1 Hk Ha Hio) as (Hrun & Hfr & Hk').
  split; [exact Hk|]. split; [exact Ha|]. split; [exact Hio|].
  split; [now rewrite Hrun|]. split; [exact Hfr|exact Hk'].
Defined.

(** Every frame of [all_referenced_state] is valid, unpinned and
    referenced. *)
Lemma all_referenced_state_frames fr d :
  bufDescTable (mgr all_referenced_state) !! N.to_nat fr = Some d →
  valid d = true ∧ pinCnt d = 0 ∧ refbit d = true.
Proof.
  assert (E : bufDescTable (mgr all_referenced_state)
              = [resident 7 1 0 0 false true; resident 7 2 1 0 true true]) by by_eval.
  rewrite E. destruct (N.to_nat fr) as [|[|n]]; cbn.
  - intros [= <-]. auto.
  - intros [= <-]. auto.
  - discriminate.
Qed.

(** A new manager of three frames; a full turn on
    [all_referenced_state], two frames and three advances. *)
Lemma clock_full_turn_witness :
  (0 < 3 < UINT32 ∧
   clockHand (BufMgr_new 3) = 3 - 1 ∧
   ∃ w', advanceClock (mkWorld (BufMgr_new 3) (simDisk 7 4 false) [] 0) = (Ok tt, w') ∧
         clockHand (mgr w') = 0) ∧
  (Inv (mgr all_referenced_state) ∧
   (∀ fr d, bufDescTable (mgr all_referenced_state) !! N.to_nat fr = Some d →
            valid d = true ∧ pinCnt d = 0 ∧ refbit d = true) ∧
   ∃ r w',
     allocBuf all_referenced_state = (r, w') ∧
     clockAdvances w' = clockAdvances all_referenced_state + (2 + 1) ∧
     clockHand (mgr w') = 0 ∧ r = Ok 0).
Proof.
  destruct (@clock_full_turn SimDisk SimFS) as [Hnew Hturn].
  assert (Hb : 0 < 3 < UINT32) by by_eval.
  split.
  - split; [exact Hb|]. exact (Hnew 3 (simDisk 7 4 false) Hb).
  - split; [exact all_referenced_state_Inv|].
    split; [exact all_referenced_state_frames|].
    destruct (Hturn all_referenced_state all_referenced_state_Inv all_referenced_state_frames)
      as (r & w' & Hrun & Hadv & Hhand & _ & Hclean).
    exists r, w'. split; [exact Hrun|]. split; [exact Hadv|]. split; [exact Hhand|].
    exact (Hclean (resident 7 1 0 0 false true) ltac:(by_eval) eq_refl).
Defined.

(** C9 (as stated, refuted).  Page 1 of file 7 is resident and dirty in
    [dirty_victim_state] and the disk refuses writes: [disposePage(7, 1)]
    is aborted by the error of the write-back, which comes first; the only
    call it has made on the file is that [writePage], not [deletePage]. *)
Lemma disposePage_aborted_before_delete :
  ¬ disposePage_deletes_unconditionally 7 1 dirty_victim_state.
Proof.
  intros H.
  assert (Hrun : disposePage 7 1 dirty_victim_state
                 = (Throw (FileException 2), snd (disposePage 7 1 dirty_victim_state)))
    by by_eval.
  assert (Hlog : fileCalls (snd (disposePage 7 1 dirty_victim_state))
                 = fileCalls dirty_victim_state ++ [CallWritePage 7 (mkPage 1 [])])
    by by_eval.
  destruct (H _ _ Hrun) as [(l & Hl & Hin) _].
  rewrite Hlog in Hl. apply app_inv_head in Hl. subst l.
  apply list_elem_of_singleton in Hin. discriminate Hin.
Qed.

(** Page 4 not resident in [flush_state]; page 1 resident and dirty in
    [pinned_dirty_state]; a page allocated on a new manager and disposed
    of. *)
Lemma disposePage_deletes_witness :
  (hashTable (mgr flush_state) !! (7, 4) = None ∧
   ∃ r w', disposePage 7 4 flush_state = (r, w') ∧
           fileCalls w' = fileCalls flush_state ++ [CallDeletePage 7 4]) ∧
  (hashTable (mgr pinned_dirty_state) !! (7, 1) = Some 0 ∧
   bufDescTable (mgr pinned_dirty_state) !! N.to_nat 0 = Some (resident 7 1 0 1 true true) ∧
   bufPool (mgr pinned_dirty_state) !! N.to_nat 0 = Some (mkPage 1 []) ∧
   fst (fs_writePage 7 (mkPage 1 []) (disk pinned_dirty_state)) = IoOk tt ∧
   ∃ r w', disposePage 7 1 pinned_dirty_state = (r, w') ∧
           hashTable (mgr w') !! (7, 1) = None ∧
           bufDescTable (mgr w') !! N.to_nat 0 = Some (Clear (resident 7 1 0 1 true true)) ∧
           fileCalls w' =
             fileCalls pinned_dirty_state ++
             [CallWritePage 7 (mkPage 1 [])] ++ [CallDeletePage 7 1]) ∧
  (Inv (mgr (newWorld 1 (simDisk 7 4 false))) ∧
   allocPage 7 (newWorld 1 (simDisk 7 4 false))
     = (Ok (5, 0), snd (allocPage 7 (newWorld 1 (simDisk 7 4 false)))) ∧
   ∃ r w2,
     disposePage 7 5 (snd (allocPage 7 (newWorld 1 (simDisk 7 4 false)))) = (r, w2) ∧
     hashTable (mgr w2) !! (7, 5) = None ∧
     (∃ d, bufDescTable (mgr w2) !! N.to_nat 0 = Some (Clear d))).
Proof.
  assert (Hk4 : hashTable (mgr flush_state) !! (7, 4) = None) by by_eval.
  assert (Hk : hashTable (mgr pinned_dirty_state) !! (7, 1) = Some 0) by by_eval.
  assert (Hd : bufDescTable (mgr pinned_dirty_state) !! N.to_nat 0
               = Some (resident 7 1 0 1 true true)) by by_eval.
  assert (Hpg : bufPool (mgr pinned_dirty_state) !! N.to_nat 0 = Some (mkPage 1 []))
    by by_eval.
  assert (Hio : fst (fs_writePage 7 (mkPage 1 []) (disk pinned_dirty_state)) = IoOk tt)
    by by_eval.
  assert (HI : Inv (mgr (newWorld 1 (simDisk 7 4 false)))) by exact (BufMgr_new_Inv 1 bufs_ok_1).
  assert (Ha : allocPage 7 (newWorld 1 (simDisk 7 4 false))
               = (Ok (5, 0), snd (allocPage 7 (newWorld 1 (simDisk 7 4 false))))) by by_eval.
  split; [|split].
  - split; [exact Hk4|].
    destruct (proj1 (disposePage_deletes flush_state 7 4) Hk4) as (r & w' & Hrun & _ & _ & Hc).
    exists r, w'. auto.
  - split; [exact Hk|]. split; [exact Hd|]. split; [exact Hpg|]. split; [exact Hio|].
    destruct (proj1 (proj2 (disposePage_deletes pinned_dirty_state 7 1)) 0 _ _ Hk Hd Hpg
                (fun _ => Hio)) as (r & w' & Hrun & _ & Hnone & Hcl & Hc).
    exists r, w'. auto.
  - split; [exact HI|]. split; [exact Ha|].
    destruct (proj2 (proj2 (disposePage_deletes (newWorld 1 (simDisk 7 4 false)) 7 5)) 0 _ HI Ha)
      as (r & w2 & Hrun & _ & Hnone & Hcl & _).
    exists r, w2. auto.
Defined.

(** Page 1 is pinned and dirty in [pinned_dirty_state]. *)
Lemma disposePage_ignores_pins_witness :
  hashTable (mgr pinned_dirty_state) !! (7, 1) = Some 0 ∧
  bufDescTable (mgr pinned_dirty_state) !! N.to_nat 0 = Some (resident 7 1 0 1 true true) ∧
  bufPool (mgr pinned_dirty_state) !! N.to_nat 0 = Some (mkPage 1 []) ∧
  0 < pinCnt (resident 7 1 0 1 true true) ∧
  fst (disposePage 7 1 pinned_dirty_state) = Ok tt ∧
  fileCalls (snd (disposePage 7 1 pinned_dirty_state)) =
    fileCalls pinned_dirty_state ++ [CallWritePage 7 (mkPage 1 [])] ++ [CallDeletePage 7 1] ∧
  bufDescTable (mgr (snd (disposePage 7 1 pinned_dirty_state))) !! N.to_nat 0
    = Some (Clear (resident 7 1 0 1 true true)) ∧
  hashTable (mgr (snd (disposePage 7 1 pinned_dirty_state))) !! (7, 1) = None.
Proof.
  assert (Hk : hashTable (mgr pinned_dirty_state) !! (7, 1) = Some 0) by by_eval.
  assert (Hd : bufDescTable (mgr pinned_dirty_state) !! N.to_nat 0
               = Some (resident 7 1 0 1 true true)) by by_eval.
  assert (Hpg : bufPool (mgr pinned_dirty_state) !! N.to_nat 0 = Some (mkPage 1 []))
    by by_eval.
  assert (Hpin : 0 < pinCnt (resident 7 1 0 1 true true)) by by_eval.
  assert (Hwr : fst (fs_writePage 7 (mkPage 1 []) (disk pinned_dirty_state)) = IoOk tt)
    by by_eval.
  assert (Hdel : fst (fs_deletePage 7 1
                        (if dirty (resident 7 1 0 1 true true)
                         then snd (fs_writePage 7 (mkPage 1 []) (disk pinned_dirty_state))
                         else disk pinned_dirty_state)) = IoOk tt) by by_eval.
  destruct (disposePage_ignores_pins pinned_dirty_state 7 1 0 _ _ Hk Hd Hpg Hpin
              (fun _ => Hwr) Hdel) as (Hrun & Hcl & _ & _ & Hnone).
  split; [exact Hk|]. split; [exact Hd|]. split; [exact Hpg|]. split; [exact Hpin|].
  rewrite Hrun. cbn [fst snd mgr fileCalls].
  split; [reflexivity|]. split; [reflexivity|]. split; [exact Hcl|exact Hnone].
Defined.

(** * Further concrete runs *)

Lemma all_pinned_state_Inv : Inv (mgr all_pinned_state).
Proof.
  refine (run_calls_Inv 2 (simDisk 7 4 false) _ bufs_ok_2 _). by_eval.
Qed.

Lemma two_files_state_Inv : Inv (mgr two_files_state).
Proof.
  refine (run_calls_Inv 2 (twoFilesDisk false) _ bufs_ok_2 _). by_eval.
Qed.


Lemma stale_number_state_Inv : Inv (mgr stale_number_state).
Proof.
  refine (run_calls_Inv 2 (simDisk 7 4 false) [CReadPage 7 1] bufs_ok_2 _). by_eval.
Qed.

(** Every frame of [all_pinned_state] is valid and pinned. *)
Lemma all_pinned_state_frames fr d :
  bufDescTable (mgr all_pinned_state) !! N.to_nat fr = Some d →
  valid d = true ∧ pinCnt d ≠ 0.
Proof.
  assert (E : bufDescTable (mgr all_pinned_state)
              = [resident 7 1 0 1 false false; resident 7 2 1 1 false false]) by by_eval.
  rewrite E. destruct (N.to_nat fr) as [|[|n]]; cbn.
  - intros [= <-]. split; [reflexivity|discriminate].
  - intros [= <-]. split; [reflexivity|discriminate].
  - discriminate.
Qed.

(** Every frame of [flush_state] carries file 7 and is clean. *)
Lemma flush_state_frames (j : nat) d :
  bufDescTable (mgr flush_state) !! j = Some d → file d = 7 ∧ dirty d = false.
Proof.
  assert (E : bufDescTable (mgr flush_state)
              = [resident 7 1 0 0 false false; resident 7 2 1 1 false false;
                 resident 7 3 2 0 false false]) by by_eval.
  rewrite E. destruct j as [|[|[|n]]]; cbn.
  - intros [= <-]. auto.
  - intros [= <-]. auto.
  - intros [= <-]. auto.
  - discriminate.
Qed.

(** Both frames pinned: [allocBuf] gives up. *)
Lemma allocBuf_throws_when_all_pinned_witness :
  wf (mgr all_pinned_state) ∧
  ∃ w', allocBuf all_pinned_state = (Throw BufferExceededException, w') ∧
        hashTable (mgr w') = hashTable (mgr all_pinned_state) ∧
        fileCalls w' = fileCalls all_pinned_state.
Proof.
  split; [exact (proj1 all_pinned_state_Inv)|].
  exact (allocBuf_throws_when_all_pinned all_pinned_state (proj1 all_pinned_state_Inv)
           all_pinned_state_frames).
Defined.

(** Frame 1 of [stale_number_state] is invalid: [allocBuf] returns it. *)
Lemma allocBuf_uses_free_frame_witness :
  Inv (mgr stale_number_state) ∧
  bufDescTable (mgr stale_number_state) !! N.to_nat 1 = Some (emptyDesc 1) ∧
  allocBuf stale_number_state = (Ok 1, snd (allocBuf stale_number_state)) ∧
  ((∃ fr', Ok 1 = Ok fr') ∨ (∃ c, @Ok FrameId 1 = Throw (FileException c))).
Proof.
  assert (Hd : bufDescTable (mgr stale_number_state) !! N.to_nat 1 = Some (emptyDesc 1))
    by by_eval.
  assert (Hrun : allocBuf stale_number_state = (Ok 1, snd (allocBuf stale_number_state)))
    by by_eval.
  split; [exact stale_number_state_Inv|]. split; [exact Hd|]. split; [exact Hrun|].
  exact (allocBuf_uses_free_frame stale_number_state 1 (emptyDesc 1) _ _
           stale_number_state_Inv Hd eq_refl Hrun).
Defined.

(** On [one_pinned_state], two frames, the hand advances three times. *)
Lemma allocBuf_advances_bound_witness :
  allocBuf one_pinned_state
    = (Throw BufferExceededException, snd (allocBuf one_pinned_state)) ∧
  clockAdvances one_pinned_state ≤ clockAdvances (snd (allocBuf one_pinned_state))
    ≤ clockAdvances one_pinned_state + (numBufs (mgr one_pinned_state) + 1).
Proof.
  assert (Hrun : allocBuf one_pinned_state
                 = (Throw BufferExceededException, snd (allocBuf one_pinned_state)))
    by by_eval.
  split; [exact Hrun|].
  exact (allocBuf_advances_bound one_pinned_state _ _ Hrun).
Defined.

(** The only frame of [dirty_victim_state] is dirty and the disk refuses
    writes. *)
Lemma allocBuf_failed_write_back_witness :
  Inv (mgr dirty_victim_state) ∧
  allocBuf dirty_victim_state
    = (Throw (FileException 2), snd (allocBuf dirty_victim_state)) ∧
  ∃ d,
    bufDescTable (mgr (snd (allocBuf dirty_victim_state)))
      !! N.to_nat (clockHand (mgr (snd (allocBuf dirty_victim_state))))
      = Some (set_dirty false d) ∧
    valid d = true ∧ dirty d = true ∧ pinCnt d = 0 ∧
    hashTable (mgr dirty_victim_state) !! (file d, pageNo d)
      = Some (clockHand (mgr (snd (allocBuf dirty_victim_state)))) ∧
    hashTable (mgr (snd (allocBuf dirty_victim_state))) !! (file d, pageNo d) = None.
Proof.
  assert (Hrun : allocBuf dirty_victim_state
                 = (Throw (FileException 2), snd (allocBuf dirty_victim_state)))
    by by_eval.
  split; [exact dirty_victim_state_Inv|]. split; [exact Hrun|].
  exact (allocBuf_failed_write_back dirty_victim_state 2 _ dirty_victim_state_Inv Hrun).
Defined.

(** On [two_files_state] the victim is frame 0, page 1 of file 7. *)
Lemma allocBuf_returns_cleared_frame_witness :
  Inv (mgr two_files_state) ∧
  allocBuf two_files_state = (Ok 0, snd (allocBuf two_files_state)) ∧
  Inv (mgr (snd (allocBuf two_files_state))) ∧
  0 = clockHand (mgr (snd (allocBuf two_files_state))) ∧
  0 < numBufs (mgr (snd (allocBuf two_files_state))) ∧
  (∃ d, bufDescTable (mgr (snd (allocBuf two_files_state))) !! N.to_nat 0
        = Some (Clear d)) ∧
  no_entry (hashTable (mgr (snd (allocBuf two_files_state)))) 0 ∧
  (∀ k x, hashTable (mgr (snd (allocBuf two_files_state))) !! k = Some x →
          hashTable (mgr two_files_state) !! k = Some x).
Proof.
  assert (Hrun : allocBuf two_files_state = (Ok 0, snd (allocBuf two_files_state)))
    by by_eval.
  split; [exact two_files_state_Inv|]. split; [exact Hrun|].
  exact (allocBuf_returns_cleared_frame two_files_state 0 _ two_files_state_Inv Hrun).
Defined.

Lemma allocBuf_at_most_one_write_witness :
  allocBuf two_files_state = (Ok 0, snd (allocBuf two_files_state)) ∧
  at_most_one_write two_files_state (snd (allocBuf two_files_state)).
Proof.
  assert (Hrun : allocBuf two_files_state = (Ok 0, snd (allocBuf two_files_state)))
    by by_eval.
  split; [exact Hrun|].
  exact (allocBuf_at_most_one_write two_files_state _ _ Hrun).
Defined.


(** The first read on a new manager of two frames. *)
Lemma readPage_miss_installs_witness :
  hashTable (mgr (newWorld 2 (simDisk 7 4 false))) !! (7, 1) = None ∧
  readPage 7 1 (newWorld 2 (simDisk 7 4 false))
    = (Ok 0, snd (readPage 7 1 (newWorld 2 (simDisk 7 4 false)))) ∧
  ∃ w1 pg d,
    allocBuf (newWorld 2 (simDisk 7 4 false)) = (Ok 0, w1) ∧
    fst (fs_readPage 7 1 (disk w1)) = IoOk pg ∧
    disk (snd (readPage 7 1 (newWorld 2 (simDisk 7 4 false))))
      = snd (fs_readPage 7 1 (disk w1)) ∧
    fileCalls (snd (readPage 7 1 (newWorld 2 (simDisk 7 4 false))))
      = fileCalls w1 ++ [CallReadPage 7 1] ∧
    bufPool (mgr (snd (readPage 7 1 (newWorld 2 (simDisk 7 4 false))))) !! N.to_nat 0
      = Some pg ∧
    hashTable (mgr (snd (readPage 7 1 (newWorld 2 (simDisk 7 4 false)))))
      = <[(7, 1) := 0]> (hashTable (mgr w1)) ∧
    bufDescTable (mgr (snd (readPage 7 1 (newWorld 2 (simDisk 7 4 false))))) !! N.to_nat 0
      = Some d ∧
    valid d = true ∧ pinCnt d = 1 ∧ dirty d = false ∧ file d = 7 ∧ pageNo d = 1.
Proof.
  assert (Hk : hashTable (mgr (newWorld 2 (simDisk 7 4 false))) !! (7, 1) = None) by by_eval.
  assert (Hrun : readPage 7 1 (newWorld 2 (simDisk 7 4 false))
                 = (Ok 0, snd (readPage 7 1 (newWorld 2 (simDisk 7 4 false))))) by by_eval.
  split; [exact Hk|]. split; [exact Hrun|].
  exact (readPage_miss_installs (newWorld 2 (simDisk 7 4 false)) 7 1 0 _ Hk Hrun).
Defined.

(** The first [allocPage] on a new manager: the file hands out page 5. *)
Lemma allocPage_installs_witness :
  allocPage 7 (newWorld 2 (simDisk 7 4 false))
    = (Ok (5, 0), snd (allocPage 7 (newWorld 2 (simDisk 7 4 false)))) ∧
  ∃ w1 pg d,
    allocBuf (newWorld 2 (simDisk 7 4 false)) = (Ok 0, w1) ∧
    fst (fs_allocatePage 7 (disk w1)) = IoOk pg ∧
    5 = page_number pg ∧
    disk (snd (allocPage 7 (newWorld 2 (simDisk 7 4 false))))
      = snd (fs_allocatePage 7 (disk w1)) ∧
    fileCalls (snd (allocPage 7 (newWorld 2 (simDisk 7 4 false))))
      = fileCalls w1 ++ [CallAllocatePage 7] ∧
    bufPool (mgr (snd (allocPage 7 (newWorld 2 (simDisk 7 4 false))))) !! N.to_nat 0
      = Some pg ∧
    hashTable (mgr w1) !! (7, 5) = None ∧
    hashTable (mgr (snd (allocPage 7 (newWorld 2 (simDisk 7 4 false)))))
      = <[(7, 5) := 0]> (hashTable (mgr w1)) ∧
    bufDescTable (mgr (snd (allocPage 7 (newWorld 2 (simDisk 7 4 false))))) !! N.to_nat 0
      = Some d ∧
    valid d = true ∧ pinCnt d = 1 ∧ dirty d = false ∧ file d = 7 ∧ pageNo d = 5.
Proof.
  assert (Hrun : allocPage 7 (newWorld 2 (simDisk 7 4 false))
                 = (Ok (5, 0), snd (allocPage 7 (newWorld 2 (simDisk 7 4 false)))))
    by by_eval.
  split; [exact Hrun|].
  exact (allocPage_installs (newWorld 2 (simDisk 7 4 false)) 7 5 0 _ Hrun).
Defined.

(** On [stale_number_state] the file hands out number 1, which is
    resident in frame 0; the frame taken is frame 1. *)
Lemma allocPage_resident_number_witness :
  Inv (mgr stale_number_state) ∧
  allocBuf stale_number_state = (Ok 1, snd (allocBuf stale_number_state)) ∧
  fst (fs_allocatePage 7 (disk (snd (allocBuf stale_number_state)))) = IoOk (mkPage 1 []) ∧
  hashTable (mgr (snd (allocBuf stale_number_state))) !! (7, page_number (mkPage 1 []))
    = Some 0 ∧
  fst (allocPage 7 stale_number_state) = Throw HashAlreadyPresentException ∧
  (∃ d, bufDescTable (mgr (snd (allocBuf stale_number_state))) !! N.to_nat 1 = Some d ∧
        valid d = false) ∧
  0 ≠ 1.
Proof.
  assert (Ha : allocBuf stale_number_state = (Ok 1, snd (allocBuf stale_number_state)))
    by by_eval.
  assert (Hio : fst (fs_allocatePage 7 (disk (snd (allocBuf stale_number_state))))
                = IoOk (mkPage 1 [])) by by_eval.
  assert (Hk : hashTable (mgr (snd (allocBuf stale_number_state)))
                 !! (7, page_number (mkPage 1 [])) = Some 0) by by_eval.
  destruct (allocPage_resident_number stale_number_state _ 7 1 0 (mkPage 1 [])
              stale_number_state_Inv Ha Hio Hk) as (Hrun & Hfr & Hne).
  split; [exact stale_number_state_Inv|]. split; [exact Ha|]. split; [exact Hio|].
  split; [exact Hk|]. split; [now rewrite Hrun|]. split; [exact Hfr|exact Hne].
Defined.

(** Page 1 of [flush_state] read and unpinned as modified. *)
Lemma readPage_unPinPage_resident_witness :
  hashTable (mgr flush_state) !! (7, 1) = Some 0 ∧
  bufDescTable (mgr flush_state) !! N.to_nat 0 = Some (resident 7 1 0 0 false false) ∧
  (readPage 7 1 ;; unPinPage 7 1 true)%bufmgr flush_state =
    (Ok tt,
     with_mgr
       (with_descs
          (<[N.to_nat 0 := resident 7 1 0 0 true true]> (bufDescTable (mgr flush_state)))
          (mgr flush_state)) flush_state).
Proof.
  assert (Hk : hashTable (mgr flush_state) !! (7, 1) = Some 0) by by_eval.
  assert (Hd : bufDescTable (mgr flush_state) !! N.to_nat 0
               = Some (resident 7 1 0 0 false false)) by by_eval.
  split; [exact Hk|]. split; [exact Hd|].
  exact (readPage_unPinPage_resident flush_state 7 1 true 0 _ Hk Hd).
Defined.

(** [flushFile(7)] on [two_files_state]: the frame of file 8 stays. *)
Lemma flushFile_other_files_untouched_witness :
  flushFile 7 two_files_state = (Ok tt, snd (flushFile 7 two_files_state)) ∧
  bufDescTable (mgr two_files_state) !! N.to_nat 1 = Some (resident 8 1 1 1 false false) ∧
  bufDescTable (mgr (snd (flushFile 7 two_files_state))) !! N.to_nat 1
    = Some (resident 8 1 1 1 false false) ∧
  hashTable (mgr (snd (flushFile 7 two_files_state))) !! (8, 1)
    = hashTable (mgr two_files_state) !! (8, 1) ∧
  bufPool (mgr (snd (flushFile 7 two_files_state))) = bufPool (mgr two_files_state) ∧
  clockHand (mgr (snd (flushFile 7 two_files_state))) = clockHand (mgr two_files_state) ∧
  ∃ l, fileCalls (snd (flushFile 7 two_files_state)) = fileCalls two_files_state ++ l ∧
       only_writes l.
Proof.
  assert (Hrun : flushFile 7 two_files_state = (Ok tt, snd (flushFile 7 two_files_state)))
    by by_eval.
  assert (Hd : bufDescTable (mgr two_files_state) !! N.to_nat 1
               = Some (resident 8 1 1 1 false false)) by by_eval.
  destruct (flushFile_other_files_untouched two_files_state 7 _ _ Hrun)
    as (Hframes & Htable & Hrest).
  split; [exact Hrun|]. split; [exact Hd|].
  split; [exact (Hframes 1 _ Hd ltac:(discriminate))|].
  split; [exact (Htable 8 1 ltac:(discriminate))|exact Hrest].
Defined.

Lemma flushFile_returns_file_gone_witness :
  Inv (mgr two_files_state) ∧
  flushFile 7 two_files_state = (Ok tt, snd (flushFile 7 two_files_state)) ∧
  bufDescTable (mgr two_files_state) !! N.to_nat 0 = Some (resident 7 1 0 0 true false) ∧
  Inv (mgr (snd (flushFile 7 two_files_state))) ∧
  bufDescTable (mgr (snd (flushFile 7 two_files_state))) !! N.to_nat 0
    = Some (Clear (resident 7 1 0 0 true false)) ∧
  (∀ p, hashTable (mgr (snd (flushFile 7 two_files_state))) !! (7, p) = None).
Proof.
  assert (Hrun : flushFile 7 two_files_state = (Ok tt, snd (flushFile 7 two_files_state)))
    by by_eval.
  assert (Hd : bufDescTable (mgr two_files_state) !! N.to_nat 0
               = Some (resident 7 1 0 0 true false)) by by_eval.
  destruct (flushFile_returns_file_gone two_files_state 7 _ two_files_state_Inv Hrun)
    as (HI & Hframes & Htable).
  split; [exact two_files_state_Inv|]. split; [exact Hrun|]. split; [exact Hd|].
  split; [exact HI|]. split; [exact (Hframes 0 _ Hd eq_refl)|exact Htable].
Defined.

(** No frame of [flush_state] carries file 8. *)
Lemma flushFile_nothing_resident_witness :
  length (bufDescTable (mgr flush_state)) = N.to_nat (numBufs (mgr flush_state)) ∧
  flushFile 8 flush_state = (Ok tt, flush_state).
Proof.
  assert (Hlen : length (bufDescTable (mgr flush_state))
                 = N.to_nat (numBufs (mgr flush_state))) by by_eval.
  assert (Hall : ∀ j dj, bufDescTable (mgr flush_state) !! N.to_nat j = Some dj →
                         file dj ≠ 8).
  { intros j dj Hd. destruct (flush_state_frames _ _ Hd) as [-> _]. discriminate. }
  split; [exact Hlen|].
  exact (flushFile_nothing_resident flush_state 8 Hlen Hall).
Defined.


(** [disposePage(7, 1)] on [dirty_victim_state], whose disk refuses
    writes. *)
Lemma disposePage_write_failure_witness :
  hashTable (mgr dirty_victim_state) !! (7, 1) = Some 0 ∧
  bufDescTable (mgr dirty_victim_state) !! N.to_nat 0 = Some (resident 7 1 0 0 true false) ∧
  bufPool (mgr dirty_victim_state) !! N.to_nat 0 = Some (mkPage 1 []) ∧
  fst (fs_writePage 7 (mkPage 1 []) (disk dirty_victim_state)) = IoFail 2 ∧
  ∃ w',
    disposePage 7 1 dirty_victim_state = (Throw (FileException 2), w') ∧
    fileCalls w' = fileCalls dirty_victim_state ++ [CallWritePage 7 (mkPage 1 [])] ∧
    hashTable (mgr w') = hashTable (mgr dirty_victim_state) ∧
    bufDescTable (mgr w') !! N.to_nat 0 = Some (set_dirty false (resident 7 1 0 0 true false)).
Proof.
  assert (Hk : hashTable (mgr dirty_victim_state) !! (7, 1) = Some 0) by by_eval.
  assert (Hd : bufDescTable (mgr dirty_victim_state) !! N.to_nat 0
               = Some (resident 7 1 0 0 true false)) by by_eval.
  assert (Hpg : bufPool (mgr dirty_victim_state) !! N.to_nat 0 = Some (mkPage 1 []))
    by by_eval.
  assert (Hio : fst (fs_writePage 7 (mkPage 1 []) (disk dirty_victim_state)) = IoFail 2)
    by by_eval.
  split; [exact Hk|]. split; [exact Hd|]. split; [exact Hpg|]. split; [exact Hio|].
  exact (disposePage_write_failure dirty_victim_state 7 1 0 _ _ 2 Hk Hd Hpg eq_refl Hio).
Defined.

(** On [two_files_state] page 1 of file 8 is pinned in frame 1 while frame
    0 is the victim. *)
Lemma allocBuf_keeps_pinned_pages_witness :
  Inv (mgr two_files_state) ∧
  bufDescTable (mgr two_files_state) !! N.to_nat 1 = Some (resident 8 1 1 1 false false) ∧
  allocBuf two_files_state = (Ok 0, snd (allocBuf two_files_state)) ∧
  pinned_page_kept (mgr two_files_state) 1 (resident 8 1 1 1 false false)
                   (mgr (snd (allocBuf two_files_state))).
Proof.
  assert (Hd : bufDescTable (mgr two_files_state) !! N.to_nat 1
               = Some (resident 8 1 1 1 false false)) by by_eval.
  assert (Hrun : allocBuf two_files_state = (Ok 0, snd (allocBuf two_files_state)))
    by by_eval.
  split; [exact two_files_state_Inv|]. split; [exact Hd|]. split; [exact Hrun|].
  exact (allocBuf_keeps_pinned_pages two_files_state 1 _ _ _ two_files_state_Inv Hd
           eq_refl ltac:(discriminate) Hrun).
Defined.



(** Nothing is dirty in [flush_state]. *)
Lemma BufMgr_destroy_nothing_dirty_witness :
  length (bufDescTable (mgr flush_state)) = N.to_nat (numBufs (mgr flush_state)) ∧
  BufMgr_destroy flush_state = (Ok tt, flush_state).
Proof.
  assert (Hlen : length (bufDescTable (mgr flush_state))
                 = N.to_nat (numBufs (mgr flush_state))) by by_eval.
  split; [exact Hlen|].
  exact (BufMgr_destroy_nothing_dirty flush_state Hlen
           (fun j d Hd => proj2 (flush_state_frames j d Hd))).
Defined.

(** The destructor on [two_files_state] writes page 1 of file 7. *)
Lemma BufMgr_destroy_flushes_witness :
  Inv (mgr two_files_state) ∧
  BufMgr_destroy two_files_state = (Ok tt, snd (BufMgr_destroy two_files_state)) ∧
  bufDescTable (mgr two_files_state) !! 0%nat = Some (resident 7 1 0 0 true false) ∧
  bufPool (mgr two_files_state) !! 0%nat = Some (mkPage 1 []) ∧
  Inv (mgr (snd (BufMgr_destroy two_files_state))) ∧
  (∀ (j : nat) d', bufDescTable (mgr (snd (BufMgr_destroy two_files_state))) !! j = Some d' →
                   dirty d' = false) ∧
  bufPool (mgr (snd (BufMgr_destroy two_files_state))) = bufPool (mgr two_files_state) ∧
  ∃ l, fileCalls (snd (BufMgr_destroy two_files_state)) = fileCalls two_files_state ++ l ∧
       CallWritePage 7 (mkPage 1 []) ∈ l.
Proof.
  assert (Hrun : BufMgr_destroy two_files_state
                 = (Ok tt, snd (BufMgr_destroy two_files_state))) by by_eval.
  assert (Hd : bufDescTable (mgr two_files_state) !! 0%nat
               = Some (resident 7 1 0 0 true false)) by by_eval.
  assert (Hpg : bufPool (mgr two_files_state) !! 0%nat = Some (mkPage 1 [])) by by_eval.
  destruct (BufMgr_destroy_flushes two_files_state _ two_files_state_Inv Hrun)
    as (HI & Hclean & Hpool & l & Hl & Hw).
  split; [exact two_files_state_Inv|]. split; [exact Hrun|]. split; [exact Hd|].
  split; [exact Hpg|]. split; [exact HI|]. split; [exact Hclean|]. split; [exact Hpool|].
  exists l. split; [exact Hl|].
  exact (Hw 0%nat _ _ Hd eq_refl eq_refl Hpg).
Defined.

(** The only page of [pinned_dirty_state] is dirty and pinned. *)
Lemma BufMgr_destroy_pinned_dirty_witness :
  Inv (mgr pinned_dirty_state) ∧
  bufDescTable (mgr pinned_dirty_state) !! N.to_nat 0 = Some (resident 7 1 0 1 true true) ∧
  BufMgr_destroy pinned_dirty_state
    = (Throw (PagePinnedException 7 1 0), snd (BufMgr_destroy pinned_dirty_state)) ∧
  ∃ e, @Throw unit (PagePinnedException 7 1 0) = Throw e.
Proof.
  assert (Hd : bufDescTable (mgr pinned_dirty_state) !! N.to_nat 0
               = Some (resident 7 1 0 1 true true)) by by_eval.
  assert (Hrun : BufMgr_destroy pinned_dirty_state
                 = (Throw (PagePinnedException 7 1 0),
                    snd (BufMgr_destroy pinned_dirty_state))) by by_eval.
  split; [exact pinned_dirty_state_Inv|]. split; [exact Hd|]. split; [exact Hrun|].
  exact (BufMgr_destroy_pinned_dirty pinned_dirty_state 0 _ _ _ pinned_dirty_state_Inv Hd
           eq_refl eq_refl ltac:(discriminate) Hrun).
Defined.

(** [printSelf] on [flush_state]: three frames, three entries. *)
Lemma printSelf_total_witness :
  Inv (mgr flush_state) ∧ numBufs (mgr flush_state) ≤ INT_MAX ∧
  printSelf flush_state =
  (Ok (frame_lines (bufDescTable (mgr flush_state)) ++
       [OutTotal (N.of_nat (size (hashTable (mgr flush_state))))]), flush_state).
Proof.
  assert (Hmax : numBufs (mgr flush_state) ≤ INT_MAX) by (vm_compute; discriminate).
  split; [exact flush_state_Inv|]. split; [exact Hmax|].
  exact (printSelf_total flush_state flush_state_Inv Hmax).
Defined.

(** Three advances on the three frames of [flush_state]. *)
Lemma advanceClock_revolution_witness :
  wf (mgr flush_state) ∧
  ∃ w', advance_n 3 flush_state = (Ok tt, w') ∧
        mgr w' = with_hand (ahead (mgr flush_state) (N.of_nat 3)) (mgr flush_state) ∧
        (N.of_nat 3 = numBufs (mgr flush_state) → mgr w' = mgr flush_state) ∧
        (0 < N.of_nat 3 < numBufs (mgr flush_state) →
         clockHand (mgr w') ≠ clockHand (mgr flush_state)).
Proof.
  split; [exact (proj1 flush_state_Inv)|].
  exact (advanceClock_revolution flush_state 3 (proj1 flush_state_Inv)).
Defined.

(** A history with two calls that throw the manager's own exceptions. *)
Lemma reachable_states_consistent_witness :
  0 < 2 < UINT32 - 1 ∧
  calls_ok [CReadPage 7 1; CReadPage 7 2; CReadPage 7 3; CFlushFile 7; CUnPinPage 7 1 true]
           (newWorld 2 (simDisk 7 4 false)) = true ∧
  Inv (mgr (run_calls [CReadPage 7 1; CReadPage 7 2; CReadPage 7 3; CFlushFile 7;
                       CUnPinPage 7 1 true] (newWorld 2 (simDisk 7 4 false)))) ∧
  residency (mgr (run_calls [CReadPage 7 1; CReadPage 7 2; CReadPage 7 3; CFlushFile 7;
                             CUnPinPage 7 1 true] (newWorld 2 (simDisk 7 4 false)))).
Proof.
  assert (Hok : calls_ok [CReadPage 7 1; CReadPage 7 2; CReadPage 7 3; CFlushFile 7;
                          CUnPinPage 7 1 true] (newWorld 2 (simDisk 7 4 false)) = true)
    by by_eval.
  split; [exact bufs_ok_2|]. split; [exact Hok|].
  exact (reachable_states_consistent 2 (simDisk 7 4 false) _ bufs_ok_2 Hok).
Defined.

Lemma allocBuf_first_frame_witness :
  0 < 2 < UINT32 - 1 ∧
  allocBuf (newWorld 2 (simDisk 7 4 false)) =
  (Ok 0, mkWorld (with_hand 0 (BufMgr_new 2)) (simDisk 7 4 false) [] 1).
Proof.
  split; [exact bufs_ok_2|].
  exact (allocBuf_first_frame 2 (simDisk 7 4 false) bufs_ok_2).
Defined.

(** Page 3 is not in [all_pinned_state], whose two frames are pinned. *)
Lemma readPage_pool_exhausted_witness :
  wf (mgr all_pinned_state) ∧
  hashTable (mgr all_pinned_state) !! (7, 3) = None ∧
  ∃ w', readPage 7 3 all_pinned_state = (Throw BufferExceededException, w') ∧
        hashTable (mgr w') = hashTable (mgr all_pinned_state) ∧
        same_io all_pinned_state w'.
Proof.
  assert (Hk : hashTable (mgr all_pinned_state) !! (7, 3) = None) by by_eval.
  split; [exact (proj1 all_pinned_state_Inv)|]. split; [exact Hk|].
  exact (readPage_pool_exhausted all_pinned_state 7 3 (proj1 all_pinned_state_Inv)
           all_pinned_state_frames Hk).
Defined.

Lemma allocPage_pool_exhausted_witness :
  wf (mgr all_pinned_state) ∧
  ∃ w', allocPage 7 all_pinned_state = (Throw BufferExceededException, w') ∧
        hashTable (mgr w') = hashTable (mgr all_pinned_state) ∧
        same_io all_pinned_state w'.
Proof.
  split; [exact (proj1 all_pinned_state_Inv)|].
  exact (allocPage_pool_exhausted all_pinned_state 7 (proj1 all_pinned_state_Inv)
           all_pinned_state_frames).
Defined.
